(** * XAUUSD-SignalAgent: normalizer, indicator engine, level detector

    A shallow embedding of [market_data.py], [technical_analysis.py] and
    [signal_generator.py], and the properties of the specification proved
    (or refuted) on it.

    Modelling conventions.
    - A Python float is a rational number or a missing value:
      [Fl := option Q], where [None] stands for NaN (and for any other
      non-finite result such as a division by zero).  Arithmetic is exact:
      rounding and overflow of IEEE doubles are not modelled.
    - Window lengths and spans are natural numbers; the [ValueError] that
      pandas raises on a negative window is outside the model.
    - A pandas DataFrame is an index together with an ordered list of
      labelled columns; a column is a list of cells.  The row index has a
      single level.
    - A Python exception is a value of [exn]; code that may raise returns a
      [result], and [try ... except Exception] is a match on it.
    - The external collaborators are arguments of the functions that call
      them: [yf.download], [pd.to_datetime], the chat completion request,
      [json.loads], the text layout of the prompt, and the square root
      inside the rolling standard deviation.
    - [scipy.signal.find_peaks] is library code; it is modelled from its
      algorithm.
    - [str.lower] acts on the ASCII letters only. *)

From Stdlib Require Import String Ascii ZArith QArith Qabs Qround Lia Lqa Bool Arith List Sorted.
Import ListNotations.

Local Open Scope string_scope.
Local Open Scope Q_scope.

(* ================================================================== *)
(** ** Exceptions *)

Inductive exn : Type :=
| ValueError (msg : string)
| KeyError (key : string)
| IndexError (msg : string)
| TypeError (msg : string)
| ServiceError (msg : string)
| JSONDecodeError (msg : string).

Inductive result (A : Type) : Type :=
| Ok (a : A)
| Raise (e : exn).

Arguments Ok {A} a.
Arguments Raise {A} e.

Definition bind {A B : Type} (r : result A) (k : A -> result B) : result B :=
  match r with
  | Ok a => k a
  | Raise e => Raise e
  end.

Notation "x <- r ;; k" := (bind r (fun x => k))
  (at level 61, r at next level, right associativity).
Notation "' p <- r ;; k" := (bind r (fun x => let p := x in k))
  (at level 61, p pattern, r at next level, right associativity).

Fixpoint mapM {A B : Type} (f : A -> result B) (l : list A) : result (list B) :=
  match l with
  | [] => Ok []
  | a :: t => b <- f a ;; bs <- mapM f t ;; Ok (b :: bs)
  end.

(** [str(e)] of an exception, as interpolated into messages. *)
Definition exn_message (e : exn) : string :=
  match e with
  | ValueError m | IndexError m | TypeError m
  | ServiceError m | JSONDecodeError m => m
  | KeyError k => "'" ++ k ++ "'"
  end.

(* ================================================================== *)
(** ** Floats *)

Definition Fl : Type := option Q.
Definition Series : Type := list Fl.

Definition NaN : Fl := None.
Definition fl (q : Q) : Fl := Some q.

Definition fl_lift2 (f : Q -> Q -> Q) (a b : Fl) : Fl :=
  match a, b with
  | Some x, Some y => Some (f x y)
  | _, _ => None
  end.

Definition fadd := fl_lift2 Qplus.
Definition fsub := fl_lift2 Qminus.
Definition fmul := fl_lift2 Qmult.
Definition fneg (a : Fl) : Fl := option_map Qopp a.

Definition fdiv (a b : Fl) : Fl :=
  match a, b with
  | Some x, Some y => if Qeq_bool y 0 then None else Some (x / y)
  | _, _ => None
  end.

Definition Qlt_bool (x y : Q) : bool := negb (Qle_bool y x).

(** Comparisons with NaN are false. *)
Definition flt (a b : Fl) : bool :=
  match a, b with
  | Some x, Some y => Qlt_bool x y
  | _, _ => false
  end.
Definition fgt (a b : Fl) : bool := flt b a.
Definition fle (a b : Fl) : bool :=
  match a, b with
  | Some x, Some y => Qle_bool x y
  | _, _ => false
  end.
Definition feq (a b : Fl) : bool :=
  match a, b with
  | Some x, Some y => Qeq_bool x y
  | _, _ => false
  end.

(** [np.finfo(float).eps], the spacing of doubles at 1. *)
Definition float_eps : Q := 1 # (2 ^ 52).

(* ================================================================== *)
(** ** Strings *)

Definition lower_ascii (c : ascii) : ascii :=
  let n := nat_of_ascii c in
  if ((65 <=? n) && (n <=? 90))%nat then ascii_of_nat (n + 32) else c.

(** [s.lower()] on the ASCII letters. *)
Fixpoint lower (s : string) : string :=
  match s with
  | EmptyString => EmptyString
  | String c t => String (lower_ascii c) (lower t)
  end.

(** [s.replace(' ', '_')]. *)
Fixpoint replace_space (s : string) : string :=
  match s with
  | EmptyString => EmptyString
  | String c t => String (if Ascii.eqb c " "%char then "_"%char else c) (replace_space t)
  end.

(** [needle in hay] on strings. *)
Fixpoint str_in (needle hay : string) : bool :=
  String.prefix needle hay ||
  match hay with
  | EmptyString => false
  | String _ t => str_in needle t
  end.

Definition mem (s : string) (l : list string) : bool :=
  existsb (String.eqb s) l.

(* ================================================================== *)
(** ** Data frames *)

Inductive cell : Type :=
| CNum (x : Fl)
| CTime (t : Z)
| CStr (s : string).

Definition column : Type := list cell.

Record Index : Type := mkIndex {
  ix_name : option string;
  ix_datetime : bool;            (* isinstance(index, pd.DatetimeIndex) *)
  ix_values : column
}.

Record DataFrame : Type := mkFrame {
  df_index : Index;
  df_columns : list (string * column)
}.

Definition columns (df : DataFrame) : list string := map fst (df_columns df).

(** [df.empty]: one of the two axes has length 0. *)
Definition empty (df : DataFrame) : bool :=
  match ix_values (df_index df), df_columns df with
  | [], _ => true
  | _, [] => true
  | _, _ => false
  end.

Definition RangeIndex (n : nat) : Index :=
  mkIndex None false (map (fun i => CNum (fl (inject_Z (Z.of_nat i)))) (seq 0 n)).

(** [df[key]] used as a Series.  A label carried by several columns selects
    a sub-frame in pandas, which none of the Series computations below
    accepts as the value of a single column: the selection is modelled as
    the failure it leads to. *)
Definition getitem (df : DataFrame) (key : string) : result column :=
  match filter (fun kc => String.eqb (fst kc) key) (df_columns df) with
  | [] => Raise (KeyError key)
  | [(_, c)] => Ok c
  | _ => Raise (ValueError ("Cannot set a DataFrame with multiple columns: " ++ key))
  end.

(** [df[key] = c]: overwrite the columns labelled [key], or append one. *)
Definition setitem (df : DataFrame) (key : string) (c : column) : DataFrame :=
  mkFrame (df_index df)
          (if mem key (columns df)
           then map (fun kc => if String.eqb (fst kc) key then (key, c) else kc)
                    (df_columns df)
           else df_columns df ++ [(key, c)])%list.

(** [df.rename(columns={old: new})]: every column labelled [old]. *)
Definition rename (df : DataFrame) (old new : string) : DataFrame :=
  mkFrame (df_index df)
          (map (fun kc => if String.eqb (fst kc) old then (new, snd kc) else kc)
               (df_columns df)).

Definition set_columns (df : DataFrame) (names : list string) : DataFrame :=
  mkFrame (df_index df) (combine names (map snd (df_columns df))).

Definition cell_float (c : cell) : result Fl :=
  match c with
  | CNum x => Ok x
  | _ => Raise (TypeError "unsupported operand type(s)")
  end.

(** The float values of a numeric column. *)
Definition floats (c : column) : result Series := mapM cell_float c.

Definition of_series (s : Series) : column := map CNum s.

(** [s.iloc[-1]]. *)
Definition iloc_last {A : Type} (l : list A) : result A :=
  match rev l with
  | [] => Raise (IndexError "single positional indexer is out-of-bounds")
  | a :: _ => Ok a
  end.

(** [s.iloc[0]]. *)
Definition iloc_first {A : Type} (l : list A) : result A :=
  match l with
  | [] => Raise (IndexError "single positional indexer is out-of-bounds")
  | a :: _ => Ok a
  end.

(* ================================================================== *)
(** ** pandas Series primitives *)

Fixpoint map2 {A B C : Type} (f : A -> B -> C) (l1 : list A) (l2 : list B) : list C :=
  match l1, l2 with
  | a :: t1, b :: t2 => f a b :: map2 f t1 t2
  | _, _ => []
  end.

(** [s.diff()]: [s[i] - s[i-1]], missing at row 0. *)
Definition diff (s : Series) : Series :=
  match s with
  | [] => []
  | _ :: t => NaN :: map2 (fun prev cur => fsub cur prev) s t
  end.

(** [s.where(cond, other)]: keep the value where the condition holds. *)
Definition where_ (cond : Fl -> bool) (other : Fl) (s : Series) : Series :=
  map (fun x => if cond x then x else other) s.

(** [s.replace(old, new)]. *)
Definition replace (old new : Fl) (s : Series) : Series :=
  map (fun x => if feq x old then new else x) s.

(** The windows of [s.rolling(window=w)] with the default
    [min_periods = w]: row [i] sees rows [i-w+1 .. i] once there are [w]
    of them. *)
Definition rolling (w : nat) (s : Series) : list (option (list Fl)) :=
  map (fun i => if ((w =? 0) || (S i <? w))%nat then None
                else Some (firstn w (skipn (S i - w) s)))
      (seq 0 (length s)).

Definition fsum (l : list Fl) : Fl := fold_right fadd (fl 0) l.

Definition of_nat (n : nat) : Q := inject_Z (Z.of_nat n).

(** Mean of a full window; NaN as soon as one observation is NaN, since
    fewer than [min_periods] observations are then valid. *)
Definition window_mean (l : list Fl) : Fl :=
  fdiv (fsum l) (fl (of_nat (length l))).

Definition rolling_mean (w : nat) (s : Series) : Series :=
  map (fun o => match o with None => NaN | Some l => window_mean l end)
      (rolling w s).

(** Sample variance (ddof = 1) of a full window. *)
Definition window_var (l : list Fl) : Fl :=
  let m := window_mean l in
  fdiv (fsum (map (fun x => fmul (fsub x m) (fsub x m)) l))
       (fl (of_nat (length l - 1))).

Definition rolling_std (sqrt : Q -> Q) (w : nat) (s : Series) : Series :=
  map (fun o => match o with
                | None => NaN
                | Some l => option_map sqrt (window_var l)
                end)
      (rolling w s).

(** [s.ewm(span=span, adjust=False).mean()], pandas' recursion with its
    default [ignore_na=False]: [y0 = x0] and, on NaN-free input,
    [y_i = (1 - a) * y_(i-1) + a * x_i] with [a = 2 / (span + 1)].  The
    state is the running mean and the weight [old_wt] it carries, which
    decays over NaN rows. *)
Fixpoint ewm_from (alpha : Q) (weighted : Fl) (old_wt : Q) (s : Series) : Series :=
  match s with
  | [] => []
  | cur :: t =>
      match weighted, cur with
      | Some w, Some c =>
          let old_wt' := old_wt * (1 - alpha) in
          let w' := fdiv (fl (old_wt' * w + alpha * c)) (fl (old_wt' + alpha)) in
          w' :: ewm_from alpha w' 1 t
      | Some w, None =>
          weighted :: ewm_from alpha weighted (old_wt * (1 - alpha)) t
      | None, _ => cur :: ewm_from alpha cur old_wt t
      end
  end.

Definition ewm_mean (span : nat) (s : Series) : result Series :=
  if (span <? 1)%nat then Raise (ValueError "span must satisfy: span >= 1")
  else Ok (ewm_from (2 / (of_nat span + 1)) NaN 1 s).

(* ================================================================== *)
(** ** technical_analysis.py: indicators *)

Definition calculate_rsi (data : DataFrame) (window : nat) : result Series :=
  close_col <- getitem data "close" ;;
  close <- floats close_col ;;
  let delta := diff close in
  let gain := where_ (fun d => fgt d (fl 0)) (fl 0) delta in
  let loss := map fneg (where_ (fun d => flt d (fl 0)) (fl 0) delta) in
  let avg_gain := rolling_mean window gain in
  let avg_loss := rolling_mean window loss in
  let rs := map2 fdiv avg_gain (replace (fl 0) (fl float_eps) avg_loss) in
  let rsi := map (fun r => fsub (fl 100) (fdiv (fl 100) (fadd (fl 1) r))) rs in
  Ok rsi.

Definition calculate_macd (data : DataFrame) (fast_period slow_period signal_period : nat)
  : result (Series * Series * Series) :=
  close_col <- getitem data "close" ;;
  close <- floats close_col ;;
  ema_fast <- ewm_mean fast_period close ;;
  ema_slow <- ewm_mean slow_period close ;;
  let macd_line := map2 fsub ema_fast ema_slow in
  signal_line <- ewm_mean signal_period macd_line ;;
  let histogram := map2 fsub macd_line signal_line in
  Ok (macd_line, signal_line, histogram).

Definition calculate_bollinger_bands (sqrt : Q -> Q) (data : DataFrame)
    (window : nat) (num_std : Q) : result (Series * Series * Series) :=
  close_col <- getitem data "close" ;;
  close <- floats close_col ;;
  let middle_band := rolling_mean window close in
  let std_dev := rolling_std sqrt window close in
  let upper_band := map2 fadd middle_band (map (fun s => fmul s (fl num_std)) std_dev) in
  let lower_band := map2 fsub middle_band (map (fun s => fmul s (fl num_std)) std_dev) in
  Ok (upper_band, middle_band, lower_band).

(* ================================================================== *)
(** ** scipy.signal.find_peaks

    The peak finder is library code; the model follows scipy's
    [_local_maxima_1d], [_select_by_peak_distance] and [peak_prominences]
    loop by loop.  Indices are positions in the input array. *)

Definition at_ (x : Series) (i : nat) : Fl := nth i x NaN.

(** [while i_ahead < i_max and x[i_ahead] == x[i]: i_ahead += 1] *)
Fixpoint plateau_end (fuel : nat) (x : Series) (i i_max i_ahead : nat) : nat :=
  match fuel with
  | O => i_ahead
  | S f =>
      if (i_ahead <? i_max)%nat && feq (at_ x i_ahead) (at_ x i)
      then plateau_end f x i i_max (S i_ahead)
      else i_ahead
  end.

(** The scan [while i < i_max] of [_local_maxima_1d]: a sample is a peak
    when it rises from its left neighbour and the plateau that starts
    there ends in a fall; the midpoint of the plateau is recorded. *)
Fixpoint local_maxima_loop (fuel : nat) (x : Series) (i i_max : nat) : list nat :=
  match fuel with
  | O => []
  | S f =>
      if (i <? i_max)%nat then
        if flt (at_ x (i - 1)) (at_ x i) then
          let i_ahead := plateau_end (length x) x i i_max (i + 1) in
          if flt (at_ x i_ahead) (at_ x i) then
            ((i + (i_ahead - 1)) / 2)%nat :: local_maxima_loop f x (i_ahead + 1) i_max
          else local_maxima_loop f x (i + 1) i_max
        else local_maxima_loop f x (i + 1) i_max
      else []
  end.

Definition local_maxima_1d (x : Series) : list nat :=
  local_maxima_loop (length x) x 1 (length x - 1).

Fixpoint set_nth {A : Type} (i : nat) (a : A) (l : list A) : list A :=
  match l, i with
  | [], _ => []
  | _ :: t, O => a :: t
  | b :: t, S j => b :: set_nth j a t
  end.

(** [np.argsort(priority)] as a stable insertion sort of the positions;
    numpy's default sort may order equal priorities differently. *)
Fixpoint insert_by (priority : list Fl) (j : nat) (l : list nat) : list nat :=
  match l with
  | [] => [j]
  | k :: t =>
      if flt (nth k priority NaN) (nth j priority NaN)
      then k :: insert_by priority j t
      else j :: l
  end.

Definition argsort (priority : list Fl) : list nat :=
  fold_right (insert_by priority) [] (seq 0 (length priority)).

(** [k = j - 1; while 0 <= k and peaks[j] - peaks[k] < distance: keep[k] = 0; k -= 1];
    the argument [k1] is [k + 1]. *)
Fixpoint clear_left (peaks : list nat) (pj distance : nat) (k1 : nat)
    (keep : list bool) : list bool :=
  match k1 with
  | O => keep
  | S k =>
      if (pj - nth k peaks 0%nat <? distance)%nat
      then clear_left peaks pj distance k (set_nth k false keep)
      else keep
  end.

(** [k = j + 1; while k < peaks_size and peaks[k] - peaks[j] < distance: keep[k] = 0; k += 1] *)
Fixpoint clear_right (fuel : nat) (peaks : list nat) (pj distance : nat) (k : nat)
    (keep : list bool) : list bool :=
  match fuel with
  | O => keep
  | S f =>
      if ((k <? length peaks) && (nth k peaks 0%nat - pj <? distance))%nat
      then clear_right f peaks pj distance (S k) (set_nth k false keep)
      else keep
  end.

(** Peaks are visited from the highest priority down; a peak still kept
    removes its neighbours closer than [distance]. *)
Definition select_by_peak_distance (peaks : list nat) (priority : list Fl)
    (distance : nat) : list bool :=
  fold_left
    (fun keep j =>
       if nth j keep false then
         let pj := nth j peaks 0%nat in
         clear_right (length peaks) peaks pj distance (S j)
           (clear_left peaks pj distance j keep)
       else keep)
    (rev (argsort priority))
    (repeat true (length peaks)).

(** [peaks[keep]] with a boolean mask. *)
Definition mask {A : Type} (l : list A) (keep : list bool) : list A :=
  map fst (filter snd (combine l keep)).

(** Left scan of [peak_prominences]: the lowest sample met while walking
    left from the peak, until a sample higher than the peak. [i1] is [i + 1]. *)
Fixpoint left_min (x : Series) (peak : nat) (i1 : nat) (m : Fl) : Fl :=
  match i1 with
  | O => m
  | S i =>
      if fle (at_ x i) (at_ x peak)
      then left_min x peak i (if flt (at_ x i) m then at_ x i else m)
      else m
  end.

Fixpoint right_min (fuel : nat) (x : Series) (peak : nat) (i : nat) (m : Fl) : Fl :=
  match fuel with
  | O => m
  | S f =>
      if ((i <? length x)%nat && fle (at_ x i) (at_ x peak))
      then right_min f x peak (S i) (if flt (at_ x i) m then at_ x i else m)
      else m
  end.

Definition fmax (a b : Fl) : Fl := if flt a b then b else a.

Definition peak_prominence (x : Series) (peak : nat) : Fl :=
  let lm := left_min x peak (S peak) (at_ x peak) in
  let rm := right_min (length x) x peak peak (at_ x peak) in
  fsub (at_ x peak) (fmax lm rm).

Definition find_peaks (x : Series) (distance : nat) (prominence : Q)
  : result (list nat) :=
  if (distance <? 1)%nat
  then Raise (ValueError "`distance` must be greater or equal to 1")
  else
    let peaks := local_maxima_1d x in
    let keep := select_by_peak_distance peaks (map (at_ x) peaks) distance in
    let peaks := mask peaks keep in
    let prominences := map (peak_prominence x) peaks in
    let keep := map (fun p => fle (fl prominence) p) prominences in
    Ok (mask peaks keep).

(* ================================================================== *)
(** ** technical_analysis.py: level detector *)

(** [prices[idx]] with an integer index array. *)
Definition take (prices : Series) (idx : list nat) : result Series :=
  mapM (fun i => match nth_error prices i with
                 | Some p => Ok p
                 | None => Raise (IndexError "index out of bounds")
                 end) idx.

(** [sorted(levels)]: stable, ascending. *)
Fixpoint insert_sorted (a : Fl) (l : Series) : Series :=
  match l with
  | [] => [a]
  | b :: t => if flt b a then b :: insert_sorted a t else a :: l
  end.

Definition sorted (l : Series) : Series := fold_right insert_sorted [] l.

(** [l[-5:]] *)
Definition last5 {A : Type} (l : list A) : list A := skipn (length l - 5) l.

(** [abs(s - prev) / s > 0.001].  A zero [s] makes the quotient infinite
    (or NaN when the numerator is zero as well). *)
Definition far_apart (prev s : Fl) : bool :=
  match prev, s with
  | Some a, Some b =>
      if Qeq_bool b 0 then negb (Qeq_bool (Qabs (b - a)) 0)
      else Qlt_bool (1 # 1000) (Qabs (b - a) / b)
  | _, _ => false
  end.

(** [[levels[0]] + [s for i, s in enumerate(levels[1:]) if abs(s - levels[i]) / s > 0.001]]:
    [levels[i]] is the element just before [s] in [levels]. *)
Definition remove_close (levels : Series) : Series :=
  match levels with
  | [] => []
  | first :: rest =>
      first :: map snd (filter (fun ps => far_apart (fst ps) (snd ps))
                               (combine levels rest))
  end.

Definition find_support_resistance (data : DataFrame) (window : nat) (prominence : Q)
  : result (Series * Series) :=
  close_col <- getitem data "close" ;;
  prices <- floats close_col ;;
  resistance_idx <- find_peaks prices window prominence ;;
  resistance_levels <- take prices resistance_idx ;;
  support_idx <- find_peaks (map fneg prices) window prominence ;;
  support_levels <- take prices support_idx ;;
  let support_levels :=
    if (0 <? length support_levels)%nat then last5 (sorted support_levels) else [] in
  let resistance_levels :=
    if (0 <? length resistance_levels)%nat then last5 (sorted resistance_levels) else [] in
  let support_levels :=
    if (0 <? length support_levels)%nat then remove_close support_levels
    else support_levels in
  let resistance_levels :=
    if (0 <? length resistance_levels)%nat then remove_close resistance_levels
    else resistance_levels in
  Ok (support_levels, resistance_levels).

(* ================================================================== *)
(** ** technical_analysis.py: bundle assembler *)

Record Bundle : Type := mkBundle {
  data : DataFrame;
  support_levels : Series;
  resistance_levels : Series;
  last_price : option Fl
}.

Definition calculate_all_indicators (sqrt : Q -> Q) (data : DataFrame) : result Bundle :=
  rsi <- calculate_rsi data 14 ;;
  let data := setitem data "rsi" (of_series rsi) in
  '(macd_line, signal_line, histogram) <- calculate_macd data 12 26 9 ;;
  let data := setitem data "macd" (of_series macd_line) in
  let data := setitem data "macd_signal" (of_series signal_line) in
  let data := setitem data "macd_histogram" (of_series histogram) in
  '(upper_band, middle_band, lower_band) <- calculate_bollinger_bands sqrt data 20 2 ;;
  let data := setitem data "bb_upper" (of_series upper_band) in
  let data := setitem data "bb_middle" (of_series middle_band) in
  let data := setitem data "bb_lower" (of_series lower_band) in
  '(support_levels, resistance_levels) <- find_support_resistance data 10 (1 # 2) ;;
  last_price <-
    (if negb (empty data)
     then (close_col <- getitem data "close" ;;
           close <- floats close_col ;;
           p <- iloc_last close ;;
           Ok (Some p))
     else Ok None) ;;
  Ok (mkBundle data support_levels resistance_levels last_price).

(* ================================================================== *)
(** ** market_data.py: series normalizer *)

(** Column header of a downloaded table: plain labels, or the tuples of a
    [pd.MultiIndex]. *)
Inductive Header : Type :=
| FlatIndex (labels : list string)
| MultiIndex (tuples : list (list string)).

(** What the market-data provider hands over. *)
Record RawFrame : Type := mkRaw {
  raw_index : Index;
  raw_header : Header;
  raw_data : list column
}.

Definition header_length (h : Header) : nat :=
  match h with
  | FlatIndex l => length l
  | MultiIndex l => length l
  end.

Definition raw_empty (raw : RawFrame) : bool :=
  match ix_values (raw_index raw), header_length (raw_header raw) with
  | [], _ => true
  | _, O => true
  | _, _ => false
  end.

Definition valid_periods : list string :=
  ["1d"; "5d"; "1mo"; "3mo"; "6mo"; "1y"; "2y"; "5y"; "10y"; "ytd"; "max"].

Definition period_map : list (string * string) :=
  [("1w", "5d"); ("1m", "1mo"); ("3m", "3mo"); ("6m", "6mo");
   ("1yr", "1y"); ("2yr", "2y"); ("5yr", "5y"); ("10yr", "10y")].

Fixpoint assoc (k : string) (l : list (string * string)) : option string :=
  match l with
  | [] => None
  | (k', v) :: t => if String.eqb k k' then Some v else assoc k t
  end.

Definition valid_period (period : string) : string :=
  match assoc period period_map with
  | Some p => p
  | None => if mem period valid_periods then period else "1d"
  end.

Definition ohlcv_names : list string :=
  ["Open"; "High"; "Low"; "Close"; "Volume"; "Adj Close"].

(** [col[0]] of a header tuple. *)
Definition tuple_first (col : list string) : result string :=
  match col with
  | [] => Raise (IndexError "tuple index out of range")
  | a :: _ => Ok a
  end.

(** [f"{col[0]}_{col[1]}" if len(col) > 1 else col[0]] *)
Definition tuple_join (col : list string) : result string :=
  match col with
  | [] => Raise (IndexError "tuple index out of range")
  | [a] => Ok a
  | a :: b :: _ => Ok (a ++ "_" ++ b)
  end.

(** Collapse a two-level header to flat labels. *)
Definition flatten_header (h : Header) : result (list string) :=
  match h with
  | FlatIndex labels => Ok labels
  | MultiIndex tuples =>
      firsts <- mapM tuple_first tuples ;;
      if forallb (fun c => mem c ohlcv_names) firsts
      then Ok firsts
      else mapM tuple_join tuples
  end.

(** [data.reset_index()]: the index becomes the first column, named after
    the index, or [index] ([level_0] when that label is taken). *)
Definition reset_index (df : DataFrame) : result DataFrame :=
  let name :=
    match ix_name (df_index df) with
    | Some n => n
    | None => if mem "index" (columns df) then "level_0" else "index"
    end in
  if mem name (columns df)
  then Raise (ValueError ("cannot insert " ++ name ++ ", already exists"))
  else Ok (mkFrame (RangeIndex (length (ix_values (df_index df))))
                   ((name, ix_values (df_index df)) :: df_columns df)).

Definition time_words : list string := ["date"; "time"; "datetime"].

Definition required_columns : list string :=
  ["open"; "high"; "low"; "close"; "volume"].

(** The [for col in data.columns: ... break] search for a time-like label. *)
Definition find_time_column (df : DataFrame) : option string :=
  find (fun col => existsb (fun w => str_in w (lower col)) time_words) (columns df).

(** Timestamp resolution; [to_datetime] is [pd.to_datetime]. *)
Definition resolve_date (to_datetime : column -> result column) (df : DataFrame)
  : result DataFrame :=
  let '(date_col, df) :=
    if mem "date" (columns df) then (Some "date", df)
    else if mem "datetime" (columns df) then (Some "datetime", rename df "datetime" "date")
    else match find_time_column df with
         | Some col => (Some col, rename df col "date")
         | None => (None, df)
         end in
  match date_col with
  | Some _ =>
      c <- getitem df "date" ;;
      parsed <- to_datetime c ;;
      Ok (setitem df "date" parsed)
  | None =>
      if ix_datetime (df_index df)
      then Ok (setitem df "date" (ix_values (df_index df)))
      else Raise (ValueError "Could not identify a datetime column in the data")
  end.

(** Case-insensitive pass over the snapshot [actual_columns]. *)
Definition match_case_insensitive (df : DataFrame) : DataFrame :=
  let actual_columns := columns df in
  fold_left
    (fun df req_col =>
       if negb (mem req_col actual_columns) then
         match find (fun col => String.eqb req_col (lower col)) actual_columns with
         | Some col => rename df col req_col
         | None => df
         end
       else df)
    required_columns df.

(** [l.remove(x)]: the first occurrence. *)
Fixpoint remove_first (x : string) (l : list string) : list string :=
  match l with
  | [] => []
  | y :: t => if String.eqb y x then t else y :: remove_first x t
  end.

(** Substring pass: the first column whose label contains the missing name. *)
Definition match_substring (df : DataFrame) (missing_columns : list string)
  : DataFrame * list string :=
  fold_left
    (fun st req_col =>
       let '(df, missing) := st in
       match filter (fun col => str_in req_col (lower col)) (columns df) with
       | matching_col :: _ => (rename df matching_col req_col, remove_first req_col missing)
       | [] => (df, missing)
       end)
    missing_columns (df, missing_columns).

(** [f"Could not find required columns: {missing_columns}"] *)
Definition missing_message (missing : list string) : string :=
  "Could not find required columns: ["
  ++ String.concat ", " (map (fun m => "'" ++ m ++ "'") missing) ++ "]".

Definition resolve_columns (df : DataFrame) : result DataFrame :=
  let df := match_case_insensitive df in
  let missing_columns := filter (fun c => negb (mem c (columns df))) required_columns in
  let '(df, missing_columns) :=
    match missing_columns with
    | [] => (df, missing_columns)
    | _ => match_substring df missing_columns
    end in
  match missing_columns with
  | [] => Ok df
  | _ =>
      let '(df, missing_columns) :=
        if mem "close" missing_columns && mem "adj_close" (columns df)
        then (rename df "adj_close" "close", remove_first "close" missing_columns)
        else (df, missing_columns) in
      match missing_columns with
      | [] => Ok df
      | _ => Raise (ValueError (missing_message missing_columns))
      end
  end.

(** [s.ffill()] *)
Fixpoint ffill_from (prev : Fl) (s : Series) : Series :=
  match s with
  | [] => []
  | x :: t => let y := match x with None => prev | Some _ => x end in
              y :: ffill_from y t
  end.

(** [s.pct_change()] with pandas' default forward fill of missing values. *)
Definition pct_change (s : Series) : Series :=
  let filled := ffill_from NaN s in
  match filled with
  | [] => []
  | _ :: t => NaN :: map2 (fun prev cur => fsub (fdiv cur prev) (fl 1)) filled t
  end.

Definition add_changes (df : DataFrame) : result DataFrame :=
  close_col <- getitem df "close" ;;
  close <- floats close_col ;;
  let df := setitem df "price_change" (of_series (diff close)) in
  close_col <- getitem df "close" ;;
  close <- floats close_col ;;
  Ok (setitem df "percent_change"
        (of_series (map (fun x => fmul x (fl 100)) (pct_change close)))).

(** The emptiness check, the collapse of a two-level header, the index
    reset and the lowercasing of the labels. *)
Definition prepare (raw : RawFrame) : result DataFrame :=
  if raw_empty raw then Raise (ValueError "No data retrieved from Yahoo Finance")
  else
    labels <- flatten_header (raw_header raw) ;;
    let df := mkFrame (raw_index raw) (combine labels (raw_data raw)) in
    df <- reset_index df ;;
    Ok (set_columns df (map (fun col => replace_space (lower col)) (columns df))).

(** The body of the [try] block once the table has been downloaded. *)
Definition normalize (to_datetime : column -> result column) (raw : RawFrame)
  : result DataFrame :=
  df <- prepare raw ;;
  df <- resolve_date to_datetime df ;;
  df <- resolve_columns df ;;
  add_changes df.

(** [pd.DataFrame(columns=['date', 'open', 'high', 'low', 'close', 'volume'])] *)
Definition empty_frame : DataFrame :=
  mkFrame (mkIndex None false [])
          (map (fun c => (c, [])) ["date"; "open"; "high"; "low"; "close"; "volume"]).

(** [download] is [yf.download], called with the ticker, period and
    interval; the [except Exception] handler turns every failure into the
    empty frame. *)
Definition fetch_xauusd_data
    (download : string -> string -> string -> result RawFrame)
    (to_datetime : column -> result column)
    (period interval : string) : DataFrame :=
  let attempt :=
    let ticker := "GC=F" in
    let period := valid_period period in
    raw <- download ticker period interval ;;
    normalize to_datetime raw in
  match attempt with
  | Ok df => df
  | Raise _ => empty_frame
  end.

(* ================================================================== *)
(** ** signal_generator.py: recommendation request builder *)

#[warnings="-register-all"]
Inductive json : Type :=
| JNull
| JBool (b : bool)
| JNum (x : Q)
| JStr (s : string)
| JArr (items : list json)
| JObj (fields : list (string * json)).

(** [d[key]] on a reply; a value that is not an object has no keys. *)
Fixpoint lookup (key : string) (fields : list (string * json)) : option json :=
  match fields with
  | [] => None
  | (k, v) :: t => if String.eqb k key then Some v else lookup key t
  end.

Definition get (reply : json) (key : string) : option json :=
  match reply with
  | JObj fields => lookup key fields
  | _ => None
  end.

Record MarketSummary : Type := mkSummary {
  current_price : Fl;
  price_change_24h : Fl;
  price_change_pct_24h : Fl;
  high_24h : Fl;
  low_24h : Fl;
  volatility_24h : Fl;
  current_rsi : Fl;
  current_macd : Fl;
  current_macd_signal : Fl;
  current_bb_upper : Fl;
  current_bb_lower : Fl;
  summary_support_levels : Series;
  summary_resistance_levels : Series
}.

(** [l[-n:]] *)
Definition lastn {A : Type} (n : nat) (l : list A) : list A :=
  skipn (length l - n) l.

(** [df.tail(n)] *)
Definition tail (n : nat) (df : DataFrame) : DataFrame :=
  mkFrame (mkIndex (ix_name (df_index df)) (ix_datetime (df_index df))
                   (lastn n (ix_values (df_index df))))
          (map (fun kc => (fst kc, lastn n (snd kc))) (df_columns df)).

(** [s.max()] and [s.min()]: missing values are skipped. *)
Definition series_max (s : Series) : Fl :=
  fold_left (fun m x => match m, x with
                        | None, _ => x
                        | _, None => m
                        | Some a, Some b => if Qlt_bool a b then x else m
                        end) s NaN.

Definition series_min (s : Series) : Fl :=
  fold_left (fun m x => match m, x with
                        | None, _ => x
                        | _, None => m
                        | Some a, Some b => if Qlt_bool b a then x else m
                        end) s NaN.

(** [df[key]] as floats. *)
Definition numeric (df : DataFrame) (key : string) : result Series :=
  c <- getitem df key ;; floats c.

Definition last_of (df : DataFrame) (key : string) : result Fl :=
  s <- numeric df key ;; iloc_last s.

(** Everything the [try] block computes before the request is sent.
    [render] is the f-string that lays the summary and the three labels
    out as text. *)
Definition build_prompt
    (render : MarketSummary -> string -> string -> string -> string)
    (market_data : DataFrame) (analysis_data : Bundle) : result string :=
  let recent_data := tail 24 market_data in
  recent_close <- numeric recent_data "close" ;;
  close_last <- iloc_last recent_close ;;
  close_first <- iloc_first recent_close ;;
  recent_high <- numeric recent_data "high" ;;
  recent_low <- numeric recent_data "low" ;;
  rsi <- last_of (data analysis_data) "rsi" ;;
  macd <- last_of (data analysis_data) "macd" ;;
  macd_signal <- last_of (data analysis_data) "macd_signal" ;;
  bb_upper <- last_of (data analysis_data) "bb_upper" ;;
  bb_lower <- last_of (data analysis_data) "bb_lower" ;;
  let rsi_trend :=
    if fgt rsi (fl 70) then "overbought"
    else if flt rsi (fl 30) then "oversold" else "neutral" in
  let macd_trend := if fgt macd macd_signal then "bullish" else "bearish" in
  match last_price analysis_data with
  | None => Raise (TypeError "'>' not supported between instances of 'NoneType' and 'float'")
  | Some price =>
      let bb_position :=
        if fgt price bb_upper then "upper_band"
        else if flt price bb_lower then "lower_band" else "middle" in
      let market_summary :=
        mkSummary price
                  (fsub close_last close_first)
                  (fmul (fsub (fdiv close_last close_first) (fl 1)) (fl 100))
                  (series_max recent_high)
                  (series_min recent_low)
                  (fsub (series_max recent_high) (series_min recent_low))
                  rsi macd macd_signal bb_upper bb_lower
                  (support_levels analysis_data)
                  (resistance_levels analysis_data) in
      Ok (render market_summary rsi_trend macd_trend bb_position)
  end.

Definition insufficient_data : json :=
  JObj [("error", JStr "Insufficient data to generate trade signal")].

(** The reply built by the [except Exception] handler. *)
Definition error_reply (e : exn) : json :=
  JObj [("signal", JStr "ERROR");
        ("entry_price", JNum 0);
        ("stop_loss", JNum 0);
        ("take_profit", JNum 0);
        ("confidence", JStr "LOW");
        ("rationale", JStr ("Failed to generate trade signal: " ++ exn_message e));
        ("risk_factors", JStr "Unable to assess risks due to signal generation failure")].

(** [generate_trade_signal].  [chat_create] is the request to the external
    text-generation service (it yields the content of the first choice, or
    raises); [json_loads] is [json.loads].  [analysis_data] is [None] when
    the caller passes a falsy value ([None] or an empty dict); the guard
    [market_data.empty or not analysis_data] returns the same marker on
    either side.  The result pairs the reply with the prompts that were
    sent to the service. *)
Definition generate_trade_signal
    (chat_create : string -> result string)
    (json_loads : string -> result json)
    (render : MarketSummary -> string -> string -> string -> string)
    (market_data : DataFrame) (analysis_data : option Bundle)
  : json * list string :=
  let '(attempt, calls) :=
    match analysis_data with
    | None => (Ok insufficient_data, [])
    | Some analysis =>
        if empty market_data then (Ok insufficient_data, [])
        else
          match build_prompt render market_data analysis with
          | Raise e => (Raise e, [])
          | Ok prompt =>
              (response_content <- chat_create prompt ;; json_loads response_content,
               [prompt])
          end
    end in
  match attempt with
  | Ok signal_data => (signal_data, calls)
  | Raise e => (error_reply e, calls)
  end.

(* ================================================================== *)
(** ** Stand-ins for the external collaborators, used to run the model *)

(** A frame seen as a freshly downloaded table. *)
Definition as_raw (df : DataFrame) : RawFrame :=
  mkRaw (df_index df) (FlatIndex (columns df)) (map snd (df_columns df)).

(** A [pd.to_datetime] that accepts parsed timestamps and whole numbers of
    nanoseconds, and rejects text. *)
Definition to_datetime_cell (c : cell) : result cell :=
  match c with
  | CTime t => Ok (CTime t)
  | CNum (Some q) => Ok (CTime (Qfloor q))
  | CNum None => Raise (ValueError "NaT")
  | CStr s => Raise (ValueError ("Unknown datetime string format: " ++ s))
  end.

Definition to_datetime_basic (c : column) : result column := mapM to_datetime_cell c.

(** A square root rounded down to a multiple of [2^-26]. *)
Definition sqrt_floor (x : Q) : Q :=
  Z.sqrt (Qnum x * Zpos (Qden x) * 2 ^ 52) # (Qden x * 2 ^ 26).

(** A frame with an unnamed range index and a single [close] column. *)
Definition close_frame (closes : list Q) : DataFrame :=
  mkFrame (RangeIndex (length closes)) [("close", map (fun q => CNum (fl q)) closes)].

(* ================================================================== *)
(** ** Sample data *)

(** Thirty hourly closes rising by 1 from 1900. *)
Definition rising30 : list Q := map (fun i => inject_Z (1900 + Z.of_nat i)) (seq 0 30).

(** Twenty-five equal closes. *)
Definition flat25 : list Q := repeat 1900 25.

(** Twenty closes falling by 1 from 1950. *)
Definition falling20 : list Q :=
  [1950; 1949; 1948; 1947; 1946; 1945; 1944; 1943; 1942; 1941;
   1940; 1939; 1938; 1937; 1936; 1935; 1934; 1933; 1932; 1931].

(** A rise and a fall. *)
Definition peak3 : list Q := [1900; 1903; 1900].

(** Twenty-one closes with several peaks and troughs. *)
Definition zigzag21 : list Q :=
  [1901; 1903; 1901; 1903; 1903; 1901; 1900; 1901; 1905; 1904; 1907;
   1902; 1901; 1908; 1901; 1909; 1901; 1910; 1901; 1905; 1909].

(** A canonical series of two rows. *)
Definition canonical2 : DataFrame :=
  mkFrame (RangeIndex 2)
          [("date", [CTime 0; CTime 3600]);
           ("open", [CNum (fl 1900); CNum (fl 1901)]);
           ("high", [CNum (fl 1905); CNum (fl 1906)]);
           ("low", [CNum (fl 1895); CNum (fl 1896)]);
           ("close", [CNum (fl 1901); CNum (fl 1902)]);
           ("volume", [CNum (fl 10); CNum (fl 20)])].

(** A one-row market table and the analysis of it. *)
Definition tiny_market : DataFrame :=
  mkFrame (RangeIndex 1)
          [("date", [CTime 0]); ("open", [CNum (fl 1900)]); ("high", [CNum (fl 1905)]);
           ("low", [CNum (fl 1895)]); ("close", [CNum (fl 1901)]);
           ("volume", [CNum (fl 10)])].

Definition tiny_analysis : Bundle :=
  mkBundle
    (mkFrame (RangeIndex 1)
       [("close", [CNum (fl 1901)]); ("rsi", [CNum NaN]); ("macd", [CNum (fl 0)]);
        ("macd_signal", [CNum (fl 0)]); ("macd_histogram", [CNum (fl 0)]);
        ("bb_upper", [CNum NaN]); ("bb_middle", [CNum NaN]); ("bb_lower", [CNum NaN])])
    [] [] (Some (fl 1901)).

(** A table without any time-like label and with a plain index. *)
Definition raw_no_time : RawFrame :=
  mkRaw (mkIndex None false [CNum (fl 0); CNum (fl 1)])
        (FlatIndex ["Open"; "High"; "Low"; "Close"; "Volume"])
        [[CNum (fl 1900); CNum (fl 1901)]; [CNum (fl 1905); CNum (fl 1906)];
         [CNum (fl 1895); CNum (fl 1896)]; [CNum (fl 1901); CNum (fl 1902)];
         [CNum (fl 10); CNum (fl 20)]].

(** A two-level table, as the provider sends for one ticker, without volume. *)
Definition raw_no_volume : RawFrame :=
  mkRaw (mkIndex (Some "Datetime") true [CTime 0; CTime 3600])
        (MultiIndex [["Close"; "GC=F"]; ["High"; "GC=F"]; ["Low"; "GC=F"]; ["Open"; "GC=F"]])
        [[CNum (fl 1901); CNum (fl 1902)]; [CNum (fl 1905); CNum (fl 1906)];
         [CNum (fl 1895); CNum (fl 1896)]; [CNum (fl 1900); CNum (fl 1901)]].

(** A provider that hands over the same table whatever is asked. *)
Definition download_fixed (raw : RawFrame) (ticker period interval : string)
  : result RawFrame := Ok raw.

(** Stand-ins for a service that is down. *)
Definition chat_down (prompt : string) : result string :=
  Raise (ServiceError "Connection error.").
Definition json_loads_none (content : string) : result json :=
  Raise (JSONDecodeError "Expecting value: line 1 column 1 (char 0)").
Definition render_plain (summary : MarketSummary) (rsi_trend macd_trend bb_position : string)
  : string := rsi_trend ++ " " ++ macd_trend ++ " " ++ bb_position.

(** The provider's table for gold, by the hour. *)
Definition raw_provider : RawFrame :=
  mkRaw (mkIndex (Some "Datetime") true [CTime 0; CTime 3600])
        (MultiIndex [["Close"; "GC=F"]; ["High"; "GC=F"]; ["Low"; "GC=F"];
                     ["Open"; "GC=F"]; ["Volume"; "GC=F"]])
        [[CNum (fl 1901); CNum (fl 1902)]; [CNum (fl 1905); CNum (fl 1906)];
         [CNum (fl 1895); CNum (fl 1896)]; [CNum (fl 1900); CNum (fl 1901)];
         [CNum (fl 10); CNum (fl 20)]].

(** A provider that only knows the valid periods. *)
Definition download_valid_only (raw : RawFrame) (ticker period interval : string)
  : result RawFrame :=
  if mem period valid_periods then Ok raw
  else Raise (ValueError "Invalid input - period is invalid").

(** A service that answers with a fixed text, and a parser that reads the
    text as a JSON string. *)
Definition chat_fixed (answer : string) (prompt : string) : result string := Ok answer.
Definition json_loads_string (content : string) : result json := Ok (JStr content).

(* ================================================================== *)
(** ** Predicates of the statements *)

(** [a <= b] on floats that are numbers. *)
Definition ascending (a b : Fl) : Prop := fle a b = true.

(** A price that is a number above 0. *)
Definition positive (a : Fl) : Prop := exists q, a = Some q /\ 0 < q.

(** [|b - a| / a > 0.001] *)
Definition spaced (a b : Fl) : Prop :=
  exists qa qb, a = Some qa /\ b = Some qb /\ (1 # 1000) < Qabs (qb - qa) / qa.

(** A label that contains no required name other than itself. *)
Definition holds_no_other (k : string) : Prop :=
  forall req, In req required_columns -> req <> k -> str_in req (lower k) = false.

(* ================================================================== *)
(** * Properties *)

(** ** Lists *)

Lemma nth_map_lt {A B : Type} (f : A -> B) (l : list A) (i : nat) (d : B) (d' : A) :
  (i < length l)%nat -> nth i (map f l) d = f (nth i l d').
Proof.
  revert i; induction l as [|a l IH]; intros [|i] H; simpl in *; try lia; auto.
  apply IH; lia.
Qed.

Lemma nth_map_seq {A : Type} (f : nat -> A) (n i : nat) (d : A) :
  (i < n)%nat -> nth i (map f (seq 0 n)) d = f i.
Proof.
  intros H. rewrite (nth_map_lt f _ i d 0%nat) by (rewrite length_seq; exact H).
  rewrite seq_nth by exact H. reflexivity.
Qed.

Lemma length_map2 {A B C : Type} (f : A -> B -> C) (l1 : list A) (l2 : list B) :
  length (map2 f l1 l2) = Nat.min (length l1) (length l2).
Proof.
  revert l2; induction l1 as [|a l1 IH]; intros [|b l2]; simpl; auto.
Qed.

Lemma nth_map2 {A B C : Type} (f : A -> B -> C) (l1 : list A) (l2 : list B)
    (i : nat) (d : C) (d1 : A) (d2 : B) :
  (i < length l1)%nat -> (i < length l2)%nat ->
  nth i (map2 f l1 l2) d = f (nth i l1 d1) (nth i l2 d2).
Proof.
  revert l2 i; induction l1 as [|a l1 IH]; intros [|b l2] [|i] H1 H2;
    simpl in *; try lia; auto.
  apply IH; lia.
Qed.

Lemma nth_error_nth_iff {A : Type} (l : list A) (i : nat) (d a : A) :
  nth_error l i = Some a <-> ((i < length l)%nat /\ nth i l d = a).
Proof.
  revert i; induction l as [|b l IH]; intros [|i]; simpl; split;
    try (intros [H1 H2]); try intros H; try discriminate; try lia.
  - inversion H; split; [lia | reflexivity].
  - congruence.
  - apply IH in H. destruct H; split; [lia | assumption].
  - apply IH. split; [lia | assumption].
Qed.

Lemma Forall_skipn_keeps {A : Type} (P : A -> Prop) (n : nat) (l : list A) :
  Forall P l -> Forall P (skipn n l).
Proof.
  revert l; induction n as [|n IH]; intros l H; [exact H|].
  destruct H; simpl; [constructor | apply IH; assumption].
Qed.

Lemma Forall_firstn_keeps {A : Type} (P : A -> Prop) (n : nat) (l : list A) :
  Forall P l -> Forall P (firstn n l).
Proof.
  revert l; induction n as [|n IH]; intros l H; [constructor|].
  destruct H; simpl; constructor; auto.
Qed.

(** ** Results *)

Lemma numeric_inv (df : DataFrame) (key : string) (s : Series) :
  numeric df key = Ok s -> exists c, getitem df key = Ok c /\ floats c = Ok s.
Proof.
  unfold numeric. destruct (getitem df key) as [c|e]; simpl; intros H.
  - exists c; auto.
  - discriminate.
Qed.

Lemma floats_of_series (s : Series) : floats (of_series s) = Ok s.
Proof.
  unfold floats, of_series.
  induction s as [|x s IH]; simpl; [reflexivity | rewrite IH; reflexivity].
Qed.

(** ** Rolling windows *)

Lemma length_diff (s : Series) : length (diff s) = length s.
Proof.
  destruct s as [|x t]; [reflexivity|].
  unfold diff. cbn [length]. rewrite length_map2. cbn [length]. lia.
Qed.

Lemma length_rolling_mean (w : nat) (s : Series) :
  length (rolling_mean w s) = length s.
Proof. unfold rolling_mean, rolling. now rewrite !length_map, length_seq. Qed.

Lemma length_rolling_std (sqrt : Q -> Q) (w : nat) (s : Series) :
  length (rolling_std sqrt w s) = length s.
Proof. unfold rolling_std, rolling. now rewrite !length_map, length_seq. Qed.

Lemma rolling_mean_nth (w : nat) (s : Series) (i : nat) :
  (i < length s)%nat ->
  nth i (rolling_mean w s) NaN =
  if ((w =? 0) || (S i <? w))%nat then NaN
  else window_mean (firstn w (skipn (S i - w) s)).
Proof.
  intros H. unfold rolling_mean, rolling. rewrite map_map.
  rewrite nth_map_seq by exact H.
  destruct ((w =? 0) || (S i <? w))%nat; reflexivity.
Qed.

Lemma rolling_std_nth (sqrt : Q -> Q) (w : nat) (s : Series) (i : nat) :
  (i < length s)%nat ->
  nth i (rolling_std sqrt w s) NaN =
  if ((w =? 0) || (S i <? w))%nat then NaN
  else option_map sqrt (window_var (firstn w (skipn (S i - w) s))).
Proof.
  intros H. unfold rolling_std, rolling. rewrite map_map.
  rewrite nth_map_seq by exact H.
  destruct ((w =? 0) || (S i <? w))%nat; reflexivity.
Qed.

Lemma fsum_nonneg (l : list Q) :
  Forall (Qle 0) l -> exists t, fsum (map fl l) = Some t /\ 0 <= t.
Proof.
  induction 1 as [|x l Hx Hl [t [Ht Hpos]]]; simpl.
  - exists 0; split; [reflexivity | apply Qle_refl].
  - rewrite Ht. exists (x + t); split; [reflexivity | lra].
Qed.

Lemma of_nat_pos (n : nat) : (0 < n)%nat -> 0 < of_nat n.
Proof.
  intros H. unfold of_nat, Qlt; simpl. lia.
Qed.

Lemma Qeq_bool_pos (x : Q) : 0 < x -> Qeq_bool x 0 = false.
Proof.
  intros H. destruct (Qeq_bool x 0) eqn:E; [|reflexivity].
  apply Qeq_bool_eq in E. lra.
Qed.

Lemma window_mean_nonneg (l : list Q) :
  l <> [] -> Forall (Qle 0) l ->
  exists m, window_mean (map fl l) = Some m /\ 0 <= m.
Proof.
  intros Hne Hpos. unfold window_mean.
  destruct (fsum_nonneg l Hpos) as [t [Ht Ht0]]. rewrite Ht.
  rewrite length_map. simpl.
  assert (Hn : 0 < of_nat (length l)).
  { apply of_nat_pos. destruct l; [congruence | simpl; lia]. }
  rewrite (Qeq_bool_pos _ Hn).
  exists (t / of_nat (length l)); split; [reflexivity|].
  apply Qle_shift_div_l; [exact Hn | lra].
Qed.

Lemma rolling_mean_row (w : nat) (l : list Q) (i : nat) :
  Forall (Qle 0) l -> (i < length l)%nat -> (1 <= w <= S i)%nat ->
  exists m, nth i (rolling_mean w (map fl l)) NaN = Some m /\ 0 <= m.
Proof.
  intros Hpos Hi Hw.
  rewrite rolling_mean_nth by (rewrite length_map; exact Hi).
  replace ((w =? 0) || (S i <? w))%nat with false.
  2:{ symmetry. apply orb_false_iff. split.
      - apply Nat.eqb_neq; lia.
      - apply Nat.ltb_ge; lia. }
  rewrite skipn_map, firstn_map.
  apply window_mean_nonneg.
  - intros E. apply (f_equal (@length Q)) in E.
    rewrite length_firstn, length_skipn in E. cbn [length] in E. lia.
  - apply Forall_firstn_keeps, Forall_skipn_keeps, Hpos.
Qed.

Lemma rolling_mean_warmup (w : nat) (s : Series) (i : nat) :
  (i < length s)%nat -> (w = 0 \/ S i < w)%nat ->
  nth i (rolling_mean w s) NaN = None.
Proof.
  intros Hi Hw. rewrite rolling_mean_nth by exact Hi.
  replace ((w =? 0) || (S i <? w))%nat with true; [reflexivity|].
  symmetry. apply orb_true_iff. destruct Hw as [Hw|Hw].
  - left. apply Nat.eqb_eq; exact Hw.
  - right. apply Nat.ltb_lt; exact Hw.
Qed.

(** ** RSI *)

Section RSI.

Variable close : Series.
Variable w : nat.

Let delta := diff close.
Let gain := where_ (fun d => fgt d (fl 0)) (fl 0) delta.
Let loss := map fneg (where_ (fun d => flt d (fl 0)) (fl 0) delta).
Let avg_gain := rolling_mean w gain.
Let avg_loss := rolling_mean w loss.
Let rs := map2 fdiv avg_gain (replace (fl 0) (fl float_eps) avg_loss).
Let rsi := map (fun r => fsub (fl 100) (fdiv (fl 100) (fadd (fl 1) r))) rs.

Lemma calculate_rsi_unfold (df : DataFrame) :
  numeric df "close" = Ok close -> calculate_rsi df w = Ok rsi.
Proof.
  intros H. apply numeric_inv in H. destruct H as [c [Hc Hf]].
  unfold calculate_rsi. rewrite Hc. simpl. rewrite Hf. reflexivity.
Qed.

Lemma Qlt_bool_true (x y : Q) : Qlt_bool x y = true -> x < y.
Proof.
  unfold Qlt_bool. intros H. apply negb_true_iff in H.
  destruct (Qlt_le_dec x y) as [Hlt|Hle]; [exact Hlt|].
  apply Qle_bool_iff in Hle. congruence.
Qed.

Lemma Qlt_bool_false (x y : Q) : Qlt_bool x y = false -> y <= x.
Proof.
  unfold Qlt_bool. intros H. apply negb_false_iff in H.
  apply Qle_bool_iff. exact H.
Qed.

(** Every gain is a number, and not negative: a missing difference
    fails the test [delta > 0] and is replaced by 0. *)
Lemma gain_values (d : Series) :
  exists g, where_ (fun d => fgt d (fl 0)) (fl 0) d = map fl g /\ Forall (Qle 0) g.
Proof.
  unfold where_.
  induction d as [|x d [g [Hg Hpos]]]; cbn [map].
  - exists []; split; [reflexivity | constructor].
  - rewrite Hg. destruct x as [q|]; simpl.
    + destruct (Qlt_bool 0 q) eqn:E.
      * exists (q :: g); split; [reflexivity|].
        constructor; [apply Qlt_le_weak, Qlt_bool_true, E | exact Hpos].
      * exists (0 :: g); split; [reflexivity|].
        constructor; [apply Qle_refl | exact Hpos].
    + exists (0 :: g); split; [reflexivity|].
      constructor; [apply Qle_refl | exact Hpos].
Qed.

Lemma loss_values (d : Series) :
  exists l, map fneg (where_ (fun d => flt d (fl 0)) (fl 0) d) = map fl l
            /\ Forall (Qle 0) l.
Proof.
  unfold where_.
  induction d as [|x d [l [Hl Hpos]]]; cbn [map].
  - exists []; split; [reflexivity | constructor].
  - rewrite Hl. destruct x as [q|]; simpl.
    + destruct (Qlt_bool q 0) eqn:E.
      * exists (- q :: l); split; [reflexivity|].
        constructor; [apply Qlt_bool_true in E; lra | exact Hpos].
      * exists (- 0 :: l); split; [reflexivity|].
        constructor; [lra | exact Hpos].
    + exists (- 0 :: l); split; [reflexivity|].
      constructor; [lra | exact Hpos].
Qed.

Lemma length_gain : length gain = length close.
Proof. unfold gain, where_, delta. now rewrite length_map, length_diff. Qed.

Lemma length_loss : length loss = length close.
Proof. unfold loss, where_, delta. now rewrite !length_map, length_diff. Qed.

Lemma length_rsi : length rsi = length close.
Proof.
  unfold rsi, rs, replace, avg_gain, avg_loss.
  rewrite length_map, length_map2, length_map, !length_rolling_mean.
  rewrite length_gain, length_loss. apply Nat.min_id.
Qed.

Lemma rsi_nth (i : nat) :
  (i < length close)%nat ->
  nth i rsi NaN =
  fsub (fl 100)
       (fdiv (fl 100)
             (fadd (fl 1)
                   (fdiv (nth i avg_gain NaN)
                         (if feq (nth i avg_loss NaN) (fl 0) then fl float_eps
                          else nth i avg_loss NaN)))).
Proof.
  intros Hi. unfold rsi.
  assert (Hg : length avg_gain = length close)
    by (unfold avg_gain; rewrite length_rolling_mean; apply length_gain).
  assert (Hl : length avg_loss = length close)
    by (unfold avg_loss; rewrite length_rolling_mean; apply length_loss).
  rewrite (nth_map_lt _ _ i NaN NaN).
  2:{ unfold rs, replace. rewrite length_map2, length_map. lia. }
  unfold rs.
  rewrite (nth_map2 _ _ _ i NaN NaN NaN).
  2:{ lia. }
  2:{ unfold replace. rewrite length_map. lia. }
  unfold replace. rewrite (nth_map_lt _ _ i NaN NaN) by lia.
  reflexivity.
Qed.

Lemma rsi_formula (g d : Q) :
  0 <= g -> 0 < d ->
  fsub (Some 100) (fdiv (Some 100) (fadd (Some 1) (fdiv (Some g) (Some d))))
  = Some (100 - 100 / (1 + g / d)).
Proof.
  intros Hg Hd.
  assert (Hr : 0 <= g / d) by (apply Qle_shift_div_l; [exact Hd | lra]).
  unfold fdiv at 2. rewrite (Qeq_bool_pos d Hd).
  unfold fadd, fl_lift2, fdiv.
  rewrite (Qeq_bool_pos (1 + g / d)) by lra. reflexivity.
Qed.

(** The rows of the warm-up: fewer than [w] differences seen. *)
Lemma rsi_warmup (i : nat) :
  (i < length close)%nat -> (w = 0 \/ S i < w)%nat -> nth i rsi NaN = None.
Proof.
  intros Hi Hw. rewrite rsi_nth by exact Hi.
  unfold avg_gain. rewrite rolling_mean_warmup; [reflexivity | | exact Hw].
  rewrite length_gain; exact Hi.
Qed.

(** The rows after the warm-up: both averages are numbers, not negative,
    and the RSI is the quotient formula on them. *)
Lemma rsi_warm (i : nat) :
  (i < length close)%nat -> (1 <= w <= S i)%nat ->
  exists g l,
    nth i avg_gain NaN = Some g /\ nth i avg_loss NaN = Some l /\
    0 <= g /\ 0 <= l /\
    nth i rsi NaN =
    Some (100 - 100 / (1 + g / (if Qeq_bool l 0 then float_eps else l))).
Proof.
  intros Hi Hw. rewrite rsi_nth by exact Hi.
  destruct (gain_values delta) as [gq [Hgq Hgpos]].
  destruct (loss_values delta) as [lq [Hlq Hlpos]].
  fold gain in Hgq. fold loss in Hlq.
  assert (Hlg : length gq = length close).
  { rewrite <- length_gain, Hgq, length_map. reflexivity. }
  assert (Hll : length lq = length close).
  { rewrite <- length_loss, Hlq, length_map. reflexivity. }
  destruct (rolling_mean_row w gq i Hgpos) as [g [Hg Hg0]]; [lia | exact Hw |].
  destruct (rolling_mean_row w lq i Hlpos) as [l [Hl Hl0]]; [lia | exact Hw |].
  unfold avg_gain, avg_loss. rewrite Hgq, Hlq, Hg, Hl.
  exists g, l. repeat split; try assumption.
  unfold feq, fl. destruct (Qeq_bool l 0) eqn:E.
  - apply rsi_formula; [exact Hg0 | reflexivity].
  - apply rsi_formula; [exact Hg0 |]. apply Qeq_bool_neq in E. lra.
Qed.

End RSI.


Lemma numeric_close_frame (closes : list Q) :
  numeric (close_frame closes) "close" = Ok (map fl closes).
Proof.
  unfold numeric, close_frame, getitem; simpl.
  change (map (fun q => CNum (fl q)) closes) with (map (fun q => CNum (fl q)) closes).
  rewrite <- (map_map fl CNum). apply floats_of_series.
Qed.

(** C3, as stated, fails: with [window = 14] the row of index 13, one of
    the first 14 rows, already carries an RSI value. *)
Lemma calculate_rsi_row_13_present :
  exists rsi v,
    calculate_rsi (close_frame rising30) 14 = Ok rsi /\
    (length rising30 > 14)%nat /\
    nth_error rsi 13 = Some (Some v).
Proof.
  eexists; eexists. split; [vm_compute; reflexivity|].
  split; [vm_compute; lia | reflexivity].
Qed.

(** C3, amended: the RSI of [calculate_rsi] with parameter [window >= 1] has
    one value per row, missing for exactly the first [window - 1] rows and
    present from the row of index [window - 1] onward: the difference that
    is missing at row 0 counts as a gain and a loss of 0. *)
Theorem calculate_rsi_missing_rows (data : DataFrame) (close : Series) (window : nat) :
  numeric data "close" = Ok close ->
  (1 <= window)%nat ->
  exists rsi,
    calculate_rsi data window = Ok rsi /\
    length rsi = length close /\
    forall i, (i < length close)%nat ->
              (nth i rsi NaN = None <-> (S i < window)%nat).
Proof.
  intros Hclose Hw. eexists. split; [apply calculate_rsi_unfold; exact Hclose|].
  split; [apply length_rsi|].
  intros i Hi. split.
  - intros Hnone. destruct (Nat.lt_ge_cases (S i) window) as [Hlt|Hge]; [exact Hlt|].
    destruct (rsi_warm close window i Hi) as [g [l [_ [_ [_ [_ Hv]]]]]]; [lia|].
    rewrite Hv in Hnone. discriminate.
  - intros Hlt. apply rsi_warmup; [exact Hi | right; exact Hlt].
Qed.

Lemma calculate_rsi_missing_rows_witness :
  exists rsi,
    calculate_rsi (close_frame rising30) 14 = Ok rsi /\
    length rsi = length (map fl rising30) /\
    forall i, (i < length (map fl rising30))%nat ->
              (nth i rsi NaN = None <-> (S i < 14)%nat).
Proof.
  apply (calculate_rsi_missing_rows (close_frame rising30) (map fl rising30) 14).
  - apply numeric_close_frame.
  - lia.
Defined.




(** ** Bollinger bands *)

Lemma sqrt_floor_nonneg (x : Q) : 0 <= sqrt_floor x.
Proof.
  unfold sqrt_floor, Qle; simpl. rewrite Z.mul_1_r. apply Z.sqrt_nonneg.
Qed.

Section Bollinger.

Variable sqrt : Q -> Q.
Hypothesis sqrt_nonneg : forall x, 0 <= sqrt x.

Lemma rolling_std_nonneg (w : nat) (s : Series) (i : nat) (x : Q) :
  (i < length s)%nat -> nth i (rolling_std sqrt w s) NaN = Some x -> 0 <= x.
Proof.
  intros Hi. rewrite rolling_std_nth by exact Hi.
  destruct ((w =? 0) || (S i <? w))%nat; [discriminate|].
  destruct (window_var _) as [y|]; simpl; [|discriminate].
  intros E. inversion E. apply sqrt_nonneg.
Qed.

Lemma calculate_bollinger_bands_unfold (df : DataFrame) (close : Series)
    (w : nat) (k : Q) :
  numeric df "close" = Ok close ->
  calculate_bollinger_bands sqrt df w k =
  Ok (map2 fadd (rolling_mean w close)
            (map (fun s => fmul s (fl k)) (rolling_std sqrt w close)),
      rolling_mean w close,
      map2 fsub (rolling_mean w close)
            (map (fun s => fmul s (fl k)) (rolling_std sqrt w close))).
Proof.
  intros H. apply numeric_inv in H. destruct H as [c [Hc Hf]].
  unfold calculate_bollinger_bands. rewrite Hc. simpl. rewrite Hf. reflexivity.
Qed.

(** One row of the three bands: when the outer bands are present they are
    the middle band plus and minus a non-negative width. *)
Lemma band_row (close : Series) (w : nat) (k : Q) (i : nat) (f : Fl -> Fl -> Fl) (v : Q) :
  (f = fadd \/ f = fsub) ->
  nth_error (map2 f (rolling_mean w close)
               (map (fun s => fmul s (fl k)) (rolling_std sqrt w close))) i
  = Some (Some v) ->
  exists m s, nth_error (rolling_mean w close) i = Some (Some m) /\ 0 <= s /\
              Some v = f (Some m) (Some (s * k)).
Proof.
  intros Hf Hv.
  apply (nth_error_nth_iff _ _ NaN) in Hv. destruct Hv as [Hi Hv].
  rewrite length_map2, length_map, length_rolling_mean, length_rolling_std in Hi.
  rewrite (nth_map2 _ _ _ i NaN NaN NaN) in Hv
    by (rewrite ?length_map, ?length_rolling_mean, ?length_rolling_std; lia).
  rewrite (nth_map_lt _ _ i NaN NaN) in Hv by (rewrite length_rolling_std; lia).
  destruct (nth i (rolling_mean w close) NaN) as [m|] eqn:Em.
  2:{ destruct Hf; subst f; discriminate. }
  destruct (nth i (rolling_std sqrt w close) NaN) as [s|] eqn:Es.
  2:{ destruct Hf; subst f; discriminate. }
  exists m, s. split; [|split].
  - apply (nth_error_nth_iff _ _ NaN). rewrite length_rolling_mean. split; [lia | exact Em].
  - apply (rolling_std_nonneg w close i); [lia | exact Es].
  - symmetry. exact Hv.
Qed.

End Bollinger.

(** C7: at every row where the three Bollinger bands are present, the upper
    band is at least the middle band, which is at least the lower band, for
    every multiplier [num_std >= 0] (the default is 2).  The square root of
    the rolling standard deviation is any function with non-negative
    values. *)
Theorem bollinger_bands_ordered (sqrt : Q -> Q) (data : DataFrame) (close : Series)
    (window : nat) (num_std : Q) :
  (forall x, 0 <= sqrt x) ->
  numeric data "close" = Ok close ->
  0 <= num_std ->
  exists upper_band middle_band lower_band,
    calculate_bollinger_bands sqrt data window num_std
    = Ok (upper_band, middle_band, lower_band) /\
    forall i u m l,
      nth_error upper_band i = Some (Some u) ->
      nth_error middle_band i = Some (Some m) ->
      nth_error lower_band i = Some (Some l) ->
      l <= m /\ m <= u.
Proof.
  intros Hsqrt Hclose Hk.
  eexists; eexists; eexists.
  split; [apply calculate_bollinger_bands_unfold; exact Hclose|].
  intros i u m l Hu Hm Hl.
  apply (band_row sqrt Hsqrt) in Hu; [|left; reflexivity].
  apply (band_row sqrt Hsqrt) in Hl; [|right; reflexivity].
  destruct Hu as [m1 [s1 [Hm1 [Hs1 Eu]]]].
  destruct Hl as [m2 [s2 [Hm2 [Hs2 El]]]].
  rewrite Hm in Hm1, Hm2. inversion Hm1; inversion Hm2; subst m1 m2.
  simpl in Eu, El. inversion Eu; inversion El; subst u l.
  assert (0 <= s1 * num_std) by (apply Qmult_le_0_compat; assumption).
  assert (0 <= s2 * num_std) by (apply Qmult_le_0_compat; assumption).
  split; lra.
Qed.

Lemma bollinger_bands_ordered_witness :
  exists upper_band middle_band lower_band,
    calculate_bollinger_bands sqrt_floor (close_frame rising30) 20 2
    = Ok (upper_band, middle_band, lower_band) /\
    forall i u m l,
      nth_error upper_band i = Some (Some u) ->
      nth_error middle_band i = Some (Some m) ->
      nth_error lower_band i = Some (Some l) ->
      l <= m /\ m <= u.
Proof.
  apply (bollinger_bands_ordered sqrt_floor (close_frame rising30) (map fl rising30) 20 2).
  - exact sqrt_floor_nonneg.
  - apply numeric_close_frame.
  - discriminate.
Defined.

(** ** Peak finder *)

Lemma plateau_end_bounds (fuel : nat) (x : Series) (i i_max a : nat) :
  (a <= i_max)%nat ->
  (a <= plateau_end fuel x i i_max a <= i_max)%nat.
Proof.
  revert a; induction fuel as [|f IH]; intros a Ha; simpl; [lia|].
  destruct ((a <? i_max)%nat && feq (at_ x a) (at_ x i)) eqn:E; [|lia].
  apply andb_true_iff in E. destruct E as [E _]. apply Nat.ltb_lt in E.
  specialize (IH (S a)). lia.
Qed.

Lemma local_maxima_loop_lt (fuel : nat) (x : Series) (i i_max : nat) :
  Forall (fun j => (j < i_max)%nat) (local_maxima_loop fuel x i i_max).
Proof.
  revert i; induction fuel as [|f IH]; intros i; cbn [local_maxima_loop]; [constructor|].
  destruct (i <? i_max)%nat eqn:Ei; [|constructor].
  apply Nat.ltb_lt in Ei.
  destruct (flt (at_ x (i - 1)) (at_ x i)); [|apply IH].
  destruct (flt (at_ x (plateau_end (length x) x i i_max (i + 1))) (at_ x i));
    [|apply IH].
  constructor; [|apply IH].
  pose proof (plateau_end_bounds (length x) x i i_max (i + 1) ltac:(lia)) as Hb.
  apply Nat.Div0.div_lt_upper_bound. lia.
Qed.

Lemma local_maxima_1d_in_range (x : Series) :
  Forall (fun j => (j < length x)%nat) (local_maxima_1d x).
Proof.
  unfold local_maxima_1d.
  eapply Forall_impl; [|apply local_maxima_loop_lt].
  simpl. intros j Hj. lia.
Qed.

(** A rise and a fall need three samples. *)
Lemma local_maxima_1d_short (x : Series) :
  (length x < 3)%nat -> local_maxima_1d x = [].
Proof.
  intros H. unfold local_maxima_1d.
  destruct (length x) as [|n] eqn:E; [reflexivity|]. simpl.
  replace (1 <? n - 0)%nat with false; [reflexivity|].
  symmetry. apply Nat.ltb_ge. lia.
Qed.

Lemma mask_Forall {A : Type} (P : A -> Prop) (l : list A) (keep : list bool) :
  Forall P l -> Forall P (mask l keep).
Proof.
  intros H. revert keep. unfold mask.
  induction H as [|a l Ha Hl IH]; intros [|b keep]; simpl; try constructor.
  destruct b; simpl; [constructor; [exact Ha | apply IH] | apply IH].
Qed.

Lemma find_peaks_ok (x : Series) (distance : nat) (prominence : Q) :
  (1 <= distance)%nat ->
  exists idx, find_peaks x distance prominence = Ok idx /\
              Forall (fun j => (j < length x)%nat) idx.
Proof.
  intros H. unfold find_peaks.
  replace (distance <? 1)%nat with false by (symmetry; apply Nat.ltb_ge; exact H).
  eexists; split; [reflexivity|].
  apply mask_Forall, mask_Forall, local_maxima_1d_in_range.
Qed.

Lemma find_peaks_short (x : Series) (distance : nat) (prominence : Q) :
  (1 <= distance)%nat -> (length x < 3)%nat ->
  find_peaks x distance prominence = Ok [].
Proof.
  intros H Hx. unfold find_peaks.
  replace (distance <? 1)%nat with false by (symmetry; apply Nat.ltb_ge; exact H).
  rewrite (local_maxima_1d_short x Hx). reflexivity.
Qed.

Lemma take_ok (prices : Series) (idx : list nat) :
  Forall (fun j => (j < length prices)%nat) idx ->
  exists l, take prices idx = Ok l /\ Forall (fun v => In v prices) l.
Proof.
  unfold take. induction 1 as [|j idx Hj Hidx [l [Hl Hin]]]; simpl.
  - exists []; split; [reflexivity | constructor].
  - destruct (nth_error prices j) as [p|] eqn:E.
    + simpl. rewrite Hl. simpl. exists (p :: l); split; [reflexivity|].
      constructor; [eapply nth_error_In; exact E | exact Hin].
    + apply nth_error_None in E. lia.
Qed.

(** ** Level detector: sorting, truncation, removal of close levels *)

Lemma insert_sorted_Forall (P : Fl -> Prop) (a : Fl) (l : Series) :
  P a -> Forall P l -> Forall P (insert_sorted a l).
Proof.
  intros Ha. induction 1 as [|b l Hb Hl IH]; simpl.
  - constructor; [exact Ha | constructor].
  - destruct (flt b a); constructor; auto.
Qed.

Lemma sorted_Forall (P : Fl -> Prop) (l : Series) :
  Forall P l -> Forall P (sorted l).
Proof.
  unfold sorted. induction 1; simpl; [constructor|].
  apply insert_sorted_Forall; assumption.
Qed.

Lemma ascending_trans (a b c : Fl) : ascending a b -> ascending b c -> ascending a c.
Proof.
  unfold ascending. destruct a as [x|], b as [y|], c as [z|]; simpl; try discriminate.
  intros H1 H2. apply Qle_bool_iff in H1. apply Qle_bool_iff in H2.
  apply Qle_bool_iff. lra.
Qed.

Lemma flt_false_ascending (a b : Fl) :
  a <> None -> b <> None -> flt b a = false -> ascending a b.
Proof.
  unfold ascending. destruct a as [x|], b as [y|]; simpl; try congruence.
  unfold Qlt_bool. intros _ _ H. apply negb_false_iff in H. exact H.
Qed.

Lemma flt_true_ascending (a b : Fl) : flt b a = true -> ascending b a.
Proof.
  unfold ascending. destruct a as [x|], b as [y|]; simpl; try discriminate.
  unfold Qlt_bool. intros H. apply negb_true_iff in H.
  apply Qle_bool_iff. destruct (Qlt_le_dec y x) as [Hlt|Hle]; [lra|].
  apply Qle_bool_iff in Hle. congruence.
Qed.

Lemma insert_sorted_ascending (a : Fl) (l : Series) :
  a <> None -> Forall (fun v => v <> None) l ->
  StronglySorted ascending l -> StronglySorted ascending (insert_sorted a l).
Proof.
  intros Ha Hfin Hs. induction Hs as [|b l Hs IH Hb]; simpl.
  - constructor; constructor.
  - inversion Hfin as [|? ? Hbfin Hlfin]; subst.
    destruct (flt b a) eqn:E.
    + constructor; [apply IH; exact Hlfin|].
      apply insert_sorted_Forall; [apply flt_true_ascending; exact E | exact Hb].
    + assert (Hab : ascending a b) by (apply flt_false_ascending; assumption).
      constructor; [constructor; assumption|].
      constructor; [exact Hab|].
      eapply Forall_impl; [|exact Hb].
      intros c Hc. eapply ascending_trans; eassumption.
Qed.

Lemma sorted_ascending (l : Series) :
  Forall (fun v => v <> None) l -> StronglySorted ascending (sorted l).
Proof.
  unfold sorted. induction 1 as [|a l Ha Hl IH]; simpl; [constructor|].
  apply insert_sorted_ascending; [exact Ha | | exact IH].
  apply (sorted_Forall (fun v => v <> None)); exact Hl.
Qed.

Lemma StronglySorted_skipn {A : Type} (R : A -> A -> Prop) (n : nat) (l : list A) :
  StronglySorted R l -> StronglySorted R (skipn n l).
Proof.
  revert l; induction n as [|n IH]; intros l H; [exact H|].
  destruct H; simpl; [constructor | apply IH; assumption].
Qed.

Lemma length_last5 {A : Type} (l : list A) : (length (last5 l) <= 5)%nat.
Proof. unfold last5. rewrite length_skipn. lia. Qed.

(** The comprehension of [remove_close], one candidate at a time. *)
Lemma remove_close_step (p s : Fl) (t : Series) :
  map snd (filter (fun ps => far_apart (fst ps) (snd ps)) (combine (p :: s :: t) (s :: t)))
  = if far_apart p s
    then s :: map snd (filter (fun ps => far_apart (fst ps) (snd ps))
                              (combine (s :: t) t))
    else map snd (filter (fun ps => far_apart (fst ps) (snd ps)) (combine (s :: t) t)).
Proof.
  cbn [combine filter fst snd]. destruct (far_apart p s); reflexivity.
Qed.

Lemma kept_Forall (P : Fl -> Prop) (rest : Series) (p : Fl) :
  Forall P rest ->
  Forall P (map snd (filter (fun ps => far_apart (fst ps) (snd ps))
                            (combine (p :: rest) rest))).
Proof.
  intros H. revert p. induction H as [|s t Hs Ht IH]; intros p.
  - constructor.
  - rewrite remove_close_step. destruct (far_apart p s); [constructor|]; auto.
Qed.

Lemma kept_length (rest : Series) (p : Fl) :
  (length (map snd (filter (fun ps => far_apart (fst ps) (snd ps))
                           (combine (p :: rest) rest))) <= length rest)%nat.
Proof.
  revert p. induction rest as [|s t IH]; intros p; [simpl; lia|].
  rewrite remove_close_step. specialize (IH s).
  destruct (far_apart p s); simpl in *; lia.
Qed.

Lemma kept_ascending (rest : Series) (p : Fl) :
  StronglySorted ascending rest ->
  StronglySorted ascending
    (map snd (filter (fun ps => far_apart (fst ps) (snd ps)) (combine (p :: rest) rest))).
Proof.
  intros H. revert p. induction H as [|s t Ht IH Hs]; intros p.
  - constructor.
  - rewrite remove_close_step. destruct (far_apart p s); [|apply IH].
    constructor; [apply IH | apply kept_Forall; exact Hs].
Qed.

Lemma remove_close_length (l : Series) : (length (remove_close l) <= length l)%nat.
Proof.
  destruct l as [|p rest]; simpl; [lia|].
  pose proof (kept_length rest p). simpl in *. lia.
Qed.

Lemma remove_close_Forall (P : Fl -> Prop) (l : Series) :
  Forall P l -> Forall P (remove_close l).
Proof.
  intros H. destruct H as [|p rest Hp Hrest]; simpl; [constructor|].
  constructor; [exact Hp | apply kept_Forall; exact Hrest].
Qed.

Lemma remove_close_ascending (l : Series) :
  StronglySorted ascending l -> StronglySorted ascending (remove_close l).
Proof.
  intros H. destruct H as [|p rest Hrest Hp]; [constructor|].
  unfold remove_close. constructor.
  - apply kept_ascending; exact Hrest.
  - apply kept_Forall; exact Hp.
Qed.

(** Truncation and removal, as the two [if len(...) > 0] statements apply
    them to a candidate list. *)
Lemma post_process (levels : Series) :
  (let levels := if (0 <? length levels)%nat then last5 (sorted levels) else [] in
   if (0 <? length levels)%nat then remove_close levels else levels)
  = remove_close (last5 (sorted levels)).
Proof.
  destruct levels as [|a l]; [reflexivity|].
  cbn zeta. replace (0 <? length (a :: l))%nat with true by reflexivity.
  destruct (last5 (sorted (a :: l))); reflexivity.
Qed.

(** The level detector returns, for each side, the candidates found by the
    peak finder after sorting, truncation and removal of close levels. *)
Lemma find_support_resistance_unfold (data : DataFrame) (prices : Series)
    (window : nat) (prominence : Q) :
  numeric data "close" = Ok prices ->
  (1 <= window)%nat ->
  exists support_idx resistance_idx support_cand resistance_cand,
    find_peaks (map fneg prices) window prominence = Ok support_idx /\
    find_peaks prices window prominence = Ok resistance_idx /\
    Forall (fun v => In v prices) support_cand /\
    Forall (fun v => In v prices) resistance_cand /\
    (support_idx = [] -> support_cand = []) /\
    (resistance_idx = [] -> resistance_cand = []) /\
    find_support_resistance data window prominence
    = Ok (remove_close (last5 (sorted support_cand)),
          remove_close (last5 (sorted resistance_cand))).
Proof.
  intros Hclose Hw.
  apply numeric_inv in Hclose. destruct Hclose as [c [Hc Hf]].
  destruct (find_peaks_ok prices window prominence Hw) as [ridx [Hr Hrin]].
  destruct (find_peaks_ok (map fneg prices) window prominence Hw) as [sidx [Hs Hsin]].
  rewrite length_map in Hsin.
  destruct (take_ok prices ridx Hrin) as [rl [Hrl Hrlin]].
  destruct (take_ok prices sidx Hsin) as [sl [Hsl Hslin]].
  exists sidx, ridx, sl, rl.
  repeat (split; [assumption|]).
  split; [intros E; rewrite E in Hsl; inversion Hsl; reflexivity|].
  split; [intros E; rewrite E in Hrl; inversion Hrl; reflexivity|].
  unfold find_support_resistance.
  rewrite Hc. cbn [bind]. rewrite Hf. cbn [bind].
  rewrite Hr. cbn [bind]. rewrite Hrl. cbn [bind].
  rewrite Hs. cbn [bind]. rewrite Hsl. cbn [bind].
  cbn zeta.
  pose proof (post_process sl) as Ps. pose proof (post_process rl) as Pr.
  cbn zeta in Ps, Pr. rewrite Ps, Pr. reflexivity.
Qed.

(** C5, as stated, fails: three points, far fewer than [2 * 10 + 1], with a
    peak in the middle give one resistance level. *)
Lemma find_support_resistance_three_points :
  (length peak3 < 2 * 10 + 1)%nat /\
  find_support_resistance (close_frame peak3) 10 (1 # 2)
  = Ok ([], [Some 1903]).
Proof. split; [simpl; lia | vm_compute; reflexivity]. Qed.

(** C5, amended: [find_support_resistance] returns at most 5 support levels
    and at most 5 resistance levels; both sets are empty when the series
    has fewer than 3 points (a peak needs a neighbour on either side). *)
Theorem find_support_resistance_sizes (data : DataFrame) (prices : Series)
    (window : nat) (prominence : Q) :
  numeric data "close" = Ok prices ->
  (1 <= window)%nat ->
  exists support resistance,
    find_support_resistance data window prominence = Ok (support, resistance) /\
    (length support <= 5)%nat /\
    (length resistance <= 5)%nat /\
    ((length prices < 3)%nat -> support = [] /\ resistance = []).
Proof.
  intros Hclose Hw.
  destruct (find_support_resistance_unfold data prices window prominence Hclose Hw)
    as [sidx [ridx [sl [rl [Hs [Hr [_ [_ [Hse [Hre Hres]]]]]]]]]].
  eexists; eexists. split; [exact Hres|].
  split; [|split].
  - etransitivity; [apply remove_close_length | apply length_last5].
  - etransitivity; [apply remove_close_length | apply length_last5].
  - intros Hshort.
    rewrite find_peaks_short in Hs by (rewrite ?length_map; assumption).
    rewrite find_peaks_short in Hr by assumption.
    inversion Hs; inversion Hr; subst sidx ridx.
    rewrite Hse, Hre by reflexivity. split; reflexivity.
Qed.

Lemma find_support_resistance_sizes_witness :
  exists support resistance,
    find_support_resistance (close_frame peak3) 10 (1 # 2)
    = Ok (support, resistance) /\
    (length support <= 5)%nat /\
    (length resistance <= 5)%nat /\
    ((length (map fl peak3) < 3)%nat -> support = [] /\ resistance = []).
Proof.
  apply (find_support_resistance_sizes (close_frame peak3)
           (map fl peak3) 10 (1 # 2)).
  - apply numeric_close_frame.
  - lia.
Defined.

(** ** Spacing and order of the levels *)

Lemma Sorted_adjacent {A : Type} (R : A -> A -> Prop) (l : list A) :
  Sorted R l ->
  forall before a b after, l = (before ++ a :: b :: after)%list -> R a b.
Proof.
  induction 1 as [|x l Hl IH Hx]; intros before a b after E.
  - destruct before; discriminate.
  - destruct before as [|y before]; simpl in E; inversion E; subst.
    + inversion Hx; assumption.
    + eapply IH; reflexivity.
Qed.

Lemma far_apart_spaced (a p s : Fl) :
  positive a -> ascending a p -> ascending p s -> far_apart p s = true ->
  spaced a s.
Proof.
  intros [qa [Ea Hqa]] Hap Hps Hfar. subst a.
  unfold ascending in *.
  destruct p as [qp|]; [|discriminate]. destruct s as [qs|]; [|discriminate].
  simpl in Hap, Hps. apply Qle_bool_iff in Hap. apply Qle_bool_iff in Hps.
  unfold far_apart in Hfar.
  rewrite (Qeq_bool_pos qs) in Hfar by lra.
  apply Qlt_bool_true in Hfar.
  rewrite (Qabs_pos (qs - qp)) in Hfar by lra.
  assert (Hmul : (1 # 1000) * qs < qs - qp).
  { apply (Qmult_lt_r _ _ qs) in Hfar; [|lra].
    assert (E : (qs - qp) / qs * qs == qs - qp) by (field; lra).
    rewrite E in Hfar. exact Hfar. }
  exists qa, qs. split; [reflexivity|]. split; [reflexivity|].
  rewrite (Qabs_pos (qs - qa)) by lra.
  apply Qlt_shift_div_l; [exact Hqa | lra].
Qed.

Lemma kept_spaced (rest : Series) (a p : Fl) :
  positive a -> Forall positive rest -> ascending a p ->
  StronglySorted ascending (p :: rest) ->
  Sorted spaced
    (a :: map snd (filter (fun ps => far_apart (fst ps) (snd ps))
                          (combine (p :: rest) rest))).
Proof.
  revert a p. induction rest as [|s t IH]; intros a p Ha Hpos Hap Hs.
  - constructor; constructor.
  - rewrite remove_close_step.
    inversion Hpos as [|? ? Hspos Htpos]; subst.
    apply StronglySorted_inv in Hs. destruct Hs as [Hst Hp].
    inversion Hp as [|? ? Hps Hpt]; subst.
    destruct (far_apart p s) eqn:E.
    + constructor.
      * apply IH; try assumption.
        destruct Hspos as [q [Eq _]]. subst s. unfold ascending; simpl.
        apply Qle_bool_iff, Qle_refl.
      * constructor. eapply far_apart_spaced; eassumption.
    + apply IH; try assumption.
      eapply ascending_trans; eassumption.
Qed.

Lemma remove_close_spaced (l : Series) :
  Forall positive l -> StronglySorted ascending l -> Sorted spaced (remove_close l).
Proof.
  intros Hpos Hs. destruct l as [|p rest]; [constructor|].
  unfold remove_close. inversion Hpos as [|? ? Hp Hrest]; subst.
  apply kept_spaced; try assumption.
  destruct Hp as [q [Eq _]]. subst p. unfold ascending; simpl.
  apply Qle_bool_iff, Qle_refl.
Qed.

Lemma positive_finite (a : Fl) : positive a -> a <> None.
Proof. intros [q [E _]]; congruence. Qed.

Lemma Forall_member {A : Type} (P : A -> Prop) (l cand : list A) :
  Forall P l -> Forall (fun v => In v l) cand -> Forall P cand.
Proof.
  intros Hl Hc. rewrite Forall_forall in *. auto.
Qed.

(** Candidates drawn from finite prices come out of the sort and of the
    truncation in ascending order. *)
Lemma last5_sorted_ascending (cand : Series) :
  Forall (fun v => v <> None) cand ->
  StronglySorted ascending (last5 (sorted cand)).
Proof.
  intros H. unfold last5. apply StronglySorted_skipn, sorted_ascending, H.
Qed.

(** C6: for positive prices, any two levels kept one after the other in a
    returned level set, [a] then [b], satisfy [|b - a| / a > 0.001]. *)
Theorem find_support_resistance_spacing (data : DataFrame) (prices : Series)
    (window : nat) (prominence : Q) :
  numeric data "close" = Ok prices ->
  Forall positive prices ->
  (1 <= window)%nat ->
  exists support resistance,
    find_support_resistance data window prominence = Ok (support, resistance) /\
    forall levels before a b after,
      levels = support \/ levels = resistance ->
      levels = (before ++ a :: b :: after)%list ->
      exists qa qb,
        a = Some qa /\ b = Some qb /\ (1 # 1000) < Qabs (qb - qa) / qa.
Proof.
  intros Hclose Hpos Hw.
  destruct (find_support_resistance_unfold data prices window prominence Hclose Hw)
    as [sidx [ridx [sl [rl [_ [_ [Hsl [Hrl [_ [_ Hres]]]]]]]]]].
  eexists; eexists. split; [exact Hres|].
  assert (Hcand : forall cand, Forall (fun v => In v prices) cand ->
                               Sorted spaced (remove_close (last5 (sorted cand)))).
  { intros cand Hin.
    assert (Hcpos : Forall positive cand) by (eapply Forall_member; eassumption).
    apply remove_close_spaced.
    - unfold last5. apply Forall_skipn_keeps, sorted_Forall, Hcpos.
    - apply last5_sorted_ascending.
      eapply Forall_impl; [|exact Hcpos]. apply positive_finite. }
  intros levels before a b after [E|E] Hsplit; subst levels.
  - exact (Sorted_adjacent spaced _ (Hcand sl Hsl) before a b after Hsplit).
  - exact (Sorted_adjacent spaced _ (Hcand rl Hrl) before a b after Hsplit).
Qed.

(** C10: for finite prices, the support levels and the resistance levels
    are each returned in ascending order. *)
Theorem find_support_resistance_ascending (data : DataFrame) (prices : Series)
    (window : nat) (prominence : Q) :
  numeric data "close" = Ok prices ->
  Forall (fun v => v <> None) prices ->
  (1 <= window)%nat ->
  exists support resistance,
    find_support_resistance data window prominence = Ok (support, resistance) /\
    StronglySorted (fun a b => fle a b = true) support /\
    StronglySorted (fun a b => fle a b = true) resistance.
Proof.
  intros Hclose Hfin Hw.
  destruct (find_support_resistance_unfold data prices window prominence Hclose Hw)
    as [sidx [ridx [sl [rl [_ [_ [Hsl [Hrl [_ [_ Hres]]]]]]]]]].
  eexists; eexists. split; [exact Hres|].
  split; apply remove_close_ascending, last5_sorted_ascending;
    eapply Forall_member; eassumption.
Qed.

Example find_support_resistance_zigzag :
  find_support_resistance (close_frame zigzag21) 3 (1 # 2)
  = Ok ([Some 1900; Some 1904], [Some 1903; Some 1907; Some 1910]).
Proof. vm_compute. reflexivity. Qed.

Lemma Forall_positive_fl (l : list Q) :
  Forall (fun q => 0 < q) l -> Forall positive (map fl l).
Proof.
  induction 1 as [|q l Hq Hl IH]; simpl; constructor; [|exact IH].
  exists q; split; [reflexivity | exact Hq].
Qed.

Lemma zigzag21_positive : Forall (fun q => 0 < q) zigzag21.
Proof. unfold zigzag21. repeat (apply Forall_cons; [reflexivity|]). apply Forall_nil. Qed.

Lemma find_support_resistance_spacing_witness :
  exists support resistance,
    find_support_resistance (close_frame zigzag21) 3 (1 # 2) = Ok (support, resistance) /\
    forall levels before a b after,
      levels = support \/ levels = resistance ->
      levels = (before ++ a :: b :: after)%list ->
      exists qa qb,
        a = Some qa /\ b = Some qb /\ (1 # 1000) < Qabs (qb - qa) / qa.
Proof.
  apply (find_support_resistance_spacing (close_frame zigzag21) (map fl zigzag21) 3 (1 # 2)).
  - apply numeric_close_frame.
  - apply Forall_positive_fl, zigzag21_positive.
  - lia.
Defined.

Lemma find_support_resistance_ascending_witness :
  exists support resistance,
    find_support_resistance (close_frame zigzag21) 3 (1 # 2) = Ok (support, resistance) /\
    StronglySorted (fun a b => fle a b = true) support /\
    StronglySorted (fun a b => fle a b = true) resistance.
Proof.
  apply (find_support_resistance_ascending (close_frame zigzag21) (map fl zigzag21)
           3 (1 # 2)).
  - apply numeric_close_frame.
  - eapply Forall_impl; [apply positive_finite|].
    apply Forall_positive_fl, zigzag21_positive.
  - lia.
Defined.

(** ** Bundle assembler and request builder on an empty table *)

Lemma getitem_setitem_other (df : DataFrame) (key other : string) (c : column) :
  key <> other -> getitem (setitem df key c) other = getitem df other.
Proof.
  intros Hne. unfold getitem, setitem. cbn [df_columns].
  replace (filter (fun kc => String.eqb (fst kc) other)
             (if mem key (columns df)
              then map (fun kc => if String.eqb (fst kc) key then (key, c) else kc)
                       (df_columns df)
              else (df_columns df ++ [(key, c)])%list))
    with (filter (fun kc => String.eqb (fst kc) other) (df_columns df));
    [reflexivity|].
  assert (Hko : String.eqb key other = false) by (apply String.eqb_neq; exact Hne).
  destruct (mem key (columns df)).
  - induction (df_columns df) as [|[k c0] t IH]; [reflexivity|].
    cbn [map filter fst]. destruct (String.eqb k key) eqn:Ek.
    + apply String.eqb_eq in Ek. subst k. cbn [fst]. rewrite Hko. exact IH.
    + cbn [fst]. destruct (String.eqb k other); [f_equal|]; exact IH.
  - rewrite filter_app. cbn [filter fst]. rewrite Hko. symmetry. apply app_nil_r.
Qed.

Lemma numeric_setitem_other (df : DataFrame) (key other : string) (c : column) :
  key <> other -> numeric (setitem df key c) other = numeric df other.
Proof.
  intros Hne. unfold numeric. rewrite getitem_setitem_other by exact Hne. reflexivity.
Qed.

Lemma empty_setitem (df : DataFrame) (key : string) (c : column) :
  ix_values (df_index df) = [] -> empty (setitem df key c) = true.
Proof. intros H. unfold empty, setitem. cbn [df_index]. rewrite H. reflexivity. Qed.

Lemma find_support_resistance_short (df : DataFrame) (prices : Series)
    (window : nat) (prominence : Q) :
  numeric df "close" = Ok prices ->
  (1 <= window)%nat -> (length prices < 3)%nat ->
  find_support_resistance df window prominence = Ok ([], []).
Proof.
  intros Hclose Hw Hshort.
  destruct (find_support_resistance_unfold df prices window prominence Hclose Hw)
    as [sidx [ridx [sl [rl [Hs [Hr [_ [_ [Hse [Hre Hres]]]]]]]]]].
  rewrite find_peaks_short in Hs by (rewrite ?length_map; assumption).
  rewrite find_peaks_short in Hr by assumption.
  inversion Hs; inversion Hr; subst sidx ridx.
  rewrite Hse, Hre in Hres by reflexivity. exact Hres.
Qed.

Lemma calculate_macd_empty (df : DataFrame) (fast slow signal : nat) :
  numeric df "close" = Ok [] ->
  (1 <= fast)%nat -> (1 <= slow)%nat -> (1 <= signal)%nat ->
  calculate_macd df fast slow signal = Ok ([], [], []).
Proof.
  intros H Hf Hs Hg. apply numeric_inv in H. destruct H as [c [Hc Hfl]].
  unfold calculate_macd, ewm_mean. rewrite Hc. cbn [bind]. rewrite Hfl. cbn [bind].
  replace (fast <? 1)%nat with false by (symmetry; apply Nat.ltb_ge; exact Hf).
  replace (slow <? 1)%nat with false by (symmetry; apply Nat.ltb_ge; exact Hs).
  replace (signal <? 1)%nat with false by (symmetry; apply Nat.ltb_ge; exact Hg).
  reflexivity.
Qed.

(** C8: on a table without rows, [calculate_all_indicators] returns a
    bundle whose table is empty, with no support level, no resistance level
    and no last price; and [generate_trade_signal] on an empty table
    returns the marker [{"error": "Insufficient data ..."}] without sending
    any request to the text-generation service. *)
Theorem empty_table_bundle_and_signal
    (sqrt : Q -> Q)
    (chat_create : string -> result string)
    (json_loads : string -> result json)
    (render : MarketSummary -> string -> string -> string -> string)
    (table : DataFrame) (analysis_data : option Bundle) :
  ix_values (df_index table) = [] ->
  numeric table "close" = Ok [] ->
  (exists bundle,
      calculate_all_indicators sqrt table = Ok bundle /\
      empty (data bundle) = true /\
      support_levels bundle = [] /\
      resistance_levels bundle = [] /\
      last_price bundle = None) /\
  generate_trade_signal chat_create json_loads render table analysis_data
  = (JObj [("error", JStr "Insufficient data to generate trade signal")], []).
Proof.
  intros Hrows Hclose. split.
  - unfold calculate_all_indicators.
    rewrite (calculate_rsi_unfold [] 14 table Hclose). cbn [bind].
    rewrite (calculate_macd_empty _ 12 26 9);
      [|rewrite numeric_setitem_other by discriminate; exact Hclose | lia | lia | lia].
    cbn [bind].
    rewrite (calculate_bollinger_bands_unfold sqrt _ [] 20 2);
      [|rewrite !numeric_setitem_other by discriminate; exact Hclose].
    cbn [bind].
    rewrite (find_support_resistance_short _ [] 10 (1 # 2));
      [|rewrite !numeric_setitem_other by discriminate; exact Hclose | lia | simpl; lia].
    cbn [bind].
    rewrite empty_setitem by (cbn [setitem df_index]; exact Hrows).
    cbn [negb bind].
    eexists. split; [reflexivity|]. cbn [data support_levels resistance_levels last_price].
    split; [|repeat split].
    apply empty_setitem. cbn [setitem df_index]. exact Hrows.
  - unfold generate_trade_signal.
    assert (He : empty table = true) by (unfold empty; rewrite Hrows; reflexivity).
    destruct analysis_data; [rewrite He|]; reflexivity.
Qed.

Lemma empty_table_bundle_and_signal_witness :
  (exists bundle,
      calculate_all_indicators sqrt_floor empty_frame = Ok bundle /\
      empty (data bundle) = true /\
      support_levels bundle = [] /\
      resistance_levels bundle = [] /\
      last_price bundle = None) /\
  generate_trade_signal chat_down json_loads_none render_plain empty_frame None
  = (JObj [("error", JStr "Insufficient data to generate trade signal")], []).
Proof.
  apply (empty_table_bundle_and_signal sqrt_floor chat_down json_loads_none render_plain
           empty_frame None); reflexivity.
Defined.

(** ** Request builder *)

(** C2, as stated, fails for missing prerequisite data: on an empty market
    table the reply is the [error] marker, which carries no [signal]. *)
Lemma generate_trade_signal_missing_data_reply :
  empty empty_frame = true /\
  fst (generate_trade_signal chat_down json_loads_none render_plain
         empty_frame (Some tiny_analysis))
  = JObj [("error", JStr "Insufficient data to generate trade signal")] /\
  get (fst (generate_trade_signal chat_down json_loads_none render_plain
              empty_frame (Some tiny_analysis))) "signal"
  <> Some (JStr "ERROR").
Proof. repeat split. vm_compute. discriminate. Qed.

(** C2, amended: [generate_trade_signal] always returns a reply.  When the
    preparation of the request, the request itself (network error) or the
    parsing of the answer (malformed or non-JSON reply) fails, the reply has
    [signal = "ERROR"], the three prices 0.0, [confidence = "LOW"] and the
    failure message in [rationale].  When the market data is empty or the
    analysis data is absent, the reply is instead the marker
    [{"error": "Insufficient data to generate trade signal"}], and no
    request is sent. *)
Theorem generate_trade_signal_failures
    (chat_create : string -> result string)
    (json_loads : string -> result json)
    (render : MarketSummary -> string -> string -> string -> string)
    (market_data : DataFrame) (analysis_data : option Bundle) :
  (forall analysis e,
      analysis_data = Some analysis ->
      empty market_data = false ->
      (build_prompt render market_data analysis = Raise e \/
       exists prompt,
         build_prompt render market_data analysis = Ok prompt /\
         (chat_create prompt = Raise e \/
          exists content,
            chat_create prompt = Ok content /\ json_loads content = Raise e)) ->
      exists reply calls,
        generate_trade_signal chat_create json_loads render market_data analysis_data
        = (reply, calls) /\
        get reply "signal" = Some (JStr "ERROR") /\
        get reply "entry_price" = Some (JNum 0) /\
        get reply "stop_loss" = Some (JNum 0) /\
        get reply "take_profit" = Some (JNum 0) /\
        get reply "confidence" = Some (JStr "LOW") /\
        get reply "rationale"
        = Some (JStr ("Failed to generate trade signal: " ++ exn_message e))) /\
  (analysis_data = None \/ empty market_data = true ->
   generate_trade_signal chat_create json_loads render market_data analysis_data
   = (JObj [("error", JStr "Insufficient data to generate trade signal")], [])).
Proof.
  split.
  - intros analysis e Ha He Hfail. subst analysis_data.
    exists (error_reply e).
    unfold generate_trade_signal. rewrite He.
    destruct Hfail as [Hb | [prompt [Hb [Hc | [content [Hc Hj]]]]]]; rewrite Hb.
    + exists []. repeat split.
    + exists [prompt]. rewrite Hc. repeat split.
    + exists [prompt]. rewrite Hc. cbn [bind]. rewrite Hj. repeat split.
  - intros [Hnone | Hempty]; unfold generate_trade_signal.
    + subst analysis_data. reflexivity.
    + destruct analysis_data; [rewrite Hempty|]; reflexivity.
Qed.

Lemma generate_trade_signal_failures_witness :
  exists reply calls,
    generate_trade_signal chat_down json_loads_none render_plain
      tiny_market (Some tiny_analysis)
    = (reply, calls) /\
    get reply "signal" = Some (JStr "ERROR") /\
    get reply "entry_price" = Some (JNum 0) /\
    get reply "stop_loss" = Some (JNum 0) /\
    get reply "take_profit" = Some (JNum 0) /\
    get reply "confidence" = Some (JStr "LOW") /\
    get reply "rationale"
    = Some (JStr ("Failed to generate trade signal: "
                  ++ exn_message (ServiceError "Connection error."))).
Proof.
  apply (proj1 (generate_trade_signal_failures chat_down json_loads_none render_plain
                  tiny_market (Some tiny_analysis))
               tiny_analysis (ServiceError "Connection error.")).
  - reflexivity.
  - reflexivity.
  - right. eexists. split; [vm_compute; reflexivity|]. left. reflexivity.
Defined.

(** ** Normalizer *)

Lemma mem_In (s : string) (l : list string) : mem s l = true <-> In s l.
Proof.
  unfold mem. rewrite existsb_exists. split.
  - intros [x [Hx E]]. apply String.eqb_eq in E. subst x. exact Hx.
  - intros H. exists s. split; [exact H | apply String.eqb_refl].
Qed.

Lemma prefix_refl (s : string) : String.prefix s s = true.
Proof.
  induction s as [|a s IH]; simpl; [reflexivity|].
  destruct (ascii_dec a a); [exact IH | contradiction].
Qed.

Lemma str_in_refl (s : string) : str_in s s = true.
Proof. destruct s; [reflexivity|]. cbn [str_in]. rewrite prefix_refl. reflexivity. Qed.

Lemma columns_rename (df : DataFrame) (old new : string) :
  columns (rename df old new)
  = map (fun k => if String.eqb k old then new else k) (columns df).
Proof.
  unfold columns, rename. cbn [df_columns]. rewrite !map_map.
  apply map_ext. intros [k c]. cbn [fst snd]. destruct (String.eqb k old); reflexivity.
Qed.

Lemma In_remove_first_other (x y : string) (l : list string) :
  In x l -> x <> y -> In x (remove_first y l).
Proof.
  intros H Hne. induction l as [|z l IH]; simpl in *; [contradiction|].
  destruct (String.eqb z y) eqn:E.
  - apply String.eqb_eq in E. subst z. destruct H as [H|H]; [congruence | exact H].
  - destruct H as [H|H]; [left; exact H | right; apply IH; exact H].
Qed.

(** The table handed to the timestamp resolution has a fresh range index. *)
Lemma prepare_index (raw : RawFrame) (df : DataFrame) :
  prepare raw = Ok df -> ix_datetime (df_index df) = false.
Proof.
  unfold prepare. destruct (raw_empty raw); [discriminate|].
  destruct (flatten_header (raw_header raw)) as [labels|e]; [|discriminate].
  cbn [bind]. unfold reset_index.
  destruct (mem _ _); [discriminate|]. cbn [bind].
  intros H. inversion H. reflexivity.
Qed.

(** Without a label that contains a time word, and with the index reset,
    timestamp resolution fails. *)
Lemma resolve_date_no_time_column (to_datetime : column -> result column)
    (df : DataFrame) :
  ix_datetime (df_index df) = false ->
  find_time_column df = None ->
  resolve_date to_datetime df
  = Raise (ValueError "Could not identify a datetime column in the data").
Proof.
  intros Hix Hfind. unfold resolve_date.
  assert (Hno : forall s, existsb (fun w => str_in w (lower s)) time_words = true ->
                          mem s (columns df) = false).
  { intros s Hs. destruct (mem s (columns df)) eqn:E; [|reflexivity].
    apply mem_In in E. unfold find_time_column in Hfind.
    pose proof (find_none _ _ Hfind s E) as Hf. cbv beta in Hf. congruence. }
  rewrite (Hno "date") by reflexivity.
  rewrite (Hno "datetime") by reflexivity.
  rewrite Hfind, Hix. reflexivity.
Qed.

Section UnresolvableColumn.

Variable req : string.
Hypothesis req_required : In req required_columns.

(** No label of the table contains the required name. *)
Let clean (cols : list string) : Prop :=
  forall col, In col cols -> str_in req (lower col) = false.

Lemma required_self : str_in req (lower req) = true.
Proof.
  pose proof req_required as H. unfold required_columns in H. simpl in H.
  repeat (destruct H as [H|H]; [subst req; reflexivity|]). contradiction.
Qed.

Lemma required_disjoint (other : string) :
  In other required_columns -> other <> req -> str_in req (lower other) = false.
Proof.
  pose proof req_required as H. unfold required_columns in *. simpl in H.
  intros Ho Hne. simpl in Ho.
  repeat (destruct H as [H|H];
          [subst req;
           repeat (destruct Ho as [Ho|Ho];
                   [subst other; first [reflexivity | congruence]|]);
           contradiction|]).
  contradiction.
Qed.

Lemma clean_not_member (cols : list string) : clean cols -> mem req cols = false.
Proof.
  intros Hc. destruct (mem req cols) eqn:E; [|reflexivity].
  apply mem_In in E. apply Hc in E. rewrite required_self in E. discriminate.
Qed.

Lemma clean_rename (df : DataFrame) (old new : string) :
  clean (columns df) -> str_in req (lower new) = false ->
  clean (columns (rename df old new)).
Proof.
  intros Hc Hnew col Hin. rewrite columns_rename in Hin.
  apply in_map_iff in Hin. destruct Hin as [k [Ek Hk]].
  destruct (String.eqb k old); subst col; [exact Hnew | apply Hc; exact Hk].
Qed.

Lemma case_insensitive_step_clean (actual : list string) (reqs : list string)
    (df : DataFrame) :
  clean actual ->
  (forall r, In r reqs -> In r required_columns) ->
  clean (columns df) ->
  clean (columns
           (fold_left
              (fun df req_col =>
                 if negb (mem req_col actual) then
                   match find (fun col => String.eqb req_col (lower col)) actual with
                   | Some col => rename df col req_col
                   | None => df
                   end
                 else df)
              reqs df)).
Proof.
  intros Hact. revert df. induction reqs as [|r reqs IH]; intros df Hreqs Hc; [exact Hc|].
  cbn [fold_left]. apply IH; [intros r' Hr'; apply Hreqs; right; exact Hr'|].
  destruct (negb (mem r actual)); [|exact Hc].
  destruct (find (fun col => String.eqb r (lower col)) actual) as [col|] eqn:Ef;
    [|exact Hc].
  apply find_some in Ef. destruct Ef as [Hin E]. apply String.eqb_eq in E.
  apply clean_rename; [exact Hc|].
  destruct (String.eqb r req) eqn:Er.
  - apply String.eqb_eq in Er. rewrite Er in E.
    pose proof (Hact col Hin) as Hcol. rewrite <- E in Hcol.
    rewrite str_in_refl in Hcol. discriminate.
  - apply required_disjoint; [apply Hreqs; left; reflexivity|].
    apply String.eqb_neq; exact Er.
Qed.

Lemma match_case_insensitive_clean (df : DataFrame) :
  clean (columns df) -> clean (columns (match_case_insensitive df)).
Proof.
  intros Hc. unfold match_case_insensitive.
  apply case_insensitive_step_clean; auto.
Qed.

Lemma substring_step_clean (todo : list string) (df : DataFrame) (missing : list string) :
  (forall r, In r todo -> In r required_columns) ->
  clean (columns df) -> In req missing ->
  clean (columns (fst (fold_left
     (fun st req_col =>
        let '(df, missing) := st in
        match filter (fun col => str_in req_col (lower col)) (columns df) with
        | matching_col :: _ => (rename df matching_col req_col, remove_first req_col missing)
        | [] => (df, missing)
        end) todo (df, missing)))) /\
  In req (snd (fold_left
     (fun st req_col =>
        let '(df, missing) := st in
        match filter (fun col => str_in req_col (lower col)) (columns df) with
        | matching_col :: _ => (rename df matching_col req_col, remove_first req_col missing)
        | [] => (df, missing)
        end) todo (df, missing))).
Proof.
  revert df missing. induction todo as [|r todo IH]; intros df missing Htodo Hc Hin.
  - split; assumption.
  - cbn [fold_left].
    destruct (filter (fun col => str_in r (lower col)) (columns df)) as [|m ms] eqn:Ef.
    + apply IH; [intros r' Hr'; apply Htodo; right; exact Hr' | exact Hc | exact Hin].
    + assert (Hne : r <> req).
      { intros E. subst r.
        assert (Hm : In m (filter (fun col => str_in req (lower col)) (columns df)))
          by (rewrite Ef; left; reflexivity).
        apply filter_In in Hm. destruct Hm as [Hm1 Hm2].
        rewrite (Hc m Hm1) in Hm2. discriminate. }
      apply IH; [intros r' Hr'; apply Htodo; right; exact Hr' | |].
      * apply clean_rename; [exact Hc|].
        apply required_disjoint; [apply Htodo; left; reflexivity | exact Hne].
      * apply In_remove_first_other; [exact Hin | congruence].
Qed.

(** A required column that no label contains stays unresolved through the
    three matching passes and the adjusted-close fallback. *)
Lemma resolve_columns_unresolvable (df : DataFrame) :
  (forall col, In col (columns df) -> str_in req (lower col) = false) ->
  exists missing, resolve_columns df = Raise (ValueError (missing_message missing)).
Proof.
  intros Hc. unfold resolve_columns.
  pose proof (match_case_insensitive_clean df Hc) as Hc1.
  set (df1 := match_case_insensitive df) in *.
  assert (Hin : In req (filter (fun c => negb (mem c (columns df1))) required_columns)).
  { apply filter_In. split; [exact req_required|].
    rewrite (clean_not_member _ Hc1). reflexivity. }
  destruct (filter (fun c => negb (mem c (columns df1))) required_columns)
    as [|m0 ms0] eqn:Em; [contradiction|].
  unfold match_substring.
  assert (Htodo : forall r, In r (m0 :: ms0) -> In r required_columns).
  { intros r Hr. rewrite <- Em in Hr. apply filter_In in Hr. tauto. }
  destruct (substring_step_clean (m0 :: ms0) df1 (m0 :: ms0) Htodo Hc1 Hin) as [Hc2 Hin2].
  destruct (fold_left _ (m0 :: ms0) (df1, m0 :: ms0)) as [df2 missing2].
  cbn [fst snd] in Hc2, Hin2.
  destruct missing2 as [|m2 ms2]; [contradiction|].
  destruct (mem "close" (m2 :: ms2) && mem "adj_close" (columns df2)) eqn:Ea.
  - apply andb_true_iff in Ea. destruct Ea as [_ Ea]. apply mem_In in Ea.
    assert (Hne : req <> "close").
    { intros E. pose proof (Hc2 _ Ea) as H. rewrite E in H. discriminate. }
    pose proof (In_remove_first_other req "close" (m2 :: ms2) Hin2 Hne) as Hin3.
    destruct (remove_first "close" (m2 :: ms2)) as [|m3 ms3]; [contradiction|].
    eexists. reflexivity.
  - eexists. reflexivity.
Qed.

End UnresolvableColumn.

(** C1: [fetch_xauusd_data] returns a table on every input, never an
    exception.  Whenever the download or the normalization fails, and in
    particular when no label is recognized as a timestamp or when a
    required OHLCV column is contained in no label, the table returned is
    the empty one with the columns date, open, high, low, close, volume. *)
Theorem fetch_xauusd_data_empty_on_failure
    (download : string -> string -> string -> result RawFrame)
    (to_datetime : column -> result column)
    (period interval : string) :
  (forall e,
      download "GC=F" (valid_period period) interval = Raise e ->
      fetch_xauusd_data download to_datetime period interval = empty_frame) /\
  (forall raw e,
      download "GC=F" (valid_period period) interval = Ok raw ->
      normalize to_datetime raw = Raise e ->
      fetch_xauusd_data download to_datetime period interval = empty_frame) /\
  (forall raw df,
      download "GC=F" (valid_period period) interval = Ok raw ->
      prepare raw = Ok df ->
      find_time_column df = None ->
      fetch_xauusd_data download to_datetime period interval = empty_frame) /\
  (forall raw df dated req,
      download "GC=F" (valid_period period) interval = Ok raw ->
      prepare raw = Ok df ->
      resolve_date to_datetime df = Ok dated ->
      In req required_columns ->
      (forall col, In col (columns dated) -> str_in req (lower col) = false) ->
      fetch_xauusd_data download to_datetime period interval = empty_frame) /\
  columns empty_frame = ["date"; "open"; "high"; "low"; "close"; "volume"] /\
  empty empty_frame = true.
Proof.
  unfold fetch_xauusd_data. repeat split.
  - intros e He. rewrite He. reflexivity.
  - intros raw e Hd Hn. rewrite Hd. cbn [bind]. rewrite Hn. reflexivity.
  - intros raw df Hd Hp Hfind. rewrite Hd. cbn [bind]. unfold normalize.
    rewrite Hp. cbn [bind].
    rewrite resolve_date_no_time_column; [reflexivity | | exact Hfind].
    eapply prepare_index; exact Hp.
  - intros raw df dated req Hd Hp Hr Hreq Hclean. rewrite Hd. cbn [bind].
    unfold normalize. rewrite Hp. cbn [bind]. rewrite Hr. cbn [bind].
    destruct (resolve_columns_unresolvable req Hreq dated Hclean) as [missing Hm].
    rewrite Hm. reflexivity.
Qed.

Lemma fetch_xauusd_data_empty_on_failure_witness :
  fetch_xauusd_data (download_fixed raw_no_time) to_datetime_basic "2d" "1h" = empty_frame /\
  fetch_xauusd_data (download_fixed raw_no_volume) to_datetime_basic "2d" "1h" = empty_frame.
Proof.
  split.
  - destruct (fetch_xauusd_data_empty_on_failure
                (download_fixed raw_no_time) to_datetime_basic "2d" "1h")
      as [_ [_ [H _]]].
    eapply (H raw_no_time); [reflexivity | vm_compute; reflexivity | reflexivity].
  - destruct (fetch_xauusd_data_empty_on_failure
                (download_fixed raw_no_volume) to_datetime_basic "2d" "1h")
      as [_ [_ [_ [H _]]]].
    eapply (H raw_no_volume _ _ "volume");
      [reflexivity | vm_compute; reflexivity | vm_compute; reflexivity
       | simpl; tauto |].
    intros col Hcol. simpl in Hcol.
    repeat (destruct Hcol as [Hcol|Hcol]; [subst col; reflexivity|]). contradiction.
Defined.

(** ** Normalizing a canonical series *)

(** C9, as stated, fails: the normalization steps applied to a canonical
    series return a different table, with three more columns; applied to
    their own result they add a further column. *)
Lemma normalize_canonical_not_identity :
  exists once twice,
    normalize to_datetime_basic (as_raw canonical2) = Ok once /\
    normalize to_datetime_basic (as_raw once) = Ok twice /\
    columns canonical2 = ["date"; "open"; "high"; "low"; "close"; "volume"] /\
    columns once = ["index"; "date"; "open"; "high"; "low"; "close"; "volume";
                    "price_change"; "percent_change"] /\
    columns twice = ["level_0"; "index"; "date"; "open"; "high"; "low"; "close"; "volume";
                     "price_change"; "percent_change"] /\
    once <> canonical2 /\ twice <> once.
Proof.
  eexists; eexists.
  split; [vm_compute; reflexivity|].
  split; [vm_compute; reflexivity|].
  repeat split; discriminate.
Qed.

(** C9, amended: on a canonical series (unnamed row index, columns date,
    open, high, low, close, volume, parsed timestamps, numeric closes) the
    normalization steps succeed and keep the six columns, with their
    labels, order and values.  The result is not the input: the former row
    index is added in front as column [index], the derived columns
    [price_change] and [percent_change] are appended, and the row index is
    a fresh range. *)
Theorem normalize_canonical_preserves_columns
    (to_datetime : column -> result column)
    (is_datetime : bool) (rows date open high low close volume : column)
    (closes : Series) :
  rows <> [] ->
  to_datetime date = Ok date ->
  floats close = Ok closes ->
  normalize to_datetime
    (as_raw (mkFrame (mkIndex None is_datetime rows)
               [("date", date); ("open", open); ("high", high);
                ("low", low); ("close", close); ("volume", volume)]))
  = Ok (mkFrame (RangeIndex (length rows))
          [("index", rows);
           ("date", date); ("open", open); ("high", high);
           ("low", low); ("close", close); ("volume", volume);
           ("price_change", of_series (diff closes));
           ("percent_change",
            of_series (map (fun x => fmul x (fl 100)) (pct_change closes)))]).
Proof.
  intros Hrows Hdate Hclose.
  set (reindexed :=
         mkFrame (RangeIndex (length rows))
           [("index", rows); ("date", date); ("open", open); ("high", high);
            ("low", low); ("close", close); ("volume", volume)]).
  assert (Hp : prepare (as_raw (mkFrame (mkIndex None is_datetime rows)
                 [("date", date); ("open", open); ("high", high);
                  ("low", low); ("close", close); ("volume", volume)]))
               = Ok reindexed).
  { destruct rows as [|r rows]; [congruence | reflexivity]. }
  assert (Hd : resolve_date to_datetime reindexed = Ok reindexed).
  { unfold resolve_date.
    replace (mem "date" (columns reindexed)) with true by reflexivity.
    cbv beta iota zeta.
    replace (getitem reindexed "date") with (Ok date) by reflexivity.
    cbn [bind]. rewrite Hdate. reflexivity. }
  assert (Hc : resolve_columns reindexed = Ok reindexed) by reflexivity.
  unfold normalize. rewrite Hp. cbn [bind]. rewrite Hd. cbn [bind].
  rewrite Hc. cbn [bind].
  unfold add_changes.
  replace (getitem reindexed "close") with (Ok close) by reflexivity.
  cbn [bind]. rewrite Hclose. cbn [bind].
  replace (getitem (setitem reindexed "price_change" (of_series (diff closes))) "close")
    with (Ok close) by reflexivity.
  cbn [bind]. rewrite Hclose. reflexivity.
Qed.

Lemma normalize_canonical_preserves_columns_witness :
  normalize to_datetime_basic (as_raw canonical2)
  = Ok (mkFrame (RangeIndex 2)
          [("index", [CNum (fl 0); CNum (fl 1)]);
           ("date", [CTime 0; CTime 3600]);
           ("open", [CNum (fl 1900); CNum (fl 1901)]);
           ("high", [CNum (fl 1905); CNum (fl 1906)]);
           ("low", [CNum (fl 1895); CNum (fl 1896)]);
           ("close", [CNum (fl 1901); CNum (fl 1902)]);
           ("volume", [CNum (fl 10); CNum (fl 20)]);
           ("price_change", of_series (diff [fl 1901; fl 1902]));
           ("percent_change",
            of_series (map (fun x => fmul x (fl 100)) (pct_change [fl 1901; fl 1902])))]).
Proof.
  apply (normalize_canonical_preserves_columns to_datetime_basic false
           [CNum (fl 0); CNum (fl 1)]
           [CTime 0; CTime 3600]
           [CNum (fl 1900); CNum (fl 1901)]
           [CNum (fl 1905); CNum (fl 1906)]
           [CNum (fl 1895); CNum (fl 1896)]
           [CNum (fl 1901); CNum (fl 1902)]
           [CNum (fl 10); CNum (fl 20)]
           [fl 1901; fl 1902]).
  - discriminate.
  - reflexivity.
  - reflexivity.
Defined.

(** ** The loops of the peak finder run to completion *)

(** With the fuel it is given, the plateau scan stops because its loop
    condition fails, not because the fuel runs out. *)
Lemma plateau_end_exit (fuel : nat) (x : Series) (i i_max a : nat) :
  (i_max - a <= fuel)%nat ->
  ((plateau_end fuel x i i_max a <? i_max)%nat
   && feq (at_ x (plateau_end fuel x i i_max a)) (at_ x i)) = false.
Proof.
  revert a; induction fuel as [|f IH]; intros a H; simpl.
  - replace (a <? i_max)%nat with false by (symmetry; apply Nat.ltb_ge; lia).
    reflexivity.
  - destruct ((a <? i_max)%nat && feq (at_ x a) (at_ x i)) eqn:E; [|exact E].
    apply IH. lia.
Qed.

Lemma local_maxima_loop_fuel (f1 f2 : nat) (x : Series) (i i_max : nat) :
  (i_max - i <= f1)%nat -> (i_max - i <= f2)%nat ->
  local_maxima_loop f1 x i i_max = local_maxima_loop f2 x i i_max.
Proof.
  revert f2 i; induction f1 as [|f1 IH]; intros f2 i H1 H2.
  - destruct f2; cbn [local_maxima_loop]; [reflexivity|].
    replace (i <? i_max)%nat with false by (symmetry; apply Nat.ltb_ge; lia).
    reflexivity.
  - destruct f2; cbn [local_maxima_loop].
    + replace (i <? i_max)%nat with false by (symmetry; apply Nat.ltb_ge; lia).
      reflexivity.
    + destruct (i <? i_max)%nat eqn:Ei; [|reflexivity].
      apply Nat.ltb_lt in Ei.
      pose proof (plateau_end_bounds (length x) x i i_max (i + 1) ltac:(lia)) as Hb.
      destruct (flt (at_ x (i - 1)) (at_ x i)); [|apply IH; lia].
      destruct (flt (at_ x (plateau_end (length x) x i i_max (i + 1))) (at_ x i));
        [f_equal|]; apply IH; lia.
Qed.

Lemma clear_right_fuel (f1 f2 : nat) (peaks : list nat) (pj distance k : nat)
    (keep : list bool) :
  (length peaks - k <= f1)%nat -> (length peaks - k <= f2)%nat ->
  clear_right f1 peaks pj distance k keep = clear_right f2 peaks pj distance k keep.
Proof.
  revert f2 k keep; induction f1 as [|f1 IH]; intros f2 k keep H1 H2.
  - destruct f2; cbn [clear_right]; [reflexivity|].
    replace (k <? length peaks)%nat with false by (symmetry; apply Nat.ltb_ge; lia).
    reflexivity.
  - destruct f2; cbn [clear_right].
    + replace (k <? length peaks)%nat with false by (symmetry; apply Nat.ltb_ge; lia).
      reflexivity.
    + destruct ((k <? length peaks)%nat && (nth k peaks 0%nat - pj <? distance)%nat)
        eqn:E; [|reflexivity].
      apply andb_true_iff in E. destruct E as [E _]. apply Nat.ltb_lt in E.
      apply IH; lia.
Qed.

Lemma right_min_fuel (f1 f2 : nat) (x : Series) (peak i : nat) (m : Fl) :
  (length x - i <= f1)%nat -> (length x - i <= f2)%nat ->
  right_min f1 x peak i m = right_min f2 x peak i m.
Proof.
  revert f2 i m; induction f1 as [|f1 IH]; intros f2 i m H1 H2.
  - destruct f2; cbn [right_min]; [reflexivity|].
    replace (i <? length x)%nat with false by (symmetry; apply Nat.ltb_ge; lia).
    reflexivity.
  - destruct f2; cbn [right_min].
    + replace (i <? length x)%nat with false by (symmetry; apply Nat.ltb_ge; lia).
      reflexivity.
    + destruct ((i <? length x)%nat && fle (at_ x i) (at_ x peak)) eqn:E; [|reflexivity].
      apply andb_true_iff in E. destruct E as [E _]. apply Nat.ltb_lt in E.
      apply IH; lia.
Qed.

(** More fuel than the length of the array changes nothing. *)
Lemma local_maxima_1d_fuel (extra : nat) (x : Series) :
  local_maxima_loop (length x + extra) x 1 (length x - 1) = local_maxima_1d x.
Proof. unfold local_maxima_1d. apply local_maxima_loop_fuel; lia. Qed.

(** * Further properties of the code *)

(** ** Period validation *)

Lemma valid_period_fixed (period : string) :
  In period valid_periods -> valid_period period = period.
Proof.
  unfold valid_periods. simpl.
  intros H. repeat (destruct H as [H|H]; [subst period; reflexivity|]). contradiction.
Qed.

Lemma valid_period_in_range (period : string) : In (valid_period period) valid_periods.
Proof.
  unfold valid_period.
  destruct (assoc period period_map) as [p|] eqn:E.
  - unfold period_map in E. cbn [assoc] in E.
    repeat match type of E with
           | (if ?c then _ else _) = _ =>
               destruct c; [inversion E; subst p; simpl; tauto|]
           end.
    discriminate.
  - destruct (mem period valid_periods) eqn:M.
    + apply mem_In; exact M.
    + simpl; tauto.
Qed.

(** X1: whatever period is asked for, the period sent to the provider is one
    of the eleven valid ones; validation leaves a valid period unchanged, and
    validating twice is the same as validating once. *)
Theorem valid_period_sound (period : string) :
  In (valid_period period) valid_periods /\
  valid_period (valid_period period) = valid_period period /\
  (In period valid_periods -> valid_period period = period).
Proof.
  split; [apply valid_period_in_range|].
  split; [apply valid_period_fixed, valid_period_in_range | apply valid_period_fixed].
Qed.

Lemma valid_period_sound_witness :
  In (valid_period "1w") valid_periods /\
  valid_period (valid_period "1w") = valid_period "1w" /\
  valid_period "ytd" = "ytd".
Proof.
  destruct (valid_period_sound "1w") as [H1 [H2 _]].
  destruct (valid_period_sound "ytd") as [_ [_ H3]].
  split; [exact H1|]. split; [exact H2|]. apply H3. simpl; tauto.
Defined.

(** ** MACD *)

Lemma map2_fl (f : Q -> Q -> Q) (a b : list Q) :
  map2 (fl_lift2 f) (map fl a) (map fl b) = map fl (map2 f a b).
Proof.
  revert b; induction a as [|x a IH]; intros [|y b]; simpl; try reflexivity.
  rewrite IH. reflexivity.
Qed.

(** On a series without missing values the exponential mean is the textbook
    recursion [y = (1 - alpha) * previous + alpha * x]. *)
Lemma ewm_from_fl (alpha w : Q) (l : list Q) :
  exists ys,
    ewm_from alpha (Some w) 1 (map fl l) = map fl ys /\
    length ys = length l /\
    forall i, (i < length l)%nat ->
              nth i ys 0 == (1 - alpha) * nth i (w :: ys) 0 + alpha * nth i l 0.
Proof.
  revert w; induction l as [|c l IH]; intros w.
  - exists []. repeat split. simpl. intros i Hi. lia.
  - cbn [map ewm_from fl].
    assert (Hden : Qeq_bool (1 * (1 - alpha) + alpha) 0 = false).
    { destruct (Qeq_bool (1 * (1 - alpha) + alpha) 0) eqn:E; [|reflexivity].
      apply Qeq_bool_eq in E. lra. }
    unfold fdiv at 1 2. unfold fl at 1 2 3 4. rewrite Hden.
    set (y := (1 * (1 - alpha) * w + alpha * c) / (1 * (1 - alpha) + alpha)).
    destruct (IH y) as [ys [Hys [Hlen Hrec]]].
    exists (y :: ys). rewrite Hys. split; [reflexivity|]. split; [simpl; lia|].
    intros [|i] Hi.
    + cbn [nth]. unfold y. field. lra.
    + cbn [nth]. cbn [length] in Hi. apply Hrec. lia.
Qed.

Lemma ewm_mean_fl (span : nat) (l : list Q) :
  (1 <= span)%nat ->
  exists ys,
    ewm_mean span (map fl l) = Ok (map fl ys) /\
    length ys = length l /\
    (forall d, nth 0 ys d = nth 0 l d) /\
    forall i, (S i < length l)%nat ->
              nth (S i) ys 0
              == (1 - 2 / (of_nat span + 1)) * nth i ys 0
                 + 2 / (of_nat span + 1) * nth (S i) l 0.
Proof.
  intros Hspan. unfold ewm_mean.
  replace (span <? 1)%nat with false by (symmetry; apply Nat.ltb_ge; exact Hspan).
  destruct l as [|x l].
  - exists []. repeat split. simpl. intros i Hi. lia.
  - cbn [map ewm_from NaN]. change (fl x) with (Some x).
    destruct (ewm_from_fl (2 / (of_nat span + 1)) x l) as [ys [Hys [Hlen Hrec]]].
    exists (x :: ys). rewrite Hys. split; [reflexivity|]. split; [simpl; lia|].
    split; [reflexivity|].
    intros i Hi. cbn [length] in Hi. cbn [nth].
    specialize (Hrec i ltac:(lia)). exact Hrec.
Qed.

Lemma nth_map2_Q (f : Q -> Q -> Q) (a b : list Q) (i : nat) :
  (i < length a)%nat -> (i < length b)%nat ->
  nth i (map2 f a b) 0 = f (nth i a 0) (nth i b 0).
Proof. intros Ha Hb. apply nth_map2; assumption. Qed.

(** X2: on closes without missing values, and spans of at least 1,
    [calculate_macd] yields three series with one number per row (no warm-up
    gap); the histogram is the MACD line minus the signal line at every row;
    at row 0 the MACD line and the signal line are 0; and the signal line is
    the exponential mean of the MACD line:
    [signal[i+1] = (1 - a) * signal[i] + a * macd[i+1]] with
    [a = 2 / (signal_period + 1)]. *)
Theorem calculate_macd_rows (data : DataFrame) (closes : list Q)
    (fast_period slow_period signal_period : nat) :
  numeric data "close" = Ok (map fl closes) ->
  (1 <= fast_period)%nat -> (1 <= slow_period)%nat -> (1 <= signal_period)%nat ->
  exists macd signal hist : list Q,
    calculate_macd data fast_period slow_period signal_period
    = Ok (map fl macd, map fl signal, map fl hist) /\
    length macd = length closes /\
    length signal = length closes /\
    length hist = length closes /\
    (forall i, (i < length closes)%nat ->
               nth i hist 0 = nth i macd 0 - nth i signal 0) /\
    ((0 < length closes)%nat -> nth 0 macd 0 == 0 /\ nth 0 signal 0 == 0) /\
    (forall i, (S i < length closes)%nat ->
               nth (S i) signal 0
               == (1 - 2 / (of_nat signal_period + 1)) * nth i signal 0
                  + 2 / (of_nat signal_period + 1) * nth (S i) macd 0).
Proof.
  intros Hclose Hf Hs Hg.
  apply numeric_inv in Hclose. destruct Hclose as [c [Hc Hfl]].
  destruct (ewm_mean_fl fast_period closes Hf) as [ef [Hef [Lef [Hef0 _]]]].
  destruct (ewm_mean_fl slow_period closes Hs) as [es [Hes [Les [Hes0 _]]]].
  destruct (ewm_mean_fl signal_period (map2 Qminus ef es) Hg)
    as [sg [Hsg [Lsg [Hsg0 Hrec]]]].
  assert (Lm : length (map2 Qminus ef es) = length closes)
    by (rewrite length_map2; lia).
  exists (map2 Qminus ef es), sg, (map2 Qminus (map2 Qminus ef es) sg).
  split.
  { unfold calculate_macd. rewrite Hc. cbn [bind]. rewrite Hfl. cbn [bind].
    rewrite Hef, Hes. cbn [bind].
    change fsub with (fl_lift2 Qminus). rewrite map2_fl, Hsg. cbn [bind].
    rewrite map2_fl. reflexivity. }
  split; [exact Lm|]. split; [lia|]. split; [rewrite length_map2; lia|].
  split; [|split].
  - intros i Hi. apply nth_map2_Q; lia.
  - intros Hn. rewrite Hsg0.
    rewrite nth_map2_Q by lia. rewrite Hef0, Hes0. split; ring.
  - intros i Hi. apply Hrec. lia.
Qed.

Lemma calculate_macd_rows_witness :
  exists macd signal hist : list Q,
    calculate_macd (close_frame rising30) 12 26 9
    = Ok (map fl macd, map fl signal, map fl hist) /\
    length macd = length rising30 /\
    length signal = length rising30 /\
    length hist = length rising30 /\
    (forall i, (i < length rising30)%nat ->
               nth i hist 0 = nth i macd 0 - nth i signal 0) /\
    ((0 < length rising30)%nat -> nth 0 macd 0 == 0 /\ nth 0 signal 0 == 0) /\
    (forall i, (S i < length rising30)%nat ->
               nth (S i) signal 0
               == (1 - 2 / (of_nat 9 + 1)) * nth i signal 0
                  + 2 / (of_nat 9 + 1) * nth (S i) macd 0).
Proof.
  apply (calculate_macd_rows (close_frame rising30) rising30 12 26 9).
  - apply numeric_close_frame.
  - lia.
  - lia.
  - lia.
Defined.

(** ** Warm-up of the Bollinger bands *)

Lemma fsum_fl (l : list Q) : exists t, fsum (map fl l) = Some t.
Proof.
  induction l as [|x l [t Ht]]; simpl.
  - exists 0; reflexivity.
  - rewrite Ht. exists (x + t); reflexivity.
Qed.

Lemma window_mean_fl (l : list Q) :
  l <> [] -> exists m, window_mean (map fl l) = Some m.
Proof.
  intros Hne. unfold window_mean. destruct (fsum_fl l) as [t Ht]. rewrite Ht.
  rewrite length_map. cbn [fdiv fl].
  rewrite Qeq_bool_pos; [eexists; reflexivity|].
  apply of_nat_pos. destruct l; [congruence | simpl; lia].
Qed.

Lemma window_var_fl (l : list Q) :
  (2 <= length l)%nat -> exists v, window_var (map fl l) = Some v.
Proof.
  intros Hlen. unfold window_var.
  destruct (window_mean_fl l) as [m Hm]; [destruct l; [simpl in Hlen; lia | congruence]|].
  rewrite Hm. rewrite map_map.
  replace (map (fun x => fmul (fsub (fl x) (Some m)) (fsub (fl x) (Some m))) l)
    with (map fl (map (fun x => (x - m) * (x - m)) l))
    by (rewrite map_map; reflexivity).
  destruct (fsum_fl (map (fun x => (x - m) * (x - m)) l)) as [t Ht]. rewrite Ht.
  rewrite length_map. cbn [fdiv fl].
  rewrite Qeq_bool_pos; [eexists; reflexivity|].
  apply of_nat_pos. lia.
Qed.

Lemma window_var_single (x : Fl) : window_var [x] = None.
Proof.
  unfold window_var. cbn [length Nat.sub].
  destruct (fsum _); reflexivity.
Qed.

Lemma window_fl (w k : nat) (l : list Q) :
  firstn w (skipn k (map fl l)) = map fl (firstn w (skipn k l)).
Proof. rewrite skipn_map, firstn_map. reflexivity. Qed.

Lemma length_window (w i : nat) (l : list Q) :
  (i < length l)%nat -> (1 <= w <= S i)%nat ->
  length (firstn w (skipn (S i - w) l)) = w.
Proof. intros Hi Hw. rewrite length_firstn, length_skipn. lia. Qed.

Lemma cond_after_warmup (w i : nat) :
  (1 <= w <= S i)%nat -> ((w =? 0) || (S i <? w))%nat = false.
Proof.
  intros H. apply orb_false_iff. split; [apply Nat.eqb_neq | apply Nat.ltb_ge]; lia.
Qed.

Lemma rolling_mean_present (w : nat) (l : list Q) (i : nat) :
  (i < length l)%nat -> (1 <= w <= S i)%nat ->
  exists m, nth i (rolling_mean w (map fl l)) NaN = Some m.
Proof.
  intros Hi Hw. rewrite rolling_mean_nth by (rewrite length_map; exact Hi).
  rewrite cond_after_warmup by exact Hw. rewrite window_fl.
  apply window_mean_fl. intros E. apply (f_equal (@length Q)) in E.
  rewrite length_window in E by assumption. simpl in E. lia.
Qed.

Lemma rolling_std_present (sqrt : Q -> Q) (w : nat) (l : list Q) (i : nat) :
  (i < length l)%nat -> (2 <= w <= S i)%nat ->
  exists sd, nth i (rolling_std sqrt w (map fl l)) NaN = Some sd.
Proof.
  intros Hi Hw. rewrite rolling_std_nth by (rewrite length_map; exact Hi).
  rewrite cond_after_warmup by lia. rewrite window_fl.
  destruct (window_var_fl (firstn w (skipn (S i - w) l))) as [v Hv].
  { rewrite length_window by (auto; lia). lia. }
  rewrite Hv. eexists; reflexivity.
Qed.

Lemma rolling_std_window_1 (sqrt : Q -> Q) (s : Series) (i : nat) :
  (i < length s)%nat -> nth i (rolling_std sqrt 1 s) NaN = None.
Proof.
  intros Hi. rewrite rolling_std_nth by exact Hi.
  rewrite cond_after_warmup by lia.
  replace (S i - 1)%nat with i by lia.
  destruct (skipn i s) as [|x t] eqn:E.
  - apply (f_equal (@length Fl)) in E. rewrite length_skipn in E. simpl in E. lia.
  - cbn [firstn]. rewrite window_var_single. reflexivity.
Qed.

Lemma rolling_std_warmup (sqrt : Q -> Q) (w : nat) (s : Series) (i : nat) :
  (i < length s)%nat -> (S i < w)%nat -> nth i (rolling_std sqrt w s) NaN = None.
Proof.
  intros Hi Hw. rewrite rolling_std_nth by exact Hi.
  replace ((w =? 0) || (S i <? w))%nat with true; [reflexivity|].
  symmetry. apply orb_true_iff. right. apply Nat.ltb_lt. exact Hw.
Qed.

(** X3: on closes without missing values and a window of at least 1, the
    three Bollinger bands have one entry per row.  The middle band is
    missing for exactly the first [window - 1] rows.  The upper and lower
    bands are missing for those rows too, and for every row when
    [window = 1] (the sample deviation of one value is undefined).  Where
    the three bands are present, the middle band is halfway between the
    other two. *)
Theorem bollinger_bands_warmup (sqrt : Q -> Q) (data : DataFrame) (closes : list Q)
    (window : nat) (num_std : Q) :
  numeric data "close" = Ok (map fl closes) ->
  (1 <= window)%nat ->
  exists upper_band middle_band lower_band,
    calculate_bollinger_bands sqrt data window num_std
    = Ok (upper_band, middle_band, lower_band) /\
    length upper_band = length closes /\
    length middle_band = length closes /\
    length lower_band = length closes /\
    forall i, (i < length closes)%nat ->
      (nth i middle_band NaN = None <-> (S i < window)%nat) /\
      (nth i upper_band NaN = None <-> (S i < window)%nat \/ window = 1%nat) /\
      (nth i lower_band NaN = None <-> (S i < window)%nat \/ window = 1%nat) /\
      (forall u m l,
          nth i upper_band NaN = Some u ->
          nth i middle_band NaN = Some m ->
          nth i lower_band NaN = Some l ->
          u - m == m - l).
Proof.
  intros Hclose Hw.
  eexists; eexists; eexists.
  split; [apply calculate_bollinger_bands_unfold; exact Hclose|].
  assert (Lm : length (rolling_mean window (map fl closes)) = length closes)
    by (rewrite length_rolling_mean, length_map; reflexivity).
  assert (Ls : length (map (fun s => fmul s (fl num_std))
                           (rolling_std sqrt window (map fl closes))) = length closes)
    by (rewrite length_map, length_rolling_std, length_map; reflexivity).
  split; [rewrite length_map2; lia|]. split; [exact Lm|].
  split; [rewrite length_map2; lia|].
  intros i Hi.
  rewrite !(nth_map2 _ _ _ i NaN NaN NaN) by lia.
  rewrite (nth_map_lt _ _ i NaN NaN) by (rewrite length_rolling_std, length_map; lia).
  assert (Hi' : (i < length (map fl closes))%nat) by (rewrite length_map; exact Hi).
  destruct (Nat.lt_ge_cases (S i) window) as [Hlt|Hge].
  - rewrite rolling_mean_warmup by (auto; lia).
    rewrite rolling_std_warmup by (auto; lia).
    cbn. repeat split; auto; try discriminate.
  - destruct (rolling_mean_present window closes i Hi) as [m Hm]; [lia|].
    rewrite Hm.
    destruct (Nat.eq_dec window 1) as [E1|N1].
    + subst window. rewrite rolling_std_window_1 by exact Hi'.
      cbn. repeat split; auto; try discriminate; try lia.
    + destruct (rolling_std_present sqrt window closes i Hi) as [sd Hsd]; [lia|].
      rewrite Hsd. cbn. repeat split; try discriminate; try lia.
      intros u m0 l Eu Em El. inversion Eu; inversion Em; inversion El.
      subst u m0 l. ring.
Qed.

Lemma bollinger_bands_warmup_witness :
  exists upper_band middle_band lower_band,
    calculate_bollinger_bands sqrt_floor (close_frame rising30) 20 2
    = Ok (upper_band, middle_band, lower_band) /\
    length upper_band = length rising30 /\
    length middle_band = length rising30 /\
    length lower_band = length rising30 /\
    forall i, (i < length rising30)%nat ->
      (nth i middle_band NaN = None <-> (S i < 20)%nat) /\
      (nth i upper_band NaN = None <-> (S i < 20)%nat \/ 20%nat = 1%nat) /\
      (nth i lower_band NaN = None <-> (S i < 20)%nat \/ 20%nat = 1%nat) /\
      (forall u m l,
          nth i upper_band NaN = Some u ->
          nth i middle_band NaN = Some m ->
          nth i lower_band NaN = Some l ->
          u - m == m - l).
Proof.
  apply (bollinger_bands_warmup sqrt_floor (close_frame rising30) rising30 20 2).
  - apply numeric_close_frame.
  - lia.
Defined.

(** ** RSI of a series that never rises *)

Lemma map2_cons {A B C : Type} (f : A -> B -> C) (a : A) (b : B)
    (l1 : list A) (l2 : list B) :
  map2 f (a :: l1) (b :: l2) = f a b :: map2 f l1 l2.
Proof. reflexivity. Qed.

Lemma gain_never_rises (t : list Q) (x : Q) :
  Sorted (fun a b => b <= a) (x :: t) ->
  map (fun d => if fgt d (fl 0) then d else fl 0)
      (map2 (fun prev cur => fsub cur prev) (fl x :: map fl t) (map fl t))
  = map fl (repeat 0 (length t)).
Proof.
  revert x; induction t as [|y t IH]; intros x Hs; [reflexivity|].
  apply Sorted_inv in Hs. destruct Hs as [Hs Hd]. inversion Hd as [|? ? Hyx]; subst.
  change (map fl (y :: t)) with (fl y :: map fl t).
  rewrite map2_cons. cbn [map length repeat]. rewrite (IH y Hs). f_equal.
  cbn. unfold Qlt_bool. replace (Qle_bool (y - x) 0) with true; [reflexivity|].
  symmetry. apply Qle_bool_iff. lra.
Qed.

Lemma gain_of_never_rising (closes : list Q) :
  Sorted (fun a b => b <= a) closes ->
  where_ (fun d => fgt d (fl 0)) (fl 0) (diff (map fl closes))
  = map fl (repeat 0 (length closes)).
Proof.
  intros Hs. destruct closes as [|x t]; [reflexivity|].
  unfold where_, diff. change (map fl (x :: t)) with (fl x :: map fl t).
  cbn [map]. rewrite (gain_never_rises t x Hs). reflexivity.
Qed.

Lemma fsum_zero (l : list Q) :
  Forall (fun q => q == 0) l -> exists t, fsum (map fl l) = Some t /\ t == 0.
Proof.
  induction 1 as [|x l Hx Hl [t [Ht Ht0]]]; simpl.
  - exists 0; split; reflexivity.
  - rewrite Ht. exists (x + t); split; [reflexivity|]. rewrite Hx, Ht0. reflexivity.
Qed.

Lemma rolling_mean_zero (w : nat) (l : list Q) (i : nat) :
  Forall (fun q => q == 0) l -> (i < length l)%nat -> (1 <= w <= S i)%nat ->
  exists m, nth i (rolling_mean w (map fl l)) NaN = Some m /\ m == 0.
Proof.
  intros Hz Hi Hw. rewrite rolling_mean_nth by (rewrite length_map; exact Hi).
  rewrite cond_after_warmup by exact Hw. rewrite window_fl.
  unfold window_mean.
  destruct (fsum_zero (firstn w (skipn (S i - w) l))) as [t [Ht Ht0]].
  { apply Forall_firstn_keeps, Forall_skipn_keeps, Hz. }
  rewrite Ht, length_map, length_window by assumption. cbn [fdiv fl].
  rewrite Qeq_bool_pos by (apply of_nat_pos; lia).
  eexists; split; [reflexivity|]. rewrite Ht0. unfold Qdiv. ring.
Qed.

Lemma Forall_repeat {A : Type} (P : A -> Prop) (a : A) (n : nat) :
  P a -> Forall P (repeat a n).
Proof. intros H. induction n; simpl; constructor; assumption. Qed.

(** X4: on closes without missing values, the RSI of a series that never
    rises (a falling series as well as a flat one) is 0 at every row where
    it is present, and it is present at every row from index [window - 1]
    on. *)
Theorem calculate_rsi_never_rising (data : DataFrame) (closes : list Q) (window : nat) :
  numeric data "close" = Ok (map fl closes) ->
  Sorted (fun a b => b <= a) closes ->
  exists rsi,
    calculate_rsi data window = Ok rsi /\
    (forall i v, nth_error rsi i = Some (Some v) -> v == 0) /\
    (forall i, (i < length closes)%nat -> (1 <= window <= S i)%nat ->
               exists v, nth_error rsi i = Some (Some v)).
Proof.
  intros Hclose Hs. eexists. split; [apply calculate_rsi_unfold; exact Hclose|].
  split.
  - intros i v Hv.
    apply (nth_error_nth_iff _ _ NaN) in Hv. destruct Hv as [Hi Hv].
    rewrite length_rsi, length_map in Hi.
    assert (Hi' : (i < length (map fl closes))%nat) by (rewrite length_map; exact Hi).
    destruct (Nat.lt_ge_cases (S i) window) as [Hlt|Hge].
    { rewrite rsi_warmup in Hv by (auto; lia). discriminate. }
    destruct window as [|w'].
    { rewrite rsi_warmup in Hv by (auto; lia). discriminate. }
    destruct (rsi_warm (map fl closes) (S w') i Hi') as [g [l [Hg [Hl [Hg0 [Hl0 Hval]]]]]];
      [lia|].
    rewrite Hval in Hv. inversion Hv as [Hv'].
    assert (Hgz : g == 0).
    { rewrite (gain_of_never_rising closes Hs) in Hg.
      destruct (rolling_mean_zero (S w') (repeat 0 (length closes)) i) as [m [Hm Hm0]];
        [apply Forall_repeat; reflexivity | rewrite repeat_length; exact Hi | lia|].
      rewrite Hm in Hg. inversion Hg. subst g. exact Hm0. }
    rewrite Hgz.
    assert (Hq : 0 / (if Qeq_bool l 0 then float_eps else l) == 0)
      by (unfold Qdiv; ring).
    rewrite Hq. reflexivity.
  - intros i Hi Hw.
    assert (Hi' : (i < length (map fl closes))%nat) by (rewrite length_map; exact Hi).
    destruct (rsi_warm (map fl closes) window i Hi' Hw) as [g [l [_ [_ [_ [_ Hval]]]]]].
    eexists. apply (nth_error_nth_iff _ _ NaN).
    split; [rewrite length_rsi; exact Hi' | exact Hval].
Qed.

Lemma falling20_never_rises : Sorted (fun a b => b <= a) falling20.
Proof.
  unfold falling20.
  repeat (apply Sorted_cons;
          [|first [apply HdRel_nil | apply HdRel_cons; unfold Qle; simpl; lia]]).
  apply Sorted_nil.
Qed.

Lemma calculate_rsi_never_rising_witness :
  exists rsi,
    calculate_rsi (close_frame falling20) 14 = Ok rsi /\
    (forall i v, nth_error rsi i = Some (Some v) -> v == 0) /\
    (forall i, (i < length falling20)%nat -> (1 <= 14 <= S i)%nat ->
               exists v, nth_error rsi i = Some (Some v)).
Proof.
  apply (calculate_rsi_never_rising (close_frame falling20) falling20 14).
  - apply numeric_close_frame.
  - exact falling20_never_rises.
Defined.

(** ** Levels and peaks *)

Lemma take_length (prices : Series) (idx : list nat) (l : Series) :
  take prices idx = Ok l -> length l = length idx.
Proof.
  unfold take. revert l. induction idx as [|j idx IH]; intros l; simpl.
  - intros H; inversion H; reflexivity.
  - destruct (nth_error prices j) as [p|]; [|discriminate]. cbn [bind].
    destruct (mapM _ idx) as [l'|e]; [|discriminate]. cbn [bind].
    intros H; inversion H; subst l. simpl. f_equal. apply IH. reflexivity.
Qed.

Lemma length_insert_sorted (a : Fl) (l : Series) :
  length (insert_sorted a l) = S (length l).
Proof.
  induction l as [|b l IH]; simpl; [reflexivity|].
  destruct (flt b a); simpl; [rewrite IH|]; reflexivity.
Qed.

Lemma length_sorted (l : Series) : length (sorted l) = length l.
Proof.
  unfold sorted. induction l as [|a l IH]; simpl; [reflexivity|].
  rewrite length_insert_sorted, IH. reflexivity.
Qed.

Lemma remove_close_nil_iff (l : Series) : remove_close l = [] <-> l = [].
Proof. destruct l; simpl; split; intros H; try reflexivity; discriminate. Qed.

Lemma last5_nil_iff {A : Type} (l : list A) : last5 l = [] <-> l = [].
Proof.
  split; [|intros E; subst l; reflexivity].
  intros H. apply (f_equal (@length A)) in H. unfold last5 in H.
  rewrite length_skipn in H. cbn [length] in H.
  destruct l; [reflexivity | cbn [length] in H; lia].
Qed.

Lemma length_nil_iff {A : Type} (l : list A) : length l = 0%nat <-> l = [].
Proof. destruct l; simpl; split; intros H; try reflexivity; try discriminate. Qed.

(** The level detector, with the indices found by the peak finder and the
    prices taken at them. *)
Lemma find_support_resistance_steps (data : DataFrame) (prices : Series)
    (window : nat) (prominence : Q) :
  numeric data "close" = Ok prices ->
  (1 <= window)%nat ->
  exists support_idx resistance_idx support_cand resistance_cand,
    find_peaks (map fneg prices) window prominence = Ok support_idx /\
    find_peaks prices window prominence = Ok resistance_idx /\
    take prices support_idx = Ok support_cand /\
    take prices resistance_idx = Ok resistance_cand /\
    Forall (fun v => In v prices) support_cand /\
    Forall (fun v => In v prices) resistance_cand /\
    find_support_resistance data window prominence
    = Ok (remove_close (last5 (sorted support_cand)),
          remove_close (last5 (sorted resistance_cand))).
Proof.
  intros Hclose Hw.
  apply numeric_inv in Hclose. destruct Hclose as [c [Hc Hf]].
  destruct (find_peaks_ok prices window prominence Hw) as [ridx [Hr Hrin]].
  destruct (find_peaks_ok (map fneg prices) window prominence Hw) as [sidx [Hs Hsin]].
  rewrite length_map in Hsin.
  destruct (take_ok prices ridx Hrin) as [rl [Hrl Hrlin]].
  destruct (take_ok prices sidx Hsin) as [sl [Hsl Hslin]].
  exists sidx, ridx, sl, rl.
  repeat (split; [assumption|]).
  unfold find_support_resistance.
  rewrite Hc. cbn [bind]. rewrite Hf. cbn [bind].
  rewrite Hr. cbn [bind]. rewrite Hrl. cbn [bind].
  rewrite Hs. cbn [bind]. rewrite Hsl. cbn [bind].
  cbn zeta.
  pose proof (post_process sl) as Ps. pose proof (post_process rl) as Pr.
  cbn zeta in Ps, Pr. rewrite Ps, Pr. reflexivity.
Qed.

Lemma levels_nil_iff (prices : Series) (idx : list nat) (cand : Series) :
  take prices idx = Ok cand ->
  (remove_close (last5 (sorted cand)) = [] <-> idx = []).
Proof.
  intros Ht. apply take_length in Ht. split; intros H.
  - apply (proj1 (remove_close_nil_iff _)) in H.
    apply (proj1 (last5_nil_iff _)) in H.
    apply (proj1 (length_nil_iff _)). rewrite <- Ht, <- length_sorted, H. reflexivity.
  - subst idx. apply (proj1 (length_nil_iff _)) in Ht. subst cand. reflexivity.
Qed.

(** X5: every support level and every resistance level returned is one of
    the close prices of the table; and a level set is empty exactly when
    the peak finder finds no trough (for support) or no peak (for
    resistance): the removal of close levels never empties a set. *)
Theorem find_support_resistance_levels_are_prices (data : DataFrame) (prices : Series)
    (window : nat) (prominence : Q) :
  numeric data "close" = Ok prices ->
  (1 <= window)%nat ->
  exists support resistance troughs peaks,
    find_support_resistance data window prominence = Ok (support, resistance) /\
    find_peaks (map fneg prices) window prominence = Ok troughs /\
    find_peaks prices window prominence = Ok peaks /\
    Forall (fun level => In level prices) support /\
    Forall (fun level => In level prices) resistance /\
    (support = [] <-> troughs = []) /\
    (resistance = [] <-> peaks = []).
Proof.
  intros Hclose Hw.
  destruct (find_support_resistance_steps data prices window prominence Hclose Hw)
    as [sidx [ridx [sl [rl [Hs [Hr [Hsl [Hrl [Hsin [Hrin Hres]]]]]]]]]].
  eexists; eexists; exists sidx, ridx.
  split; [exact Hres|]. split; [exact Hs|]. split; [exact Hr|].
  split; [|split; [|split]].
  - apply remove_close_Forall. unfold last5. apply Forall_skipn_keeps, sorted_Forall, Hsin.
  - apply remove_close_Forall. unfold last5. apply Forall_skipn_keeps, sorted_Forall, Hrin.
  - eapply levels_nil_iff; exact Hsl.
  - eapply levels_nil_iff; exact Hrl.
Qed.

Lemma find_support_resistance_levels_are_prices_witness :
  exists support resistance troughs peaks,
    find_support_resistance (close_frame zigzag21) 3 (1 # 2) = Ok (support, resistance) /\
    find_peaks (map fneg (map fl zigzag21)) 3 (1 # 2) = Ok troughs /\
    find_peaks (map fl zigzag21) 3 (1 # 2) = Ok peaks /\
    Forall (fun level => In level (map fl zigzag21)) support /\
    Forall (fun level => In level (map fl zigzag21)) resistance /\
    (support = [] <-> troughs = []) /\
    (resistance = [] <-> peaks = []).
Proof.
  apply (find_support_resistance_levels_are_prices (close_frame zigzag21)
           (map fl zigzag21) 3 (1 # 2)).
  - apply numeric_close_frame.
  - lia.
Defined.

(** ** A series that only moves one way has no level *)

Lemma local_maxima_loop_no_rise (fuel : nat) (x : Series) (i i_max : nat) :
  (forall k, (1 <= k)%nat -> flt (at_ x (k - 1)) (at_ x k) = false) ->
  (1 <= i)%nat ->
  local_maxima_loop fuel x i i_max = [].
Proof.
  intros Hx. revert i. induction fuel as [|f IH]; intros i Hi; [reflexivity|].
  cbn [local_maxima_loop]. destruct (i <? i_max)%nat; [|reflexivity].
  rewrite (Hx i Hi). apply IH. lia.
Qed.

Lemma local_maxima_loop_no_fall (fuel : nat) (x : Series) (i i_max : nat) :
  (forall k j, (k < j)%nat -> flt (at_ x j) (at_ x k) = false) ->
  local_maxima_loop fuel x i i_max = [].
Proof.
  intros Hx. revert i. induction fuel as [|f IH]; intros i; [reflexivity|].
  cbn [local_maxima_loop]. destruct (i <? i_max)%nat eqn:Ei; [|reflexivity].
  apply Nat.ltb_lt in Ei.
  destruct (flt (at_ x (i - 1)) (at_ x i)); [|apply IH].
  pose proof (plateau_end_bounds (length x) x i i_max (i + 1) ltac:(lia)) as Hb.
  rewrite (Hx i (plateau_end (length x) x i i_max (i + 1))) by lia.
  apply IH.
Qed.

Lemma find_peaks_no_local_maximum (x : Series) (distance : nat) (prominence : Q) :
  (1 <= distance)%nat -> local_maxima_1d x = [] ->
  find_peaks x distance prominence = Ok [].
Proof.
  intros H Hx. unfold find_peaks.
  replace (distance <? 1)%nat with false by (symmetry; apply Nat.ltb_ge; exact H).
  rewrite Hx. reflexivity.
Qed.

Lemma StronglySorted_nth {A : Type} (R : A -> A -> Prop) (l : list A) (d : A) :
  StronglySorted R l ->
  forall k j, (k < j)%nat -> (j < length l)%nat -> R (nth k l d) (nth j l d).
Proof.
  induction 1 as [|a l Hs IH Ha]; intros k j Hkj Hj; [simpl in Hj; lia|].
  destruct j as [|j]; [lia|]. cbn [length] in Hj.
  destruct k as [|k]; cbn [nth].
  - rewrite Forall_forall in Ha. apply Ha. apply nth_In. lia.
  - apply IH; lia.
Qed.

Lemma at_fl (q : list Q) (k : nat) :
  (k < length q)%nat -> at_ (map fl q) k = Some (nth k q 0).
Proof.
  intros H. unfold at_. rewrite (nth_map_lt fl q k NaN 0) by exact H. reflexivity.
Qed.

Lemma at_out_of_range (x : Series) (k : nat) :
  (length x <= k)%nat -> at_ x k = None.
Proof. intros H. unfold at_. apply nth_overflow. exact H. Qed.

(** No sample of [q] is below an earlier one. *)
Lemma flt_later_earlier (q : list Q) :
  (forall k j, (k < j)%nat -> (j < length q)%nat -> nth k q 0 <= nth j q 0) ->
  forall k j, (k < j)%nat -> flt (at_ (map fl q) j) (at_ (map fl q) k) = false.
Proof.
  intros Hq k j Hkj.
  destruct (Nat.lt_ge_cases j (length q)) as [Hj|Hj].
  - rewrite !at_fl by lia. cbn [flt]. unfold Qlt_bool. apply negb_false_iff.
    apply Qle_bool_iff. apply Hq; assumption.
  - rewrite (at_out_of_range _ j) by (rewrite length_map; exact Hj). reflexivity.
Qed.

(** No sample of [q] is above the one before it. *)
Lemma flt_previous_next (q : list Q) :
  (forall k j, (k < j)%nat -> (j < length q)%nat -> nth j q 0 <= nth k q 0) ->
  forall k, (1 <= k)%nat -> flt (at_ (map fl q) (k - 1)) (at_ (map fl q) k) = false.
Proof.
  intros Hq k Hk.
  destruct (Nat.lt_ge_cases k (length q)) as [Hlt|Hge].
  - rewrite !at_fl by lia. cbn [flt]. unfold Qlt_bool. apply negb_false_iff.
    apply Qle_bool_iff. apply Hq; lia.
  - rewrite (at_out_of_range _ k) by (rewrite length_map; exact Hge).
    destruct (at_ (map fl q) (k - 1)); reflexivity.
Qed.

Lemma local_maxima_never_falls (q : list Q) :
  (forall k j, (k < j)%nat -> (j < length q)%nat -> nth k q 0 <= nth j q 0) ->
  local_maxima_1d (map fl q) = [].
Proof.
  intros Hq. unfold local_maxima_1d.
  apply local_maxima_loop_no_fall, flt_later_earlier, Hq.
Qed.

Lemma local_maxima_never_rises (q : list Q) :
  (forall k j, (k < j)%nat -> (j < length q)%nat -> nth j q 0 <= nth k q 0) ->
  local_maxima_1d (map fl q) = [].
Proof.
  intros Hq. unfold local_maxima_1d.
  apply local_maxima_loop_no_rise; [apply flt_previous_next, Hq | lia].
Qed.

Lemma fneg_fl (q : list Q) : map fneg (map fl q) = map fl (map Qopp q).
Proof. rewrite !map_map. reflexivity. Qed.

Lemma nth_opp (q : list Q) (k : nat) :
  (k < length q)%nat -> nth k (map Qopp q) 0 = - nth k q 0.
Proof. intros H. apply nth_map_lt. exact H. Qed.

(** X6: a series of closes that never falls, or that never rises, has
    neither support nor resistance levels. *)
Theorem find_support_resistance_one_way (data : DataFrame) (closes : list Q)
    (window : nat) (prominence : Q) :
  numeric data "close" = Ok (map fl closes) ->
  (1 <= window)%nat ->
  Sorted Qle closes \/ Sorted (fun a b => b <= a) closes ->
  find_support_resistance data window prominence = Ok ([], []).
Proof.
  intros Hclose Hw Hmono.
  destruct (find_support_resistance_unfold data (map fl closes) window prominence
              Hclose Hw)
    as [sidx [ridx [sl [rl [Hs [Hr [_ [_ [Hse [Hre Hres]]]]]]]]]].
  assert (Hup_down :
            (forall k j, (k < j)%nat -> (j < length closes)%nat ->
                         nth k closes 0 <= nth j closes 0)
            \/ (forall k j, (k < j)%nat -> (j < length closes)%nat ->
                            nth j closes 0 <= nth k closes 0)).
  { destruct Hmono as [Hup|Hdown].
    - left. apply StronglySorted_nth. apply Sorted_StronglySorted; [|exact Hup].
      intros a b c; apply Qle_trans.
    - right. intros k j Hkj Hj.
      apply (StronglySorted_nth (fun a b => b <= a) closes 0); try assumption.
      apply Sorted_StronglySorted; [|exact Hdown].
      intros a b c Hab Hbc. eapply Qle_trans; eassumption. }
  assert (Hpeaks : local_maxima_1d (map fl closes) = []
                   /\ local_maxima_1d (map fneg (map fl closes)) = []).
  { rewrite fneg_fl. destruct Hup_down as [Hup|Hdown]; split.
    - apply local_maxima_never_falls, Hup.
    - apply local_maxima_never_rises. intros k j Hkj Hj. rewrite length_map in Hj.
      rewrite !nth_opp by lia. specialize (Hup k j Hkj Hj). lra.
    - apply local_maxima_never_rises, Hdown.
    - apply local_maxima_never_falls. intros k j Hkj Hj. rewrite length_map in Hj.
      rewrite !nth_opp by lia. specialize (Hdown k j Hkj Hj). lra. }
  destruct Hpeaks as [Hp Ht].
  rewrite (find_peaks_no_local_maximum _ _ _ Hw Hp) in Hr.
  rewrite (find_peaks_no_local_maximum _ _ _ Hw Ht) in Hs.
  inversion Hr; inversion Hs; subst ridx sidx.
  rewrite Hse, Hre in Hres by reflexivity. exact Hres.
Qed.

Lemma rising30_never_falls : Sorted Qle rising30.
Proof.
  unfold rising30. simpl.
  repeat (apply Sorted_cons; [|first [apply HdRel_nil | apply HdRel_cons; discriminate]]).
  apply Sorted_nil.
Qed.

Lemma find_support_resistance_one_way_witness :
  find_support_resistance (close_frame rising30) 10 (1 # 2) = Ok ([], []).
Proof.
  apply (find_support_resistance_one_way (close_frame rising30) rising30 10 (1 # 2)).
  - apply numeric_close_frame.
  - lia.
  - left. exact rising30_never_falls.
Defined.

(** ** The bundle of a table with rows *)

Lemma filter_absent (k : string) (cols : list (string * column)) :
  ~ In k (map fst cols) -> filter (fun kc => String.eqb (fst kc) k) cols = [].
Proof.
  induction cols as [|[k0 c0] cols IH]; intros H; [reflexivity|].
  cbn [filter fst]. destruct (String.eqb k0 k) eqn:E.
  - apply String.eqb_eq in E. subst k0. exfalso. apply H. left. reflexivity.
  - apply IH. intros Hin. apply H. right. exact Hin.
Qed.

Lemma filter_overwritten (k : string) (c : column) (cols : list (string * column)) :
  NoDup (map fst cols) -> In k (map fst cols) ->
  filter (fun kc => String.eqb (fst kc) k)
         (map (fun kc => if String.eqb (fst kc) k then (k, c) else kc) cols)
  = [(k, c)].
Proof.
  induction cols as [|[k0 c0] cols IH]; intros Hnd Hin; [contradiction|].
  cbn [map fst] in Hnd. inversion Hnd as [|? ? Hnotin Hnd']; subst.
  cbn [map filter fst]. destruct (String.eqb k0 k) eqn:E.
  - apply String.eqb_eq in E. subst k0. cbn [fst]. rewrite String.eqb_refl. f_equal.
    assert (Hmap : map (fun kc => if String.eqb (fst kc) k then (k, c) else kc) cols = cols).
    { clear IH Hnd Hnd' Hin. induction cols as [|[k1 c1] cols IH]; [reflexivity|].
      cbn [map fst]. destruct (String.eqb k1 k) eqn:E1.
      - apply String.eqb_eq in E1. subst k1. exfalso. apply Hnotin. left. reflexivity.
      - f_equal. apply IH. intros H. apply Hnotin. right. exact H. }
    rewrite Hmap. apply filter_absent. exact Hnotin.
  - cbn [fst]. rewrite E. apply IH; [exact Hnd'|].
    destruct Hin as [Hin|Hin]; [|exact Hin].
    cbn [fst] in Hin. subst k0. rewrite String.eqb_refl in E. discriminate.
Qed.

Lemma columns_setitem (df : DataFrame) (k : string) (c : column) :
  columns (setitem df k c)
  = if mem k (columns df) then columns df else (columns df ++ [k])%list.
Proof.
  unfold setitem. unfold columns. cbn [df_columns].
  destruct (mem k (map fst (df_columns df))); cbv iota.
  - rewrite map_map. apply map_ext_in. intros [k0 c0] _. cbn [fst].
    destruct (String.eqb k0 k) eqn:E; [|reflexivity].
    apply String.eqb_eq in E. subst k0. reflexivity.
  - rewrite map_app. reflexivity.
Qed.

Lemma NoDup_setitem (df : DataFrame) (k : string) (c : column) :
  NoDup (columns df) -> NoDup (columns (setitem df k c)).
Proof.
  intros H. rewrite columns_setitem. destruct (mem k (columns df)) eqn:E; [exact H|].
  apply NoDup_app; [exact H | repeat constructor; intros [] |].
  intros x Hx [Hk|[]]. subst x. apply mem_In in Hx. congruence.
Qed.

(** What is stored under a label is what is read back. *)
Lemma getitem_setitem_same (df : DataFrame) (k : string) (c : column) :
  NoDup (columns df) -> getitem (setitem df k c) k = Ok c.
Proof.
  intros Hnd. unfold getitem, setitem. cbn [df_columns]. fold (columns df).
  destruct (mem k (columns df)) eqn:E.
  - apply mem_In in E. rewrite (filter_overwritten k c _ Hnd E). reflexivity.
  - rewrite filter_app, filter_absent.
    + cbn [filter fst app]. rewrite String.eqb_refl. reflexivity.
    + intros H. apply mem_In in H. unfold columns in E. congruence.
Qed.

Lemma numeric_setitem_same (df : DataFrame) (k : string) (s : Series) :
  NoDup (columns df) -> numeric (setitem df k (of_series s)) k = Ok s.
Proof.
  intros H. unfold numeric. rewrite getitem_setitem_same by exact H.
  cbn [bind]. apply floats_of_series.
Qed.

Lemma calculate_rsi_setitem (df : DataFrame) (k : string) (c : column) (w : nat) :
  k <> "close" -> calculate_rsi (setitem df k c) w = calculate_rsi df w.
Proof.
  intros H. unfold calculate_rsi. rewrite getitem_setitem_other by exact H. reflexivity.
Qed.

Lemma calculate_macd_setitem (df : DataFrame) (k : string) (c : column) (f s g : nat) :
  k <> "close" -> calculate_macd (setitem df k c) f s g = calculate_macd df f s g.
Proof.
  intros H. unfold calculate_macd. rewrite getitem_setitem_other by exact H. reflexivity.
Qed.

Lemma calculate_bollinger_bands_setitem (sqrt : Q -> Q) (df : DataFrame) (k : string)
    (c : column) (w : nat) (n : Q) :
  k <> "close" ->
  calculate_bollinger_bands sqrt (setitem df k c) w n
  = calculate_bollinger_bands sqrt df w n.
Proof.
  intros H. unfold calculate_bollinger_bands.
  rewrite getitem_setitem_other by exact H. reflexivity.
Qed.

Lemma find_support_resistance_setitem (df : DataFrame) (k : string) (c : column)
    (w : nat) (p : Q) :
  k <> "close" ->
  find_support_resistance (setitem df k c) w p = find_support_resistance df w p.
Proof.
  intros H. unfold find_support_resistance.
  rewrite getitem_setitem_other by exact H. reflexivity.
Qed.

Lemma calculate_macd_ok (df : DataFrame) (close : Series) (f s g : nat) :
  numeric df "close" = Ok close ->
  (1 <= f)%nat -> (1 <= s)%nat -> (1 <= g)%nat ->
  exists macd signal hist, calculate_macd df f s g = Ok (macd, signal, hist).
Proof.
  intros H Hf Hs Hg. apply numeric_inv in H. destruct H as [c [Hc Hfl]].
  unfold calculate_macd, ewm_mean. rewrite Hc. cbn [bind]. rewrite Hfl. cbn [bind].
  replace (f <? 1)%nat with false by (symmetry; apply Nat.ltb_ge; exact Hf).
  replace (s <? 1)%nat with false by (symmetry; apply Nat.ltb_ge; exact Hs).
  replace (g <? 1)%nat with false by (symmetry; apply Nat.ltb_ge; exact Hg).
  cbn [bind]. eexists; eexists; eexists; reflexivity.
Qed.

Lemma empty_with_columns (df : DataFrame) :
  df_columns df <> [] ->
  empty df = match ix_values (df_index df) with [] => true | _ => false end.
Proof.
  intros H. unfold empty. destruct (ix_values (df_index df)); [reflexivity|].
  destruct (df_columns df); [congruence | reflexivity].
Qed.

Lemma setitem_columns_nonempty (df : DataFrame) (k : string) (c : column) :
  df_columns (setitem df k c) <> [].
Proof.
  unfold setitem. cbn [df_columns]. destruct (mem k (columns df)) eqn:E.
  - apply mem_In in E. unfold columns in E.
    destruct (df_columns df); [contradiction | discriminate].
  - destruct (df_columns df); discriminate.
Qed.

Lemma empty_setitem_same (df : DataFrame) (k : string) (c : column) :
  df_columns df <> [] -> empty (setitem df k c) = empty df.
Proof.
  intros H. rewrite (empty_with_columns df H).
  rewrite (empty_with_columns _ (setitem_columns_nonempty df k c)). reflexivity.
Qed.

Lemma getitem_ok_columns (df : DataFrame) (k : string) (c : column) :
  getitem df k = Ok c -> df_columns df <> [].
Proof. unfold getitem. intros H E. rewrite E in H. discriminate. Qed.

Lemma iloc_last_last {A : Type} (l : list A) (d : A) :
  l <> [] -> iloc_last l = Ok (last l d).
Proof.
  intros H. unfold iloc_last.
  destruct (exists_last H) as [l' [a E]]. subst l.
  rewrite rev_app_distr, last_last. reflexivity.
Qed.

(** X7: on a table with distinct labels and a numeric close column that is
    not empty (or on a table without rows), [calculate_all_indicators]
    succeeds.  The columns rsi, macd, macd_signal, macd_histogram, bb_upper,
    bb_middle and bb_lower of the bundle's table hold what the four
    indicator functions compute on the input with their default parameters;
    the close column and the row index are unchanged; the levels are those
    of [find_support_resistance]; and [last_price] is the last close, or
    absent when the table has no rows. *)
Theorem calculate_all_indicators_bundle (sqrt : Q -> Q) (table : DataFrame)
    (close : Series) :
  numeric table "close" = Ok close ->
  NoDup (columns table) ->
  close <> [] \/ empty table = true ->
  exists bundle rsi macd signal hist upper middle lower support resistance,
    calculate_all_indicators sqrt table = Ok bundle /\
    calculate_rsi table 14 = Ok rsi /\
    calculate_macd table 12 26 9 = Ok (macd, signal, hist) /\
    calculate_bollinger_bands sqrt table 20 2 = Ok (upper, middle, lower) /\
    find_support_resistance table 10 (1 # 2) = Ok (support, resistance) /\
    numeric (data bundle) "rsi" = Ok rsi /\
    numeric (data bundle) "macd" = Ok macd /\
    numeric (data bundle) "macd_signal" = Ok signal /\
    numeric (data bundle) "macd_histogram" = Ok hist /\
    numeric (data bundle) "bb_upper" = Ok upper /\
    numeric (data bundle) "bb_middle" = Ok middle /\
    numeric (data bundle) "bb_lower" = Ok lower /\
    numeric (data bundle) "close" = Ok close /\
    df_index (data bundle) = df_index table /\
    support_levels bundle = support /\
    resistance_levels bundle = resistance /\
    last_price bundle = (if empty table then None else Some (last close NaN)).
Proof.
  intros Hclose Hnd Hrows.
  pose proof (calculate_rsi_unfold close 14 table Hclose) as Hrsi.
  destruct (calculate_macd_ok table close 12 26 9 Hclose) as [macd [signal [hist Hmacd]]];
    try lia.
  pose proof (calculate_bollinger_bands_unfold sqrt table close 20 2 Hclose) as Hbb.
  destruct (find_support_resistance_unfold table close 10 (1 # 2) Hclose)
    as [sidx [ridx [sl [rl [_ [_ [_ [_ [_ [_ Hlev]]]]]]]]]]; [lia|].
  pose proof Hclose as Hclose'.
  apply numeric_inv in Hclose'. destruct Hclose' as [c [Hc Hfl]].
  pose proof (getitem_ok_columns table "close" c Hc) as Hcols.
  assert (Hlast : empty table = false -> iloc_last close = Ok (last close NaN)).
  { intros Ee. destruct Hrows as [Hne|Habs]; [|congruence].
    apply iloc_last_last. exact Hne. }
  destruct (empty table) eqn:Ee;
    (eexists; eexists; exists macd, signal, hist;
     eexists; eexists; eexists; eexists; eexists;
     split;
     [ unfold calculate_all_indicators;
       rewrite Hrsi; cbn [bind];
       rewrite calculate_macd_setitem by discriminate; rewrite Hmacd; cbn [bind];
       rewrite !calculate_bollinger_bands_setitem by discriminate;
       rewrite Hbb; cbn [bind];
       rewrite !find_support_resistance_setitem by discriminate;
       rewrite Hlev; cbn [bind];
       rewrite !empty_setitem_same
         by first [exact Hcols | apply setitem_columns_nonempty];
       rewrite Ee; cbn [negb bind];
       rewrite ?getitem_setitem_other by discriminate;
       rewrite ?Hc; cbn [bind]; rewrite ?Hfl; cbn [bind];
       rewrite ?Hlast by reflexivity; cbn [bind]; reflexivity
     | cbn [data support_levels resistance_levels last_price];
       split; [exact Hrsi|]; split; [exact Hmacd|]; split; [exact Hbb|];
       split; [exact Hlev|];
       repeat split;
       rewrite ?numeric_setitem_other by discriminate;
       first [exact Hclose
             | apply numeric_setitem_same; repeat apply NoDup_setitem; exact Hnd] ]).
Qed.

Ltac distinct_labels :=
  repeat (apply NoDup_cons;
          [simpl; intros H; repeat (destruct H as [H|H]; [discriminate|]); exact H|]);
  apply NoDup_nil.

Lemma calculate_all_indicators_bundle_witness :
  exists bundle rsi macd signal hist upper middle lower support resistance,
    calculate_all_indicators sqrt_floor tiny_market = Ok bundle /\
    calculate_rsi tiny_market 14 = Ok rsi /\
    calculate_macd tiny_market 12 26 9 = Ok (macd, signal, hist) /\
    calculate_bollinger_bands sqrt_floor tiny_market 20 2 = Ok (upper, middle, lower) /\
    find_support_resistance tiny_market 10 (1 # 2) = Ok (support, resistance) /\
    numeric (data bundle) "rsi" = Ok rsi /\
    numeric (data bundle) "macd" = Ok macd /\
    numeric (data bundle) "macd_signal" = Ok signal /\
    numeric (data bundle) "macd_histogram" = Ok hist /\
    numeric (data bundle) "bb_upper" = Ok upper /\
    numeric (data bundle) "bb_middle" = Ok middle /\
    numeric (data bundle) "bb_lower" = Ok lower /\
    numeric (data bundle) "close" = Ok [fl 1901] /\
    df_index (data bundle) = df_index tiny_market /\
    support_levels bundle = support /\
    resistance_levels bundle = resistance /\
    last_price bundle
    = (if empty tiny_market then None else Some (last [fl 1901] NaN)).
Proof.
  apply (calculate_all_indicators_bundle sqrt_floor tiny_market [fl 1901]).
  - reflexivity.
  - unfold tiny_market, columns. cbn [df_columns map fst]. distinct_labels.
  - left. discriminate.
Defined.

(** ** Requests sent by the request builder *)

Lemma columns_tail (n : nat) (df : DataFrame) : columns (tail n df) = columns df.
Proof. unfold columns, tail. cbn [df_columns]. rewrite map_map. reflexivity. Qed.

Lemma getitem_absent (df : DataFrame) (k : string) :
  ~ In k (columns df) -> getitem df k = Raise (KeyError k).
Proof. intros H. unfold getitem. rewrite filter_absent by exact H. reflexivity. Qed.

Lemma numeric_absent (df : DataFrame) (k : string) :
  ~ In k (columns df) -> numeric df k = Raise (KeyError k).
Proof. intros H. unfold numeric. rewrite getitem_absent by exact H. reflexivity. Qed.

(** X8: one call of [generate_trade_signal] sends at most one request.  A
    request is sent only when the analysis is present, the market table is
    not empty and the summary could be computed, and it is the prompt built
    from them.  When the service answers and the answer parses, the reply is
    the parsed value as it is, whatever its shape. *)
Theorem generate_trade_signal_requests
    (chat_create : string -> result string)
    (json_loads : string -> result json)
    (render : MarketSummary -> string -> string -> string -> string)
    (market_data : DataFrame) (analysis_data : option Bundle) :
  (length (snd (generate_trade_signal chat_create json_loads render
                  market_data analysis_data)) <= 1)%nat /\
  (forall prompt,
      In prompt (snd (generate_trade_signal chat_create json_loads render
                        market_data analysis_data)) ->
      empty market_data = false /\
      exists analysis,
        analysis_data = Some analysis /\
        build_prompt render market_data analysis = Ok prompt) /\
  (forall analysis prompt content value,
      analysis_data = Some analysis ->
      empty market_data = false ->
      build_prompt render market_data analysis = Ok prompt ->
      chat_create prompt = Ok content ->
      json_loads content = Ok value ->
      generate_trade_signal chat_create json_loads render market_data analysis_data
      = (value, [prompt])).
Proof.
  unfold generate_trade_signal. split; [|split].
  - destruct analysis_data as [analysis|]; [|simpl; lia].
    destruct (empty market_data); [simpl; lia|].
    destruct (build_prompt render market_data analysis) as [prompt|e]; [|simpl; lia].
    destruct (bind _ _); simpl; lia.
  - intros prompt Hin.
    destruct analysis_data as [analysis|]; [|contradiction].
    destruct (empty market_data); [contradiction|].
    split; [reflexivity|]. exists analysis. split; [reflexivity|].
    destruct (build_prompt render market_data analysis) as [p|e]; [|contradiction].
    destruct (bind _ _); simpl in Hin; destruct Hin as [Hin|[]]; subst p; reflexivity.
  - intros analysis prompt content value Ha He Hb Hc Hj.
    subst analysis_data. rewrite He, Hb, Hc. cbn [bind]. rewrite Hj. reflexivity.
Qed.

Lemma generate_trade_signal_requests_witness :
  exists prompt,
    build_prompt render_plain tiny_market tiny_analysis = Ok prompt /\
    generate_trade_signal (chat_fixed "hold") json_loads_string render_plain
      tiny_market (Some tiny_analysis)
    = (JStr "hold", [prompt]).
Proof.
  eexists. split; [vm_compute; reflexivity|].
  apply (proj2 (proj2 (generate_trade_signal_requests (chat_fixed "hold")
                         json_loads_string render_plain tiny_market
                         (Some tiny_analysis)))
               tiny_analysis _ "hold" (JStr "hold")).
  - reflexivity.
  - reflexivity.
  - vm_compute. reflexivity.
  - reflexivity.
  - reflexivity.
Defined.

(** ** Incomplete input of the request builder *)

Lemma build_prompt_incomplete
    (render : MarketSummary -> string -> string -> string -> string)
    (market_data : DataFrame) (analysis : Bundle) :
  (exists k, In k ["close"; "high"; "low"] /\ ~ In k (columns market_data)) \/
  (exists k, In k ["rsi"; "macd"; "macd_signal"; "bb_upper"; "bb_lower"] /\
             ~ In k (columns (data analysis))) \/
  last_price analysis = None ->
  exists e, build_prompt render market_data analysis = Raise e.
Proof.
  intros H. unfold build_prompt.
  destruct (numeric (tail 24 market_data) "close") as [rc|e] eqn:Eclose; cbn [bind];
    [|eexists; reflexivity].
  destruct (iloc_last rc) as [cl|e]; cbn [bind]; [|eexists; reflexivity].
  destruct (iloc_first rc) as [cf|e]; cbn [bind]; [|eexists; reflexivity].
  destruct (numeric (tail 24 market_data) "high") as [rh|e] eqn:Ehigh; cbn [bind];
    [|eexists; reflexivity].
  destruct (numeric (tail 24 market_data) "low") as [rl|e] eqn:Elow; cbn [bind];
    [|eexists; reflexivity].
  destruct (last_of (data analysis) "rsi") as [rsi|e] eqn:Ersi; cbn [bind];
    [|eexists; reflexivity].
  destruct (last_of (data analysis) "macd") as [macd|e] eqn:Emacd; cbn [bind];
    [|eexists; reflexivity].
  destruct (last_of (data analysis) "macd_signal") as [sig|e] eqn:Esig; cbn [bind];
    [|eexists; reflexivity].
  destruct (last_of (data analysis) "bb_upper") as [up|e] eqn:Eup; cbn [bind];
    [|eexists; reflexivity].
  destruct (last_of (data analysis) "bb_lower") as [lo|e] eqn:Elo; cbn [bind];
    [|eexists; reflexivity].
  destruct (last_price analysis) as [price|] eqn:Eprice; [|eexists; reflexivity].
  exfalso. destruct H as [[k [Hk Hn]] | [[k [Hk Hn]] | Hl]]; [| |discriminate].
  - rewrite <- (columns_tail 24) in Hn. simpl in Hk.
    repeat (destruct Hk as [Hk|Hk];
            [subst k;
             first [rewrite numeric_absent in Eclose by exact Hn
                   | rewrite numeric_absent in Ehigh by exact Hn
                   | rewrite numeric_absent in Elow by exact Hn];
             discriminate|]).
    contradiction.
  - unfold last_of in *. simpl in Hk.
    repeat (destruct Hk as [Hk|Hk];
            [subst k;
             first [rewrite numeric_absent in Ersi by exact Hn
                   | rewrite numeric_absent in Emacd by exact Hn
                   | rewrite numeric_absent in Esig by exact Hn
                   | rewrite numeric_absent in Eup by exact Hn
                   | rewrite numeric_absent in Elo by exact Hn];
             discriminate|]).
    contradiction.
Qed.

(** X9: when the market table is not empty but lacks one of the columns
    close, high, low, or the analysed table lacks one of rsi, macd,
    macd_signal, bb_upper, bb_lower, or the bundle has no last price, the
    reply is the ERROR reply and no request is sent to the service. *)
Theorem generate_trade_signal_incomplete_input
    (chat_create : string -> result string)
    (json_loads : string -> result json)
    (render : MarketSummary -> string -> string -> string -> string)
    (market_data : DataFrame) (analysis : Bundle) :
  empty market_data = false ->
  (exists k, In k ["close"; "high"; "low"] /\ ~ In k (columns market_data)) \/
  (exists k, In k ["rsi"; "macd"; "macd_signal"; "bb_upper"; "bb_lower"] /\
             ~ In k (columns (data analysis))) \/
  last_price analysis = None ->
  exists e,
    generate_trade_signal chat_create json_loads render market_data (Some analysis)
    = (error_reply e, []) /\
    get (error_reply e) "signal" = Some (JStr "ERROR").
Proof.
  intros He Hinc.
  destruct (build_prompt_incomplete render market_data analysis Hinc) as [e Hb].
  exists e. unfold generate_trade_signal. rewrite He, Hb. split; reflexivity.
Qed.

Lemma generate_trade_signal_incomplete_input_witness :
  exists e,
    generate_trade_signal (chat_fixed "hold") json_loads_string render_plain
      (close_frame peak3) (Some tiny_analysis)
    = (error_reply e, []) /\
    get (error_reply e) "signal" = Some (JStr "ERROR").
Proof.
  apply (generate_trade_signal_incomplete_input (chat_fixed "hold") json_loads_string
           render_plain (close_frame peak3) tiny_analysis).
  - reflexivity.
  - left. exists "high". split; [simpl; tauto|].
    simpl. intros [H|[]]. discriminate.
Defined.

(** ** Labels of the prompt *)

(** X10: the three labels handed to the prompt follow the readings of the
    summary with strict thresholds: RSI is overbought above 70, oversold
    below 30 and neutral from 30 to 70; MACD is bullish only when it is
    above its signal.  A missing reading never triggers a label: a missing
    RSI is neutral, a missing MACD or signal is bearish, and with both
    Bollinger bands missing the position is middle.  The current price of
    the summary is the bundle's last price and the volatility is the high
    minus the low. *)
Theorem build_prompt_labels
    (render : MarketSummary -> string -> string -> string -> string)
    (market_data : DataFrame) (analysis : Bundle) (prompt : string) :
  build_prompt render market_data analysis = Ok prompt ->
  exists summary rsi_trend macd_trend bb_position,
    prompt = render summary rsi_trend macd_trend bb_position /\
    last_price analysis = Some (current_price summary) /\
    volatility_24h summary = fsub (high_24h summary) (low_24h summary) /\
    match current_rsi summary with
    | None => rsi_trend = "neutral"
    | Some r => (70 < r -> rsi_trend = "overbought") /\
                (r < 30 -> rsi_trend = "oversold") /\
                (30 <= r <= 70 -> rsi_trend = "neutral")
    end /\
    match current_macd summary, current_macd_signal summary with
    | Some m, Some s => (s < m -> macd_trend = "bullish") /\
                        (m <= s -> macd_trend = "bearish")
    | _, _ => macd_trend = "bearish"
    end /\
    (current_bb_upper summary = None -> current_bb_lower summary = None ->
     bb_position = "middle").
Proof.
  unfold build_prompt. intros H.
  destruct (numeric (tail 24 market_data) "close") as [rc|e]; cbn [bind] in H;
    [|discriminate].
  destruct (iloc_last rc) as [cl|e]; cbn [bind] in H; [|discriminate].
  destruct (iloc_first rc) as [cf|e]; cbn [bind] in H; [|discriminate].
  destruct (numeric (tail 24 market_data) "high") as [rh|e]; cbn [bind] in H;
    [|discriminate].
  destruct (numeric (tail 24 market_data) "low") as [rl|e]; cbn [bind] in H;
    [|discriminate].
  destruct (last_of (data analysis) "rsi") as [rsi|e]; cbn [bind] in H; [|discriminate].
  destruct (last_of (data analysis) "macd") as [macd|e]; cbn [bind] in H; [|discriminate].
  destruct (last_of (data analysis) "macd_signal") as [sig|e]; cbn [bind] in H;
    [|discriminate].
  destruct (last_of (data analysis) "bb_upper") as [up|e]; cbn [bind] in H;
    [|discriminate].
  destruct (last_of (data analysis) "bb_lower") as [lo|e]; cbn [bind] in H;
    [|discriminate].
  destruct (last_price analysis) as [price|]; [|discriminate].
  inversion H as [Hp]. clear H.
  eexists; eexists; eexists; eexists. split; [reflexivity|].
  cbn [current_price volatility_24h high_24h low_24h current_rsi current_macd
       current_macd_signal current_bb_upper current_bb_lower].
  split; [reflexivity|]. split; [reflexivity|]. split; [|split].
  - destruct rsi as [r|]; [|reflexivity]. cbn [fgt flt fl].
    destruct (Qlt_bool 70 r) eqn:E1.
    + apply Qlt_bool_true in E1. repeat split; intros; try reflexivity; lra.
    + apply Qlt_bool_false in E1. destruct (Qlt_bool r 30) eqn:E2.
      * apply Qlt_bool_true in E2. repeat split; intros; try reflexivity; lra.
      * apply Qlt_bool_false in E2. repeat split; intros; try reflexivity; lra.
  - destruct macd as [m|]; [|destruct sig; reflexivity].
    destruct sig as [s|]; [|reflexivity].
    cbn [fgt flt]. destruct (Qlt_bool s m) eqn:E.
    + apply Qlt_bool_true in E. split; intros; [reflexivity | lra].
    + apply Qlt_bool_false in E. split; intros; [lra | reflexivity].
  - intros Hu Hl. subst up lo. destruct price; reflexivity.
Qed.

Lemma build_prompt_labels_witness :
  exists summary rsi_trend macd_trend bb_position,
    "neutral bearish middle"
    = render_plain summary rsi_trend macd_trend bb_position /\
    last_price tiny_analysis = Some (current_price summary) /\
    volatility_24h summary = fsub (high_24h summary) (low_24h summary) /\
    match current_rsi summary with
    | None => rsi_trend = "neutral"
    | Some r => (70 < r -> rsi_trend = "overbought") /\
                (r < 30 -> rsi_trend = "oversold") /\
                (30 <= r <= 70 -> rsi_trend = "neutral")
    end /\
    match current_macd summary, current_macd_signal summary with
    | Some m, Some s => (s < m -> macd_trend = "bullish") /\
                        (m <= s -> macd_trend = "bearish")
    | _, _ => macd_trend = "bearish"
    end /\
    (current_bb_upper summary = None -> current_bb_lower summary = None ->
     bb_position = "middle").
Proof.
  destruct (build_prompt_labels render_plain tiny_market tiny_analysis
              "neutral bearish middle" ltac:(vm_compute; reflexivity))
    as [summary [t1 [t2 [t3 [Hp H]]]]].
  exists summary, t1, t2, t3. split; [exact Hp | exact H].
Defined.

(** ** What the normalizer asks for and what it returns *)

(** X11: the provider is only asked for the ticker GC=F and a valid
    period: two providers that agree on the valid periods give the same
    table, whatever period the caller names. *)
Theorem fetch_xauusd_data_asks_valid_period
    (download download' : string -> string -> string -> result RawFrame)
    (to_datetime : column -> result column) (period interval : string) :
  (forall p, In p valid_periods ->
             download "GC=F" p interval = download' "GC=F" p interval) ->
  fetch_xauusd_data download to_datetime period interval
  = fetch_xauusd_data download' to_datetime period interval.
Proof.
  intros H. unfold fetch_xauusd_data.
  rewrite (H (valid_period period) (valid_period_in_range period)). reflexivity.
Qed.

Lemma fetch_xauusd_data_asks_valid_period_witness :
  fetch_xauusd_data (download_valid_only raw_provider) to_datetime_basic "2d" "1h"
  = fetch_xauusd_data (download_fixed raw_provider) to_datetime_basic "2d" "1h".
Proof.
  apply fetch_xauusd_data_asks_valid_period.
  intros p Hp. unfold download_valid_only, download_fixed.
  apply mem_In in Hp. rewrite Hp. reflexivity.
Defined.

Lemma In_columns_rename_other (df : DataFrame) (old new k : string) :
  In k (columns df) -> k <> old -> In k (columns (rename df old new)).
Proof.
  intros Hin Hne. rewrite columns_rename. apply in_map_iff. exists k.
  split; [|exact Hin].
  destruct (String.eqb k old) eqn:E; [|reflexivity].
  apply String.eqb_eq in E. congruence.
Qed.

Lemma In_columns_rename_new (df : DataFrame) (old new : string) :
  In old (columns df) -> In new (columns (rename df old new)).
Proof.
  intros Hin. rewrite columns_rename. apply in_map_iff. exists old.
  split; [|exact Hin]. rewrite String.eqb_refl. reflexivity.
Qed.

Lemma In_columns_setitem (df : DataFrame) (k k' : string) (c : column) :
  In k' (columns df) -> In k' (columns (setitem df k c)).
Proof.
  intros H. rewrite columns_setitem. destruct (mem k (columns df)); [exact H|].
  apply in_or_app. left. exact H.
Qed.

Lemma In_columns_setitem_same (df : DataFrame) (k : string) (c : column) :
  In k (columns (setitem df k c)).
Proof.
  rewrite columns_setitem. destruct (mem k (columns df)) eqn:E.
  - apply mem_In. exact E.
  - apply in_or_app. right. left. reflexivity.
Qed.

Lemma holds_no_other_required (r : string) :
  In r required_columns -> holds_no_other r.
Proof.
  intros Hr req Hreq Hne. apply required_disjoint; [exact Hreq | exact Hr | congruence].
Qed.

Lemma holds_no_other_date : holds_no_other "date".
Proof.
  intros req Hreq _. unfold required_columns in Hreq. simpl in Hreq.
  repeat (destruct Hreq as [Hreq|Hreq]; [subst req; reflexivity|]). contradiction.
Qed.

Lemma lower_required (r : string) : In r required_columns -> lower r = r.
Proof.
  unfold required_columns. simpl. intros H.
  repeat (destruct H as [H|H]; [subst r; reflexivity|]). contradiction.
Qed.

Lemma case_insensitive_fold_keeps (k : string) (actual reqs : list string)
    (df : DataFrame) :
  lower k = k -> In k (columns df) ->
  In k (columns
          (fold_left
             (fun df req_col =>
                if negb (mem req_col actual) then
                  match find (fun col => String.eqb req_col (lower col)) actual with
                  | Some col => rename df col req_col
                  | None => df
                  end
                else df)
             reqs df)).
Proof.
  intros Hlow. revert df. induction reqs as [|r reqs IH]; intros df Hin; [exact Hin|].
  cbn [fold_left]. apply IH.
  destruct (negb (mem r actual)) eqn:Em; [|exact Hin].
  destruct (find (fun col => String.eqb r (lower col)) actual) as [col|] eqn:Ef;
    [|exact Hin].
  apply find_some in Ef. destruct Ef as [Hcol E]. apply String.eqb_eq in E.
  apply In_columns_rename_other; [exact Hin|].
  intros Ek. subst col. rewrite Hlow in E. subst r.
  apply negb_true_iff in Em. apply mem_In in Hcol. congruence.
Qed.

Lemma case_insensitive_keeps (k : string) (df : DataFrame) :
  lower k = k -> In k (columns df) -> In k (columns (match_case_insensitive df)).
Proof.
  intros Hlow Hin. unfold match_case_insensitive.
  apply case_insensitive_fold_keeps; assumption.
Qed.

Lemma substring_step_keeps (k : string) (todo : list string) (df : DataFrame)
    (missing : list string) :
  holds_no_other k ->
  (forall r, In r todo -> In r required_columns) ->
  In k (columns df) ->
  In k (columns (fst (fold_left
     (fun st req_col =>
        let '(df, missing) := st in
        match filter (fun col => str_in req_col (lower col)) (columns df) with
        | matching_col :: _ => (rename df matching_col req_col, remove_first req_col missing)
        | [] => (df, missing)
        end) todo (df, missing)))).
Proof.
  intros Hk. revert df missing. induction todo as [|r todo IH]; intros df missing Htodo Hin;
    [exact Hin|].
  cbn [fold_left].
  destruct (filter (fun col => str_in r (lower col)) (columns df)) as [|m ms] eqn:Ef.
  - apply IH; [intros r' Hr'; apply Htodo; right; exact Hr' | exact Hin].
  - assert (Hm : In m (columns df) /\ str_in r (lower m) = true).
    { apply (proj1 (filter_In (fun col => str_in r (lower col)) m (columns df))).
      rewrite Ef. left. reflexivity. }
    destruct Hm as [Hm1 Hm2].
    apply IH; [intros r' Hr'; apply Htodo; right; exact Hr'|].
    destruct (String.eqb r k) eqn:Er.
    + apply String.eqb_eq in Er. subst r. apply In_columns_rename_new. exact Hm1.
    + apply String.eqb_neq in Er. apply In_columns_rename_other; [exact Hin|].
      intros E. subst m. rewrite (Hk r) in Hm2; [discriminate | | exact Er].
      apply Htodo. left. reflexivity.
Qed.

Lemma substring_step_resolves (k : string) (todo : list string) (df : DataFrame)
    (missing : list string) :
  holds_no_other k ->
  (forall r, In r todo -> In r required_columns) ->
  In k (columns df) \/ In k missing ->
  In k (columns (fst (fold_left
     (fun st req_col =>
        let '(df, missing) := st in
        match filter (fun col => str_in req_col (lower col)) (columns df) with
        | matching_col :: _ => (rename df matching_col req_col, remove_first req_col missing)
        | [] => (df, missing)
        end) todo (df, missing)))) \/
  In k (snd (fold_left
     (fun st req_col =>
        let '(df, missing) := st in
        match filter (fun col => str_in req_col (lower col)) (columns df) with
        | matching_col :: _ => (rename df matching_col req_col, remove_first req_col missing)
        | [] => (df, missing)
        end) todo (df, missing))).
Proof.
  intros Hk. revert df missing. induction todo as [|r todo IH]; intros df missing Htodo Hin;
    [exact Hin|].
  cbn [fold_left].
  destruct (filter (fun col => str_in r (lower col)) (columns df)) as [|m ms] eqn:Ef.
  - apply IH; [intros r' Hr'; apply Htodo; right; exact Hr' | exact Hin].
  - assert (Hm : In m (columns df) /\ str_in r (lower m) = true).
    { apply (proj1 (filter_In (fun col => str_in r (lower col)) m (columns df))).
      rewrite Ef. left. reflexivity. }
    destruct Hm as [Hm1 Hm2].
    apply IH; [intros r' Hr'; apply Htodo; right; exact Hr'|].
    destruct (String.eqb r k) eqn:Er.
    + apply String.eqb_eq in Er. subst r. left. apply In_columns_rename_new. exact Hm1.
    + apply String.eqb_neq in Er. destruct Hin as [Hin|Hin].
      * left. apply In_columns_rename_other; [exact Hin|].
        intros E. subst m. rewrite (Hk r) in Hm2; [discriminate | | exact Er].
        apply Htodo. left. reflexivity.
      * right. apply In_remove_first_other; [exact Hin | congruence].
Qed.

(** When the resolution of the columns succeeds, the five required columns
    are there, and a date column that was there still is. *)
Lemma resolve_columns_ok (df resolved : DataFrame) :
  resolve_columns df = Ok resolved ->
  (forall r, In r required_columns -> In r (columns resolved)) /\
  (In "date" (columns df) -> In "date" (columns resolved)).
Proof.
  unfold resolve_columns.
  set (df1 := match_case_insensitive df).
  set (missing0 := filter (fun c => negb (mem c (columns df1))) required_columns).
  assert (Htodo : forall r, In r missing0 -> In r required_columns).
  { intros r Hr. apply filter_In in Hr. tauto. }
  assert (H0 : forall r, In r required_columns -> In r (columns df1) \/ In r missing0).
  { intros r Hr. destruct (mem r (columns df1)) eqn:E.
    - left. apply mem_In. exact E.
    - right. apply filter_In. split; [exact Hr|]. rewrite E. reflexivity. }
  assert (Hd0 : In "date" (columns df) -> In "date" (columns df1)).
  { apply case_insensitive_keeps. reflexivity. }
  assert (H1 : exists df2 missing2,
             match missing0 with
             | [] => (df1, missing0)
             | _ :: _ => match_substring df1 missing0
             end = (df2, missing2) /\
             (forall r, In r required_columns -> In r (columns df2) \/ In r missing2) /\
             (In "date" (columns df) -> In "date" (columns df2))).
  { destruct missing0 as [|m ms] eqn:Em.
    - exists df1, []. repeat split; assumption.
    - unfold match_substring.
      destruct (fold_left _ (m :: ms) (df1, m :: ms)) as [df2 missing2] eqn:Ef.
      exists df2, missing2. split; [reflexivity|]. split.
      + intros r Hr.
        pose proof (substring_step_resolves r (m :: ms) df1 (m :: ms)
                      (holds_no_other_required r Hr) Htodo (H0 r Hr)) as Hres.
        rewrite Ef in Hres. exact Hres.
      + intros Hdate.
        pose proof (substring_step_keeps "date" (m :: ms) df1 (m :: ms)
                      holds_no_other_date Htodo (Hd0 Hdate)) as Hres.
        rewrite Ef in Hres. exact Hres. }
  destruct H1 as [df2 [missing2 [E1 [H2 Hd2]]]]. rewrite E1.
  destruct missing2 as [|m2 ms2].
  { intros H. inversion H. subst resolved. split; [|exact Hd2].
    intros r Hr. destruct (H2 r Hr) as [Hin|[]]. exact Hin. }
  destruct (mem "close" (m2 :: ms2) && mem "adj_close" (columns df2)) eqn:Ea.
  - apply andb_true_iff in Ea. destruct Ea as [_ Ea]. apply mem_In in Ea.
    destruct (remove_first "close" (m2 :: ms2)) as [|m3 ms3] eqn:Er; [|discriminate].
    intros H. inversion H. subst resolved. split.
    + intros r Hr. destruct (String.eqb r "close") eqn:Ec.
      * apply String.eqb_eq in Ec. subst r. apply In_columns_rename_new. exact Ea.
      * apply String.eqb_neq in Ec. destruct (H2 r Hr) as [Hin|Hin].
        -- apply In_columns_rename_other; [exact Hin|].
           intros E. subst r. unfold required_columns in Hr. simpl in Hr.
           repeat (destruct Hr as [Hr|Hr]; [discriminate|]). contradiction.
        -- pose proof (In_remove_first_other r "close" _ Hin Ec) as Habs.
           rewrite Er in Habs. contradiction.
    + intros Hdate. apply In_columns_rename_other; [apply Hd2; exact Hdate | discriminate].
  - discriminate.
Qed.

Lemma resolve_date_ok (to_datetime : column -> result column) (df dated : DataFrame) :
  resolve_date to_datetime df = Ok dated -> In "date" (columns dated).
Proof.
  unfold resolve_date.
  destruct (if mem "date" (columns df) then (Some "date", df)
            else if mem "datetime" (columns df)
                 then (Some "datetime", rename df "datetime" "date")
                 else match find_time_column df with
                      | Some col => (Some col, rename df col "date")
                      | None => (None, df)
                      end) as [[date_col|] df'].
  - destruct (getitem df' "date") as [c|e]; [|discriminate]. cbn [bind].
    destruct (to_datetime c) as [parsed|e]; [|discriminate]. cbn [bind].
    intros H. inversion H. apply In_columns_setitem_same.
  - destruct (ix_datetime (df_index df')); [|discriminate].
    intros H. inversion H. apply In_columns_setitem_same.
Qed.

Lemma add_changes_ok (df changed : DataFrame) :
  add_changes df = Ok changed ->
  (forall k, In k (columns df) -> In k (columns changed)) /\
  In "price_change" (columns changed) /\
  In "percent_change" (columns changed) /\
  exists close, numeric changed "close" = Ok close.
Proof.
  unfold add_changes.
  destruct (getitem df "close") as [c|e]; [|discriminate]. cbn [bind].
  destruct (floats c) as [close|e]; [|discriminate]. cbn [bind].
  destruct (getitem (setitem df "price_change" (of_series (diff close))) "close")
    as [c'|e] eqn:Ec; [|discriminate]. cbn [bind].
  destruct (floats c') as [close'|e] eqn:Ef; [|discriminate]. cbn [bind].
  intros H. inversion H. split; [|split; [|split]].
  - intros k Hk. apply In_columns_setitem, In_columns_setitem. exact Hk.
  - apply In_columns_setitem, In_columns_setitem_same.
  - apply In_columns_setitem_same.
  - exists close'. rewrite numeric_setitem_other by discriminate.
    unfold numeric. rewrite Ec. cbn [bind]. exact Ef.
Qed.

Lemma normalize_ok (to_datetime : column -> result column) (raw : RawFrame)
    (df : DataFrame) :
  normalize to_datetime raw = Ok df ->
  Forall (fun c => In c (columns df))
         ["date"; "open"; "high"; "low"; "close"; "volume";
          "price_change"; "percent_change"] /\
  exists close, numeric df "close" = Ok close.
Proof.
  unfold normalize.
  destruct (prepare raw) as [df0|e]; [|discriminate]. cbn [bind].
  destruct (resolve_date to_datetime df0) as [df1|e] eqn:Ed; [|discriminate]. cbn [bind].
  destruct (resolve_columns df1) as [df2|e] eqn:Ec; [|discriminate]. cbn [bind].
  intros Ha.
  apply resolve_date_ok in Ed. apply resolve_columns_ok in Ec. destruct Ec as [Hreq Hdate].
  apply add_changes_ok in Ha. destruct Ha as [Hkeep [Hp [Hpc Hnum]]].
  split; [|exact Hnum].
  repeat (apply Forall_cons;
          [first [exact Hp | exact Hpc
                 | apply Hkeep; first [apply Hdate; exact Ed
                                      | apply Hreq; simpl; tauto]]|]).
  apply Forall_nil.
Qed.

Lemma fetch_xauusd_data_cases
    (download : string -> string -> string -> result RawFrame)
    (to_datetime : column -> result column) (period interval : string) :
  fetch_xauusd_data download to_datetime period interval = empty_frame \/
  exists raw,
    normalize to_datetime raw
    = Ok (fetch_xauusd_data download to_datetime period interval).
Proof.
  unfold fetch_xauusd_data.
  destruct (download "GC=F" (valid_period period) interval) as [raw|e]; cbn [bind];
    [|left; reflexivity].
  destruct (normalize to_datetime raw) as [df|e] eqn:E; [|left; reflexivity].
  right. exists raw. exact E.
Qed.

(** X12: whatever the provider does, the table returned by
    [fetch_xauusd_data] has the columns date, open, high, low, close and
    volume, and its close column is a single column of numbers. *)
Theorem fetch_xauusd_data_columns
    (download : string -> string -> string -> result RawFrame)
    (to_datetime : column -> result column) (period interval : string) :
  Forall (fun c => In c (columns (fetch_xauusd_data download to_datetime period interval)))
         ["date"; "open"; "high"; "low"; "close"; "volume"] /\
  exists close,
    numeric (fetch_xauusd_data download to_datetime period interval) "close" = Ok close.
Proof.
  destruct (fetch_xauusd_data_cases download to_datetime period interval) as [E|[raw E]].
  - rewrite E. split; [|exists []; reflexivity].
    repeat (apply Forall_cons; [simpl; tauto|]). apply Forall_nil.
  - apply normalize_ok in E. destruct E as [Hcols Hnum]. split; [|exact Hnum].
    repeat (match goal with
            | H : Forall _ (_ :: _) |- _ => inversion H; subst; clear H
            end).
    repeat (apply Forall_cons; [assumption|]). apply Forall_nil.
Qed.

(** X13: the indicator functions never fail on a table returned by
    [fetch_xauusd_data]: RSI and the Bollinger bands for every window of at
    least 0, MACD for spans of at least 1 and the level detector for a
    window of at least 1.  The windows are natural numbers: a negative
    window, which pandas rejects, is not among them. *)
Theorem indicators_succeed_on_fetched_table
    (download : string -> string -> string -> result RawFrame)
    (to_datetime : column -> result column) (period interval : string)
    (sqrt : Q -> Q) (rsi_window bb_window fast slow signal level_window : nat)
    (num_std prominence : Q) :
  (1 <= fast)%nat -> (1 <= slow)%nat -> (1 <= signal)%nat -> (1 <= level_window)%nat ->
  (exists rsi,
      calculate_rsi (fetch_xauusd_data download to_datetime period interval) rsi_window
      = Ok rsi) /\
  (exists macd,
      calculate_macd (fetch_xauusd_data download to_datetime period interval)
        fast slow signal = Ok macd) /\
  (exists bands,
      calculate_bollinger_bands sqrt
        (fetch_xauusd_data download to_datetime period interval) bb_window num_std
      = Ok bands) /\
  (exists levels,
      find_support_resistance (fetch_xauusd_data download to_datetime period interval)
        level_window prominence = Ok levels).
Proof.
  intros Hf Hs Hg Hw.
  destruct (fetch_xauusd_data_cases download to_datetime period interval) as [E|[raw E]].
  - rewrite E.
    assert (Hc : numeric empty_frame "close" = Ok []) by reflexivity.
    split; [eexists; apply (calculate_rsi_unfold [] _ _ Hc)|].
    split; [destruct (calculate_macd_ok _ _ fast slow signal Hc Hf Hs Hg)
              as [m [s [h Hm]]]; eexists; exact Hm|].
    split; [eexists; apply (calculate_bollinger_bands_unfold sqrt _ _ _ _ Hc)|].
    destruct (find_support_resistance_unfold _ _ level_window prominence Hc Hw)
      as [? [? [? [? [_ [_ [_ [_ [_ [_ Hl]]]]]]]]]].
    eexists; exact Hl.
  - apply normalize_ok in E. destruct E as [_ [close Hc]].
    split; [eexists; apply (calculate_rsi_unfold close _ _ Hc)|].
    split; [destruct (calculate_macd_ok _ _ fast slow signal Hc Hf Hs Hg)
              as [m [s [h Hm]]]; eexists; exact Hm|].
    split; [eexists; apply (calculate_bollinger_bands_unfold sqrt _ _ _ _ Hc)|].
    destruct (find_support_resistance_unfold _ _ level_window prominence Hc Hw)
      as [? [? [? [? [_ [_ [_ [_ [_ [_ Hl]]]]]]]]]].
    eexists; exact Hl.
Qed.

Lemma indicators_succeed_on_fetched_table_witness :
  empty (fetch_xauusd_data (download_fixed raw_provider) to_datetime_basic "2d" "1h")
  = false /\
  (exists rsi,
      calculate_rsi (fetch_xauusd_data (download_fixed raw_provider) to_datetime_basic
                       "2d" "1h") 14 = Ok rsi) /\
  (exists macd,
      calculate_macd (fetch_xauusd_data (download_fixed raw_provider) to_datetime_basic
                        "2d" "1h") 12 26 9 = Ok macd) /\
  (exists bands,
      calculate_bollinger_bands sqrt_floor
        (fetch_xauusd_data (download_fixed raw_provider) to_datetime_basic "2d" "1h")
        20 2 = Ok bands) /\
  (exists levels,
      find_support_resistance
        (fetch_xauusd_data (download_fixed raw_provider) to_datetime_basic "2d" "1h")
        10 (1 # 2) = Ok levels).
Proof.
  split; [vm_compute; reflexivity|].
  apply (indicators_succeed_on_fetched_table (download_fixed raw_provider)
           to_datetime_basic "2d" "1h" sqrt_floor 14 20 12 26 9 10 2 (1 # 2)); lia.
Defined.

(** ** The provider's tables *)

(** X14: a two-level table as the provider sends it for one ticker (fields
    Close, High, Low, Open, Volume over the ticker, rows indexed by Date or
    Datetime) is normalized into the table with the parsed index as column
    date, the five fields under their lowercase names with their values
    unchanged, the two derived columns, and a fresh range index. *)
Theorem normalize_provider_table
    (to_datetime : column -> result column)
    (name ticker : string) (is_datetime : bool)
    (rows parsed close high low open volume : column) (closes : Series) :
  In name ["Date"; "Datetime"] ->
  rows <> [] ->
  to_datetime rows = Ok parsed ->
  floats close = Ok closes ->
  normalize to_datetime
    (mkRaw (mkIndex (Some name) is_datetime rows)
       (MultiIndex [["Close"; ticker]; ["High"; ticker]; ["Low"; ticker];
                    ["Open"; ticker]; ["Volume"; ticker]])
       [close; high; low; open; volume])
  = Ok (mkFrame (RangeIndex (length rows))
          [("date", parsed); ("close", close); ("high", high); ("low", low);
           ("open", open); ("volume", volume);
           ("price_change", of_series (diff closes));
           ("percent_change",
            of_series (map (fun x => fmul x (fl 100)) (pct_change closes)))]).
Proof.
  intros Hname Hrows Hparse Hclose.
  set (prepared :=
         mkFrame (RangeIndex (length rows))
           [(replace_space (lower name), rows); ("close", close); ("high", high);
            ("low", low); ("open", open); ("volume", volume)]).
  set (dated :=
         mkFrame (RangeIndex (length rows))
           [("date", parsed); ("close", close); ("high", high);
            ("low", low); ("open", open); ("volume", volume)]).
  assert (Hp : prepare
                 (mkRaw (mkIndex (Some name) is_datetime rows)
                    (MultiIndex [["Close"; ticker]; ["High"; ticker]; ["Low"; ticker];
                                 ["Open"; ticker]; ["Volume"; ticker]])
                    [close; high; low; open; volume])
               = Ok prepared).
  { destruct rows as [|r rows]; [congruence|].
    simpl in Hname. destruct Hname as [E|[E|[]]]; subst name; reflexivity. }
  assert (Hd : resolve_date to_datetime prepared = Ok dated).
  { simpl in Hname. destruct Hname as [E|[E|[]]]; subst name.
    - unfold resolve_date.
      replace (mem "date" (columns prepared)) with true by reflexivity.
      cbv beta iota zeta.
      replace (getitem prepared "date") with (Ok rows) by reflexivity.
      cbn [bind]. rewrite Hparse. reflexivity.
    - unfold resolve_date.
      replace (mem "date" (columns prepared)) with false by reflexivity.
      replace (mem "datetime" (columns prepared)) with true by reflexivity.
      cbv beta iota zeta.
      replace (getitem (rename prepared "datetime" "date") "date")
        with (Ok rows) by reflexivity.
      cbn [bind]. rewrite Hparse. reflexivity. }
  assert (Hc : resolve_columns dated = Ok dated) by reflexivity.
  unfold normalize. rewrite Hp. cbn [bind]. rewrite Hd. cbn [bind].
  rewrite Hc. cbn [bind].
  unfold add_changes.
  replace (getitem dated "close") with (Ok close) by reflexivity.
  cbn [bind]. rewrite Hclose. cbn [bind].
  replace (getitem (setitem dated "price_change" (of_series (diff closes))) "close")
    with (Ok close) by reflexivity.
  cbn [bind]. rewrite Hclose. reflexivity.
Qed.

Lemma normalize_provider_table_witness :
  normalize to_datetime_basic raw_provider
  = Ok (mkFrame (RangeIndex 2)
          [("date", [CTime 0; CTime 3600]);
           ("close", [CNum (fl 1901); CNum (fl 1902)]);
           ("high", [CNum (fl 1905); CNum (fl 1906)]);
           ("low", [CNum (fl 1895); CNum (fl 1896)]);
           ("open", [CNum (fl 1900); CNum (fl 1901)]);
           ("volume", [CNum (fl 10); CNum (fl 20)]);
           ("price_change", of_series (diff [fl 1901; fl 1902]));
           ("percent_change",
            of_series (map (fun x => fmul x (fl 100)) (pct_change [fl 1901; fl 1902])))]).
Proof.
  apply (normalize_provider_table to_datetime_basic "Datetime" "GC=F" true
           [CTime 0; CTime 3600] [CTime 0; CTime 3600]
           [CNum (fl 1901); CNum (fl 1902)] [CNum (fl 1905); CNum (fl 1906)]
           [CNum (fl 1895); CNum (fl 1896)] [CNum (fl 1900); CNum (fl 1901)]
           [CNum (fl 10); CNum (fl 20)] [fl 1901; fl 1902]).
  - simpl; tauto.
  - discriminate.
  - reflexivity.
  - reflexivity.
Defined.

(** X15: a table that carries the adjusted close in place of the close
    (labels Open, High, Low, Adj Close, Volume, rows indexed by Date or
    Datetime) is normalized with the adjusted close as its close column:
    the label adj_close contains the name close. *)
Theorem normalize_adjusted_close
    (to_datetime : column -> result column)
    (name : string) (is_datetime : bool)
    (rows parsed open high low adj_close volume : column) (closes : Series) :
  In name ["Date"; "Datetime"] ->
  rows <> [] ->
  to_datetime rows = Ok parsed ->
  floats adj_close = Ok closes ->
  normalize to_datetime
    (mkRaw (mkIndex (Some name) is_datetime rows)
       (FlatIndex ["Open"; "High"; "Low"; "Adj Close"; "Volume"])
       [open; high; low; adj_close; volume])
  = Ok (mkFrame (RangeIndex (length rows))
          [("date", parsed); ("open", open); ("high", high); ("low", low);
           ("close", adj_close); ("volume", volume);
           ("price_change", of_series (diff closes));
           ("percent_change",
            of_series (map (fun x => fmul x (fl 100)) (pct_change closes)))]).
Proof.
  intros Hname Hrows Hparse Hclose.
  set (prepared :=
         mkFrame (RangeIndex (length rows))
           [(replace_space (lower name), rows); ("open", open); ("high", high);
            ("low", low); ("adj_close", adj_close); ("volume", volume)]).
  set (dated :=
         mkFrame (RangeIndex (length rows))
           [("date", parsed); ("open", open); ("high", high);
            ("low", low); ("adj_close", adj_close); ("volume", volume)]).
  set (resolved :=
         mkFrame (RangeIndex (length rows))
           [("date", parsed); ("open", open); ("high", high);
            ("low", low); ("close", adj_close); ("volume", volume)]).
  assert (Hp : prepare
                 (mkRaw (mkIndex (Some name) is_datetime rows)
                    (FlatIndex ["Open"; "High"; "Low"; "Adj Close"; "Volume"])
                    [open; high; low; adj_close; volume])
               = Ok prepared).
  { destruct rows as [|r rows]; [congruence|].
    simpl in Hname. destruct Hname as [E|[E|[]]]; subst name; reflexivity. }
  assert (Hd : resolve_date to_datetime prepared = Ok dated).
  { simpl in Hname. destruct Hname as [E|[E|[]]]; subst name.
    - unfold resolve_date.
      replace (mem "date" (columns prepared)) with true by reflexivity.
      cbv beta iota zeta.
      replace (getitem prepared "date") with (Ok rows) by reflexivity.
      cbn [bind]. rewrite Hparse. reflexivity.
    - unfold resolve_date.
      replace (mem "date" (columns prepared)) with false by reflexivity.
      replace (mem "datetime" (columns prepared)) with true by reflexivity.
      cbv beta iota zeta.
      replace (getitem (rename prepared "datetime" "date") "date")
        with (Ok rows) by reflexivity.
      cbn [bind]. rewrite Hparse. reflexivity. }
  assert (Hc : resolve_columns dated = Ok resolved) by reflexivity.
  unfold normalize. rewrite Hp. cbn [bind]. rewrite Hd. cbn [bind].
  rewrite Hc. cbn [bind].
  unfold add_changes.
  replace (getitem resolved "close") with (Ok adj_close) by reflexivity.
  cbn [bind]. rewrite Hclose. cbn [bind].
  replace (getitem (setitem resolved "price_change" (of_series (diff closes))) "close")
    with (Ok adj_close) by reflexivity.
  cbn [bind]. rewrite Hclose. reflexivity.
Qed.

Lemma normalize_adjusted_close_witness :
  normalize to_datetime_basic
    (mkRaw (mkIndex (Some "Date") true [CTime 0; CTime 86400])
       (FlatIndex ["Open"; "High"; "Low"; "Adj Close"; "Volume"])
       [[CNum (fl 1900); CNum (fl 1901)]; [CNum (fl 1905); CNum (fl 1906)];
        [CNum (fl 1895); CNum (fl 1896)]; [CNum (fl 1901); CNum (fl 1902)];
        [CNum (fl 10); CNum (fl 20)]])
  = Ok (mkFrame (RangeIndex 2)
          [("date", [CTime 0; CTime 86400]);
           ("open", [CNum (fl 1900); CNum (fl 1901)]);
           ("high", [CNum (fl 1905); CNum (fl 1906)]);
           ("low", [CNum (fl 1895); CNum (fl 1896)]);
           ("close", [CNum (fl 1901); CNum (fl 1902)]);
           ("volume", [CNum (fl 10); CNum (fl 20)]);
           ("price_change", of_series (diff [fl 1901; fl 1902]));
           ("percent_change",
            of_series (map (fun x => fmul x (fl 100)) (pct_change [fl 1901; fl 1902])))]).
Proof.
  apply (normalize_adjusted_close to_datetime_basic "Date" true
           [CTime 0; CTime 86400] [CTime 0; CTime 86400]
           [CNum (fl 1900); CNum (fl 1901)] [CNum (fl 1905); CNum (fl 1906)]
           [CNum (fl 1895); CNum (fl 1896)] [CNum (fl 1901); CNum (fl 1902)]
           [CNum (fl 10); CNum (fl 20)] [fl 1901; fl 1902]).
  - simpl; tauto.
  - discriminate.
  - reflexivity.
  - reflexivity.
Defined.

(** ** The last attempt of the column resolution *)

Lemma In_remove_first_sub (x y : string) (l : list string) :
  In x (remove_first y l) -> In x l.
Proof.
  induction l as [|z l IH]; simpl; [tauto|].
  destruct (String.eqb z y); [tauto|]. simpl. intros [H|H]; [left | right]; auto.
Qed.

Lemma NoDup_remove_first (y : string) (l : list string) :
  NoDup l -> NoDup (remove_first y l) /\ ~ In y (remove_first y l).
Proof.
  induction 1 as [|z l Hz Hl [IH1 IH2]]; simpl; [split; [constructor | tauto]|].
  destruct (String.eqb z y) eqn:E.
  - apply String.eqb_eq in E. subst z. split; assumption.
  - apply String.eqb_neq in E. split.
    + constructor; [|exact IH1]. intros H. apply Hz. eapply In_remove_first_sub. exact H.
    + simpl. intros [H|H]; [congruence | contradiction].
Qed.

Lemma substring_step_close (todo : list string) (df : DataFrame) (missing : list string) :
  NoDup missing ->
  (forall r, In r todo -> In r required_columns) ->
  ~ In "close" missing \/
  (forall col, In col (columns df) -> str_in "close" (lower col) = false) \/
  In "close" todo ->
  ~ In "close" (snd (fold_left
       (fun st req_col =>
          let '(df, missing) := st in
          match filter (fun col => str_in req_col (lower col)) (columns df) with
          | matching_col :: _ => (rename df matching_col req_col, remove_first req_col missing)
          | [] => (df, missing)
          end) todo (df, missing))) \/
  (forall col,
      In col (columns (fst (fold_left
       (fun st req_col =>
          let '(df, missing) := st in
          match filter (fun col => str_in req_col (lower col)) (columns df) with
          | matching_col :: _ => (rename df matching_col req_col, remove_first req_col missing)
          | [] => (df, missing)
          end) todo (df, missing)))) ->
      str_in "close" (lower col) = false).
Proof.
  revert df missing. induction todo as [|r todo IH]; intros df missing Hnd Htodo Hinv.
  - cbn [fold_left fst snd]. destruct Hinv as [H|[H|[]]]; [left | right]; exact H.
  - cbn [fold_left].
    assert (Hrest : forall r', In r' todo -> In r' required_columns)
      by (intros r' Hr'; apply Htodo; right; exact Hr').
    assert (Hr : In r required_columns) by (apply Htodo; left; reflexivity).
    destruct (filter (fun col => str_in r (lower col)) (columns df)) as [|m ms] eqn:Ef.
    + apply IH; [exact Hnd | exact Hrest|].
      destruct Hinv as [H|[H|[H|H]]]; [left; exact H | right; left; exact H | |
                                       right; right; exact H].
      subst r. right. left. intros col Hcol.
      destruct (str_in "close" (lower col)) eqn:E; [|reflexivity].
      assert (Hf : In col (filter (fun col => str_in "close" (lower col)) (columns df)))
        by (apply filter_In; split; assumption).
      rewrite Ef in Hf. contradiction.
    + destruct (NoDup_remove_first r missing Hnd) as [Hnd' Hgone].
      apply IH; [exact Hnd' | exact Hrest|].
      destruct Hinv as [H|[H|[H|H]]].
      * left. intros Hin. apply H. eapply In_remove_first_sub. exact Hin.
      * assert (Hne : r <> "close").
        { intros E. subst r.
          assert (Hm : In m (filter (fun col => str_in "close" (lower col)) (columns df)))
            by (rewrite Ef; left; reflexivity).
          apply filter_In in Hm. destruct Hm as [Hm1 Hm2].
          rewrite (H m Hm1) in Hm2. discriminate. }
        right. left. apply (clean_rename "close"); [exact H|].
        apply (required_disjoint "close"); [simpl; tauto | exact Hr | exact Hne].
      * subst r. left. exact Hgone.
      * right. right. exact H.
Qed.

Lemma adjusted_close_condition_false (df : DataFrame) :
  mem "close"
      (snd (match_substring (match_case_insensitive df)
              (filter (fun c => negb (mem c (columns (match_case_insensitive df))))
                      required_columns)))
  && mem "adj_close"
       (columns (fst (match_substring (match_case_insensitive df)
                        (filter (fun c => negb (mem c (columns (match_case_insensitive df))))
                                required_columns))))
  = false.
Proof.
  set (df1 := match_case_insensitive df).
  set (missing := filter (fun c => negb (mem c (columns df1))) required_columns).
  assert (Hnd : NoDup missing).
  { apply NoDup_filter. unfold required_columns. distinct_labels. }
  assert (Htodo : forall r, In r missing -> In r required_columns).
  { intros r Hr. apply filter_In in Hr. tauto. }
  assert (Hinv : ~ In "close" missing \/
                 (forall col, In col (columns df1) -> str_in "close" (lower col) = false) \/
                 In "close" missing).
  { destruct (mem "close" missing) eqn:E.
    - right. right. apply mem_In. exact E.
    - left. intros H. apply mem_In in H. congruence. }
  unfold match_substring.
  destruct (substring_step_close missing df1 missing Hnd Htodo Hinv) as [H|H].
  - apply andb_false_iff. left.
    destruct (mem "close" _) eqn:E; [|reflexivity].
    apply mem_In in E. contradiction.
  - apply andb_false_iff. right.
    destruct (mem "adj_close" _) eqn:E; [|reflexivity].
    apply mem_In in E. apply H in E. discriminate.
Qed.

(** X16: the last attempt of the column resolution, which would take
    adj_close for a close that is still missing after the substring pass,
    never applies, because a column adj_close is already matched by the
    name close: its condition is false after every substring pass, and the
    resolution succeeds exactly when that pass leaves nothing missing. *)
Theorem adjusted_close_fallback_never_applies (df : DataFrame) :
  mem "close"
      (snd (match_substring (match_case_insensitive df)
              (filter (fun c => negb (mem c (columns (match_case_insensitive df))))
                      required_columns)))
  && mem "adj_close"
       (columns (fst (match_substring (match_case_insensitive df)
                        (filter (fun c => negb (mem c (columns (match_case_insensitive df))))
                                required_columns))))
  = false /\
  resolve_columns df
  = match snd (match_substring (match_case_insensitive df)
                 (filter (fun c => negb (mem c (columns (match_case_insensitive df))))
                         required_columns)) with
    | [] => Ok (fst (match_substring (match_case_insensitive df)
                       (filter (fun c => negb (mem c (columns (match_case_insensitive df))))
                               required_columns)))
    | m :: ms => Raise (ValueError (missing_message (m :: ms)))
    end.
Proof.
  split; [apply adjusted_close_condition_false|].
  pose proof (adjusted_close_condition_false df) as Hcond.
  unfold resolve_columns.
  set (df1 := match_case_insensitive df) in *.
  set (missing := filter (fun c => negb (mem c (columns df1))) required_columns) in *.
  destruct missing as [|m0 ms0]; [reflexivity|].
  destruct (match_substring df1 (m0 :: ms0)) as [df2 missing2].
  cbn [fst snd] in *.
  destruct missing2 as [|m2 ms2]; [reflexivity|].
  rewrite Hcond. reflexivity.
Qed.

(** ** The derived columns *)

Lemma ffill_fl (prev : Fl) (l : list Q) : ffill_from prev (map fl l) = map fl l.
Proof.
  revert prev; induction l as [|x l IH]; intros prev; [reflexivity|].
  cbn [map ffill_from fl]. f_equal. apply IH.
Qed.

Lemma shifted_nth (f : Fl -> Fl -> Fl) (l : list Q) (i : nat) :
  (S i < length l)%nat ->
  nth (S i)
      (match map fl l with
       | [] => []
       | _ :: t => NaN :: map2 f (map fl l) t
       end) NaN
  = f (fl (nth i l 0)) (fl (nth (S i) l 0)).
Proof.
  intros Hi. destruct l as [|x t]; [simpl in Hi; lia|].
  cbn [map nth]. cbn [length] in Hi.
  change (fl x :: map fl t) with (map fl (x :: t)).
  rewrite (nth_map2 f _ _ i NaN NaN NaN) by (rewrite length_map; simpl; lia).
  rewrite (nth_map_lt fl (x :: t) i NaN 0) by (simpl; lia).
  rewrite (nth_map_lt fl t i NaN 0) by lia.
  reflexivity.
Qed.

Lemma shifted_length (f : Fl -> Fl -> Fl) (s : Series) :
  length (match s with
          | [] => []
          | _ :: t => NaN :: map2 f s t
          end) = length s.
Proof.
  destruct s as [|x t]; [reflexivity|].
  cbn [length]. rewrite length_map2. cbn [length]. lia.
Qed.

(** X17: on a table with distinct labels and closes without missing values,
    the two derived columns have one entry per row and are missing at row
    0.  At every later row the price change is the close minus the previous
    close, and the percent change is that change over the previous close
    times 100; it has no finite value when the previous close is 0. *)
Theorem add_changes_rows (df : DataFrame) (closes : list Q) :
  numeric df "close" = Ok (map fl closes) ->
  NoDup (columns df) ->
  exists changed price_change percent_change,
    add_changes df = Ok changed /\
    numeric changed "price_change" = Ok price_change /\
    numeric changed "percent_change" = Ok percent_change /\
    length price_change = length closes /\
    length percent_change = length closes /\
    ((0 < length closes)%nat ->
     nth 0 price_change NaN = None /\ nth 0 percent_change NaN = None) /\
    forall i, (S i < length closes)%nat ->
      nth (S i) price_change NaN = Some (nth (S i) closes 0 - nth i closes 0) /\
      (nth i closes 0 == 0 -> nth (S i) percent_change NaN = None) /\
      (~ nth i closes 0 == 0 ->
       exists p,
         nth (S i) percent_change NaN = Some p /\
         p == (nth (S i) closes 0 - nth i closes 0) / nth i closes 0 * 100).
Proof.
  intros Hclose Hnd.
  pose proof Hclose as Hclose'.
  apply numeric_inv in Hclose'. destruct Hclose' as [c [Hc Hf]].
  exists (setitem (setitem df "price_change" (of_series (diff (map fl closes))))
            "percent_change"
            (of_series (map (fun x => fmul x (fl 100)) (pct_change (map fl closes))))),
         (diff (map fl closes)),
         (map (fun x => fmul x (fl 100)) (pct_change (map fl closes))).
  split.
  { unfold add_changes. rewrite Hc. cbn [bind]. rewrite Hf. cbn [bind].
    rewrite getitem_setitem_other by discriminate. rewrite Hc. cbn [bind].
    rewrite Hf. reflexivity. }
  split.
  { rewrite numeric_setitem_other by discriminate.
    apply numeric_setitem_same. exact Hnd. }
  split.
  { apply numeric_setitem_same. apply NoDup_setitem. exact Hnd. }
  split; [rewrite length_diff, length_map; reflexivity|].
  assert (Hpct : pct_change (map fl closes)
                 = match map fl closes with
                   | [] => []
                   | _ :: t => NaN :: map2 (fun prev cur => fsub (fdiv cur prev) (fl 1))
                                          (map fl closes) t
                   end).
  { unfold pct_change. rewrite ffill_fl. reflexivity. }
  split.
  { rewrite length_map, Hpct, shifted_length, length_map. reflexivity. }
  split.
  { intros Hn. destruct closes as [|x t]; [simpl in Hn; lia|]. split; reflexivity. }
  intros i Hi.
  split; [unfold diff; rewrite shifted_nth by exact Hi; reflexivity|].
  rewrite (nth_map_lt _ _ (S i) NaN NaN)
    by (rewrite Hpct, shifted_length, length_map; exact Hi).
  rewrite Hpct, shifted_nth by exact Hi.
  cbn [fdiv fl]. split.
  - intros Hz. apply Qeq_bool_iff in Hz. rewrite Hz. reflexivity.
  - intros Hnz. destruct (Qeq_bool (nth i closes 0) 0) eqn:E.
    + apply Qeq_bool_iff in E. contradiction.
    + cbn. eexists. split; [reflexivity|]. field. exact Hnz.
Qed.

Lemma add_changes_rows_witness :
  exists changed price_change percent_change,
    add_changes (close_frame rising30) = Ok changed /\
    numeric changed "price_change" = Ok price_change /\
    numeric changed "percent_change" = Ok percent_change /\
    length price_change = length rising30 /\
    length percent_change = length rising30 /\
    ((0 < length rising30)%nat ->
     nth 0 price_change NaN = None /\ nth 0 percent_change NaN = None) /\
    forall i, (S i < length rising30)%nat ->
      nth (S i) price_change NaN = Some (nth (S i) rising30 0 - nth i rising30 0) /\
      (nth i rising30 0 == 0 -> nth (S i) percent_change NaN = None) /\
      (~ nth i rising30 0 == 0 ->
       exists p,
         nth (S i) percent_change NaN = Some p /\
         p == (nth (S i) rising30 0 - nth i rising30 0) / nth i rising30 0 * 100).
Proof.
  apply (add_changes_rows (close_frame rising30) rising30).
  - apply numeric_close_frame.
  - unfold close_frame, columns. cbn [df_columns map fst]. distinct_labels.
Defined.

(** ** MACD of a flat series *)

Lemma ewm_from_constant (alpha w c : Q) (l : list Q) :
  w == c -> Forall (fun x => x == c) l ->
  exists ys,
    ewm_from alpha (Some w) 1 (map fl l) = map fl ys /\
    Forall (fun y => y == c) ys.
Proof.
  intros Hw Hl. revert w Hw. induction Hl as [|x l Hx Hl IH]; intros w Hw.
  - exists []. split; [reflexivity | constructor].
  - cbn [map ewm_from fl].
    assert (Hden : Qeq_bool (1 * (1 - alpha) + alpha) 0 = false).
    { destruct (Qeq_bool (1 * (1 - alpha) + alpha) 0) eqn:E; [|reflexivity].
      apply Qeq_bool_eq in E. lra. }
    unfold fdiv at 1 2. unfold fl at 1 2 3 4. rewrite Hden.
    set (y := (1 * (1 - alpha) * w + alpha * x) / (1 * (1 - alpha) + alpha)).
    assert (Hy : y == c).
    { unfold y. rewrite Hw, Hx. field. lra. }
    destruct (IH y Hy) as [ys [Hys Hall]].
    exists (y :: ys). rewrite Hys. split; [reflexivity|].
    constructor; assumption.
Qed.

Lemma ewm_mean_constant (span : nat) (c : Q) (l : list Q) :
  (1 <= span)%nat -> Forall (fun x => x == c) l ->
  exists ys,
    ewm_mean span (map fl l) = Ok (map fl ys) /\ Forall (fun y => y == c) ys.
Proof.
  intros Hspan Hl. unfold ewm_mean.
  replace (span <? 1)%nat with false by (symmetry; apply Nat.ltb_ge; exact Hspan).
  destruct Hl as [|x l Hx Hl].
  - exists []. split; [reflexivity | constructor].
  - cbn [map ewm_from NaN]. change (fl x) with (Some x).
    destruct (ewm_from_constant (2 / (of_nat span + 1)) x c l Hx Hl) as [ys [Hys Hall]].
    exists (x :: ys). rewrite Hys. split; [reflexivity|]. constructor; assumption.
Qed.

Lemma Forall_map2_minus (a b : Q) (l1 l2 : list Q) :
  Forall (fun x => x == a) l1 -> Forall (fun x => x == b) l2 ->
  Forall (fun x => x == a - b) (map2 Qminus l1 l2).
Proof.
  intros H1. revert l2. induction H1 as [|x l1 Hx H1 IH]; intros l2 H2; [constructor|].
  destruct H2 as [|y l2 Hy H2]; [constructor|].
  rewrite map2_cons. constructor; [rewrite Hx, Hy; reflexivity | apply IH; exact H2].
Qed.

(** X18: when all the closes are equal, the MACD line, the signal line and
    the histogram are 0 at every row. *)
Theorem calculate_macd_flat (data : DataFrame) (closes : list Q) (c : Q)
    (fast_period slow_period signal_period : nat) :
  numeric data "close" = Ok (map fl closes) ->
  Forall (fun x => x == c) closes ->
  (1 <= fast_period)%nat -> (1 <= slow_period)%nat -> (1 <= signal_period)%nat ->
  exists macd signal hist : list Q,
    calculate_macd data fast_period slow_period signal_period
    = Ok (map fl macd, map fl signal, map fl hist) /\
    Forall (fun x => x == 0) macd /\
    Forall (fun x => x == 0) signal /\
    Forall (fun x => x == 0) hist.
Proof.
  intros Hclose Hflat Hf Hs Hg.
  apply numeric_inv in Hclose. destruct Hclose as [col [Hc Hfl]].
  destruct (ewm_mean_constant fast_period c closes Hf Hflat) as [ef [Hef Fef]].
  destruct (ewm_mean_constant slow_period c closes Hs Hflat) as [es [Hes Fes]].
  assert (Fm : Forall (fun x => x == 0) (map2 Qminus ef es)).
  { eapply Forall_impl; [|apply (Forall_map2_minus c c); assumption].
    cbv beta. intros x Hx. rewrite Hx. ring. }
  destruct (ewm_mean_constant signal_period 0 (map2 Qminus ef es) Hg Fm)
    as [sg [Hsg Fsg]].
  exists (map2 Qminus ef es), sg, (map2 Qminus (map2 Qminus ef es) sg).
  split.
  { unfold calculate_macd. rewrite Hc. cbn [bind]. rewrite Hfl. cbn [bind].
    rewrite Hef, Hes. cbn [bind].
    change fsub with (fl_lift2 Qminus). rewrite map2_fl, Hsg. cbn [bind].
    rewrite map2_fl. reflexivity. }
  split; [exact Fm|]. split; [exact Fsg|].
  eapply Forall_impl; [|apply (Forall_map2_minus 0 0); assumption].
  cbv beta. intros x Hx. rewrite Hx. ring.
Qed.

Lemma calculate_macd_flat_witness :
  exists macd signal hist : list Q,
    calculate_macd (close_frame flat25) 12 26 9
    = Ok (map fl macd, map fl signal, map fl hist) /\
    Forall (fun x => x == 0) macd /\
    Forall (fun x => x == 0) signal /\
    Forall (fun x => x == 0) hist.
Proof.
  apply (calculate_macd_flat (close_frame flat25) flat25 1900 12 26 9).
  - apply numeric_close_frame.
  - unfold flat25. apply Forall_repeat. reflexivity.
  - lia.
  - lia.
  - lia.
Defined.
